(** * PoCX consensus core: a shallow embedding and its properties

    The development follows the C++ sources of the PoCX layer:
    - [pocx/crypto/shabal256.cpp], [pocx/crypto/shabal256_lite.cpp]
    - [pocx/algorithms/encoding.cpp], [pocx/algorithms/quality.cpp]
    - [pocx/algorithms/time_bending.cpp]
    - [pocx/consensus/params.cpp], [pocx/consensus/difficulty.cpp]
    - [pocx/assignments/assignment_state.cpp], [pocx/assignments/opcodes.cpp]
    - [pocx/consensus/proof.cpp]
    - [pocx/mining/scheduler.cpp], [pocx/mining/submission.cpp]

    Machine integers are values of [Z] with the wrap-around written out;
    C arrays are lists read with [!!!] and written with [<[i:=v]>]. *)

From Stdlib Require Import ZArith Lia List Bool.
From stdpp Require Import base list.
From coqutil Require Import Z.bitblast.
Import ListNotations.

Local Open Scope Z_scope.

(** ** 32-bit and 64-bit unsigned words *)

Definition u32 (z : Z) : Z := z mod 2 ^ 32.
Definition u64 (z : Z) : Z := z mod 2 ^ 64.
Definition u8 (z : Z) : Z := Z.land z 255.

(** [~x] on a [uint32_t]. *)
Definition not32 (x : Z) : Z := u32 (Z.lnot x).

(** Reading a C array at a constant index. *)
Notation "l @ i" := (l !!! (i%nat)) (at level 9, i at level 9, only parsing).

(** A little-endian host lays a [uint32_t] out as four bytes, low byte first;
    [memcpy] and [reinterpret_cast] between byte and word buffers follow it. *)
Definition u32_to_bytes (w : Z) : list Z :=
  [u8 w; u8 (Z.shiftr w 8); u8 (Z.shiftr w 16); u8 (Z.shiftr w 24)].

Definition bytes_of_words (ws : list Z) : list Z := flat_map u32_to_bytes ws.

Fixpoint words_of_bytes (bs : list Z) : list Z :=
  match bs with
  | b0 :: b1 :: b2 :: b3 :: rest =>
      Z.lor (Z.lor (Z.lor b0 (Z.shiftl b1 8)) (Z.shiftl b2 16)) (Z.shiftl b3 24)
      :: words_of_bytes rest
  | _ => []
  end.

(** ** Shabal-256 ([pocx/crypto/shabal256.cpp]) *)

Module Shabal.

Definition A_INIT : list Z :=
  [0x52F84552; 0xE54B7999; 0x2D8EE3EC; 0xB9645191; 0xE0078B86; 0xBB7C44C9;
   0xD2B5C1CA; 0xB0D2EB8C; 0x14CE5A45; 0x22AF50DC; 0xEFFDBC6B; 0xEB21B74A].

Definition B_INIT : list Z :=
  [0xB555C6EE; 0x3E710596; 0xA72A652F; 0x9301515F; 0xDA28C1FA; 0x696FD868;
   0x9CB6BF72; 0x0AFE4002; 0xA6E03615; 0x5138C1D4; 0xBE216306; 0xB38B8890;
   0x3EA8B96B; 0x3299ACE4; 0x30924DD4; 0x55CB34A5].

Definition C_INIT : list Z :=
  [0xB405F031; 0xC4233EBA; 0xB3733979; 0xC0DD9D55; 0xC51C28AE; 0xA327B8E1;
   0x56C56167; 0xED614433; 0x88B59D60; 0x60E2CEBA; 0x758B4B8B; 0x83E82A7F;
   0xBC968828; 0xE6E00BF7; 0xBA839E55; 0x9B491C60].

(** [for (i = 0; i < 16; ++i) b[i] += data[i];] *)
Definition input_block_add (b data : list Z) : list Z :=
  fold_left (fun b i => <[i := u32 (b !!! i + data !!! i)]> b) (seq 0 16) b.

(** [for (i = 0; i < 16; ++i) c[i] -= data[i];] *)
Definition input_block_sub (c data : list Z) : list Z :=
  fold_left (fun c i => <[i := u32 (c !!! i - data !!! i)]> c) (seq 0 16) c.

Definition xor_w (a : list Z) (w_low w_high : Z) : list Z :=
  let a := <[0%nat := Z.lxor (a @ 0) w_low]> a in
  <[1%nat := Z.lxor (a @ 1) w_high]> a.

Definition perm_elt (a b : list Z) (xa0 xa1 xb0 xb1 xb2 xb3 : nat) (xc xm : Z)
  : list Z * list Z :=
  let a :=
    <[xa0 :=
        Z.lxor
          (Z.lxor
             (Z.lxor
                (u32 (Z.lxor
                        (Z.lxor (a !!! xa0)
                           (u32 (Z.lor (u32 (Z.shiftl (a !!! xa1) 15))
                                       (Z.shiftr (a !!! xa1) 17) * 5)))
                        xc * 3))
                (b !!! xb1))
             (Z.land (b !!! xb2) (not32 (b !!! xb3))))
          xm]> a in
  let b :=
    <[xb0 :=
        not32 (Z.lxor (Z.lor (u32 (Z.shiftl (b !!! xb0) 1)) (Z.shiftr (b !!! xb0) 31))
                      (a !!! xa0))]> b in
  (a, b).
Arguments perm_elt a b (xa0 xa1 xb0 xb1 xb2 xb3)%_nat xc xm.

Definition perm (a b c data : list Z) : list Z * list Z :=
  let '(a, b) := perm_elt a b 0 11 0 13 9 6 (c @ 8) (data @ 0) in
  let '(a, b) := perm_elt a b 1 0 1 14 10 7 (c @ 7) (data @ 1) in
  let '(a, b) := perm_elt a b 2 1 2 15 11 8 (c @ 6) (data @ 2) in
  let '(a, b) := perm_elt a b 3 2 3 0 12 9 (c @ 5) (data @ 3) in
  let '(a, b) := perm_elt a b 4 3 4 1 13 10 (c @ 4) (data @ 4) in
  let '(a, b) := perm_elt a b 5 4 5 2 14 11 (c @ 3) (data @ 5) in
  let '(a, b) := perm_elt a b 6 5 6 3 15 12 (c @ 2) (data @ 6) in
  let '(a, b) := perm_elt a b 7 6 7 4 0 13 (c @ 1) (data @ 7) in
  let '(a, b) := perm_elt a b 8 7 8 5 1 14 (c @ 0) (data @ 8) in
  let '(a, b) := perm_elt a b 9 8 9 6 2 15 (c @ 15) (data @ 9) in
  let '(a, b) := perm_elt a b 10 9 10 7 3 0 (c @ 14) (data @ 10) in
  let '(a, b) := perm_elt a b 11 10 11 8 4 1 (c @ 13) (data @ 11) in
  let '(a, b) := perm_elt a b 0 11 12 9 5 2 (c @ 12) (data @ 12) in
  let '(a, b) := perm_elt a b 1 0 13 10 6 3 (c @ 11) (data @ 13) in
  let '(a, b) := perm_elt a b 2 1 14 11 7 4 (c @ 10) (data @ 14) in
  let '(a, b) := perm_elt a b 3 2 15 12 8 5 (c @ 9) (data @ 15) in
  let '(a, b) := perm_elt a b 4 3 0 13 9 6 (c @ 8) (data @ 0) in
  let '(a, b) := perm_elt a b 5 4 1 14 10 7 (c @ 7) (data @ 1) in
  let '(a, b) := perm_elt a b 6 5 2 15 11 8 (c @ 6) (data @ 2) in
  let '(a, b) := perm_elt a b 7 6 3 0 12 9 (c @ 5) (data @ 3) in
  let '(a, b) := perm_elt a b 8 7 4 1 13 10 (c @ 4) (data @ 4) in
  let '(a, b) := perm_elt a b 9 8 5 2 14 11 (c @ 3) (data @ 5) in
  let '(a, b) := perm_elt a b 10 9 6 3 15 12 (c @ 2) (data @ 6) in
  let '(a, b) := perm_elt a b 11 10 7 4 0 13 (c @ 1) (data @ 7) in
  let '(a, b) := perm_elt a b 0 11 8 5 1 14 (c @ 0) (data @ 8) in
  let '(a, b) := perm_elt a b 1 0 9 6 2 15 (c @ 15) (data @ 9) in
  let '(a, b) := perm_elt a b 2 1 10 7 3 0 (c @ 14) (data @ 10) in
  let '(a, b) := perm_elt a b 3 2 11 8 4 1 (c @ 13) (data @ 11) in
  let '(a, b) := perm_elt a b 4 3 12 9 5 2 (c @ 12) (data @ 12) in
  let '(a, b) := perm_elt a b 5 4 13 10 6 3 (c @ 11) (data @ 13) in
  let '(a, b) := perm_elt a b 6 5 14 11 7 4 (c @ 10) (data @ 14) in
  let '(a, b) := perm_elt a b 7 6 15 12 8 5 (c @ 9) (data @ 15) in
  let '(a, b) := perm_elt a b 8 7 0 13 9 6 (c @ 8) (data @ 0) in
  let '(a, b) := perm_elt a b 9 8 1 14 10 7 (c @ 7) (data @ 1) in
  let '(a, b) := perm_elt a b 10 9 2 15 11 8 (c @ 6) (data @ 2) in
  let '(a, b) := perm_elt a b 11 10 3 0 12 9 (c @ 5) (data @ 3) in
  let '(a, b) := perm_elt a b 0 11 4 1 13 10 (c @ 4) (data @ 4) in
  let '(a, b) := perm_elt a b 1 0 5 2 14 11 (c @ 3) (data @ 5) in
  let '(a, b) := perm_elt a b 2 1 6 3 15 12 (c @ 2) (data @ 6) in
  let '(a, b) := perm_elt a b 3 2 7 4 0 13 (c @ 1) (data @ 7) in
  let '(a, b) := perm_elt a b 4 3 8 5 1 14 (c @ 0) (data @ 8) in
  let '(a, b) := perm_elt a b 5 4 9 6 2 15 (c @ 15) (data @ 9) in
  let '(a, b) := perm_elt a b 6 5 10 7 3 0 (c @ 14) (data @ 10) in
  let '(a, b) := perm_elt a b 7 6 11 8 4 1 (c @ 13) (data @ 11) in
  let '(a, b) := perm_elt a b 8 7 12 9 5 2 (c @ 12) (data @ 12) in
  let '(a, b) := perm_elt a b 9 8 13 10 6 3 (c @ 11) (data @ 13) in
  let '(a, b) := perm_elt a b 10 9 14 11 7 4 (c @ 10) (data @ 14) in
  let '(a, b) := perm_elt a b 11 10 15 12 8 5 (c @ 9) (data @ 15) in
  (a, b).

(** The twelve [a[k] += c[..] + c[..] + c[..]] lines closing [apply_p]. *)
Definition add_c (a c : list Z) : list Z :=
  let a := <[0%nat := u32 (a @ 0 + u32 (u32 (c @ 11 + c @ 15) + c @ 3))]> a in
  let a := <[1%nat := u32 (a @ 1 + u32 (u32 (c @ 12 + c @ 0) + c @ 4))]> a in
  let a := <[2%nat := u32 (a @ 2 + u32 (u32 (c @ 13 + c @ 1) + c @ 5))]> a in
  let a := <[3%nat := u32 (a @ 3 + u32 (u32 (c @ 14 + c @ 2) + c @ 6))]> a in
  let a := <[4%nat := u32 (a @ 4 + u32 (u32 (c @ 15 + c @ 3) + c @ 7))]> a in
  let a := <[5%nat := u32 (a @ 5 + u32 (u32 (c @ 0 + c @ 4) + c @ 8))]> a in
  let a := <[6%nat := u32 (a @ 6 + u32 (u32 (c @ 1 + c @ 5) + c @ 9))]> a in
  let a := <[7%nat := u32 (a @ 7 + u32 (u32 (c @ 2 + c @ 6) + c @ 10))]> a in
  let a := <[8%nat := u32 (a @ 8 + u32 (u32 (c @ 3 + c @ 7) + c @ 11))]> a in
  let a := <[9%nat := u32 (a @ 9 + u32 (u32 (c @ 4 + c @ 8) + c @ 12))]> a in
  let a := <[10%nat := u32 (a @ 10 + u32 (u32 (c @ 5 + c @ 9) + c @ 13))]> a in
  let a := <[11%nat := u32 (a @ 11 + u32 (u32 (c @ 6 + c @ 10) + c @ 14))]> a in
  a.

Definition rotl17 (b : list Z) : list Z :=
  fold_left
    (fun b i => <[i := Z.lor (u32 (Z.shiftl (b !!! i) 17)) (Z.shiftr (b !!! i) 15)]> b)
    (seq 0 16) b.

Definition apply_p (a b c data : list Z) : list Z * list Z :=
  let b := rotl17 b in
  let '(a, b) := perm a b c data in
  (add_c a c, b).

(** [swap_bc] exchanges the sixteen words of [b] and [c]. *)
Definition swap_bc (b c : list Z) : list Z * list Z :=
  fold_left
    (fun '(b, c) i => let temp := b !!! i in (<[i := c !!! i]> b, <[i := temp]> c))
    (seq 0 16) (b, c).

Definition incr_w (w_low w_high : Z) : Z * Z :=
  let w_low := u32 (w_low + 1) in
  if w_low =? 0 then (w_low, u32 (w_high + 1)) else (w_low, w_high).

Record state := mkState {
  st_a : list Z; st_b : list Z; st_c : list Z; st_w_low : Z; st_w_high : Z }.

Definition init : state := mkState A_INIT B_INIT C_INIT 1 0.

(** One full compression of a data block: the body of the [while] loop, also
    used for the pre-terminator. *)
Definition compress (s : state) (m : list Z) : state :=
  let b := input_block_add (st_b s) m in
  let a := xor_w (st_a s) (st_w_low s) (st_w_high s) in
  let '(a, b) := apply_p a b (st_c s) m in
  let c := input_block_sub (st_c s) m in
  let '(b, c) := swap_bc b c in
  let '(w_low, w_high) := incr_w (st_w_low s) (st_w_high s) in
  mkState a b c w_low w_high.

(** [while (num > 0) { ...; ptr += 16; --num; }] *)
Fixpoint absorb (num : nat) (ptr : nat) (data_aligned : list Z) (s : state) : state :=
  match num with
  | O => s
  | S num' => absorb num' (ptr + 16) data_aligned (compress s (drop ptr data_aligned))
  end.

(** The terminator block, then [for (i = 0; i < 3; ++i)] swap, xor, [apply_p]. *)
Definition final_round (s : state) (term : list Z) : state :=
  let '(b, c) := swap_bc (st_b s) (st_c s) in
  let a := xor_w (st_a s) (st_w_low s) (st_w_high s) in
  let '(a, b) := apply_p a b c term in
  mkState a b c (st_w_low s) (st_w_high s).

Definition terminate (s : state) (term : list Z) : state :=
  let b := input_block_add (st_b s) term in
  let a := xor_w (st_a s) (st_w_low s) (st_w_high s) in
  let '(a, b) := apply_p a b (st_c s) term in
  let s := mkState a b (st_c s) (st_w_low s) (st_w_high s) in
  fold_left (fun s _ => final_round s term) (seq 0 3) s.

(** The state reached just before [memcpy(output, &b[8], 32)]. *)
Definition Shabal256_state (data : list Z) (pre_term : option (list Z)) (term : list Z)
  : state :=
  let len := length data in
  let num := Nat.div len 64 in
  let data_aligned := words_of_bytes data in
  let s := absorb num 0 data_aligned init in
  let s := match pre_term with
           | Some pt => compress s pt
           | None => s
           end in
  terminate s term.

Definition Shabal256 (data : list Z) (pre_term : option (list Z)) (term : list Z)
  : list Z :=
  bytes_of_words (take 8 (drop 8 (st_b (Shabal256_state data pre_term term)))).

End Shabal.

(** ** Shabal-256 lite ([pocx/crypto/shabal256_lite.cpp]) *)

Module ShabalLite.

Definition A_INIT_LITE : list Z :=
  [0x52F84552; 0xE54B7999; 0x2D8EE3EC; 0xB9645191; 0xE0078B86; 0xBB7C44C9;
   0xD2B5C1CA; 0xB0D2EB8C; 0x14CE5A45; 0x22AF50DC; 0xEFFDBC6B; 0xEB21B74A].

Definition B_INIT_LITE : list Z :=
  [0xB555C6EE; 0x3E710596; 0xA72A652F; 0x9301515F; 0xDA28C1FA; 0x696FD868;
   0x9CB6BF72; 0x0AFE4002; 0xA6E03615; 0x5138C1D4; 0xBE216306; 0xB38B8890;
   0x3EA8B96B; 0x3299ACE4; 0x30924DD4; 0x55CB34A5].

Definition C_INIT_LITE : list Z :=
  [0xB405F031; 0xC4233EBA; 0xB3733979; 0xC0DD9D55; 0xC51C28AE; 0xA327B8E1;
   0x56C56167; 0xED614433; 0x88B59D60; 0x60E2CEBA; 0x758B4B8B; 0x83E82A7F;
   0xBC968828; 0xE6E00BF7; 0xBA839E55; 0x9B491C60].

Definition perm_elt_lite (a b : list Z) (xa0 xa1 xb0 xb1 xb2 xb3 : nat) (xc xm : Z)
  : list Z * list Z :=
  let a :=
    <[xa0 :=
        Z.lxor
          (Z.lxor
             (Z.lxor
                (u32 (Z.lxor
                        (Z.lxor (a !!! xa0)
                           (u32 (Z.lor (u32 (Z.shiftl (a !!! xa1) 15))
                                       (Z.shiftr (a !!! xa1) 17) * 5)))
                        xc * 3))
                (b !!! xb1))
             (Z.land (b !!! xb2) (not32 (b !!! xb3))))
          xm]> a in
  let b :=
    <[xb0 :=
        not32 (Z.lxor (Z.lor (u32 (Z.shiftl (b !!! xb0) 1)) (Z.shiftr (b !!! xb0) 31))
                      (a !!! xa0))]> b in
  (a, b).
Arguments perm_elt_lite a b (xa0 xa1 xb0 xb1 xb2 xb3)%_nat xc xm.

(** The 48 steps of the first block (source lines 63 to 112): the message
    words are the generation signature followed by the first half of the data. *)
Definition perm_block1 (a b c gensig_u32 data_aligned : list Z) : list Z * list Z :=
  let '(a, b) := perm_elt_lite a b 0 11 0 13 9 6 (c @ 8) (gensig_u32 @ 0) in
  let '(a, b) := perm_elt_lite a b 1 0 1 14 10 7 (c @ 7) (gensig_u32 @ 1) in
  let '(a, b) := perm_elt_lite a b 2 1 2 15 11 8 (c @ 6) (gensig_u32 @ 2) in
  let '(a, b) := perm_elt_lite a b 3 2 3 0 12 9 (c @ 5) (gensig_u32 @ 3) in
  let '(a, b) := perm_elt_lite a b 4 3 4 1 13 10 (c @ 4) (gensig_u32 @ 4) in
  let '(a, b) := perm_elt_lite a b 5 4 5 2 14 11 (c @ 3) (gensig_u32 @ 5) in
  let '(a, b) := perm_elt_lite a b 6 5 6 3 15 12 (c @ 2) (gensig_u32 @ 6) in
  let '(a, b) := perm_elt_lite a b 7 6 7 4 0 13 (c @ 1) (gensig_u32 @ 7) in
  let '(a, b) := perm_elt_lite a b 8 7 8 5 1 14 (c @ 0) (data_aligned @ 0) in
  let '(a, b) := perm_elt_lite a b 9 8 9 6 2 15 (c @ 15) (data_aligned @ 1) in
  let '(a, b) := perm_elt_lite a b 10 9 10 7 3 0 (c @ 14) (data_aligned @ 2) in
  let '(a, b) := perm_elt_lite a b 11 10 11 8 4 1 (c @ 13) (data_aligned @ 3) in
  let '(a, b) := perm_elt_lite a b 0 11 12 9 5 2 (c @ 12) (data_aligned @ 4) in
  let '(a, b) := perm_elt_lite a b 1 0 13 10 6 3 (c @ 11) (data_aligned @ 5) in
  let '(a, b) := perm_elt_lite a b 2 1 14 11 7 4 (c @ 10) (data_aligned @ 6) in
  let '(a, b) := perm_elt_lite a b 3 2 15 12 8 5 (c @ 9) (data_aligned @ 7) in
  let '(a, b) := perm_elt_lite a b 4 3 0 13 9 6 (c @ 8) (gensig_u32 @ 0) in
  let '(a, b) := perm_elt_lite a b 5 4 1 14 10 7 (c @ 7) (gensig_u32 @ 1) in
  let '(a, b) := perm_elt_lite a b 6 5 2 15 11 8 (c @ 6) (gensig_u32 @ 2) in
  let '(a, b) := perm_elt_lite a b 7 6 3 0 12 9 (c @ 5) (gensig_u32 @ 3) in
  let '(a, b) := perm_elt_lite a b 8 7 4 1 13 10 (c @ 4) (gensig_u32 @ 4) in
  let '(a, b) := perm_elt_lite a b 9 8 5 2 14 11 (c @ 3) (gensig_u32 @ 5) in
  let '(a, b) := perm_elt_lite a b 10 9 6 3 15 12 (c @ 2) (gensig_u32 @ 6) in
  let '(a, b) := perm_elt_lite a b 11 10 7 4 0 13 (c @ 1) (gensig_u32 @ 7) in
  let '(a, b) := perm_elt_lite a b 0 11 8 5 1 14 (c @ 0) (data_aligned @ 0) in
  let '(a, b) := perm_elt_lite a b 1 0 9 6 2 15 (c @ 15) (data_aligned @ 1) in
  let '(a, b) := perm_elt_lite a b 2 1 10 7 3 0 (c @ 14) (data_aligned @ 2) in
  let '(a, b) := perm_elt_lite a b 3 2 11 8 4 1 (c @ 13) (data_aligned @ 3) in
  let '(a, b) := perm_elt_lite a b 4 3 12 9 5 2 (c @ 12) (data_aligned @ 4) in
  let '(a, b) := perm_elt_lite a b 5 4 13 10 6 3 (c @ 11) (data_aligned @ 5) in
  let '(a, b) := perm_elt_lite a b 6 5 14 11 7 4 (c @ 10) (data_aligned @ 6) in
  let '(a, b) := perm_elt_lite a b 7 6 15 12 8 5 (c @ 9) (data_aligned @ 7) in
  let '(a, b) := perm_elt_lite a b 8 7 0 13 9 6 (c @ 8) (gensig_u32 @ 0) in
  let '(a, b) := perm_elt_lite a b 9 8 1 14 10 7 (c @ 7) (gensig_u32 @ 1) in
  let '(a, b) := perm_elt_lite a b 10 9 2 15 11 8 (c @ 6) (gensig_u32 @ 2) in
  let '(a, b) := perm_elt_lite a b 11 10 3 0 12 9 (c @ 5) (gensig_u32 @ 3) in
  let '(a, b) := perm_elt_lite a b 0 11 4 1 13 10 (c @ 4) (gensig_u32 @ 4) in
  let '(a, b) := perm_elt_lite a b 1 0 5 2 14 11 (c @ 3) (gensig_u32 @ 5) in
  let '(a, b) := perm_elt_lite a b 2 1 6 3 15 12 (c @ 2) (gensig_u32 @ 6) in
  let '(a, b) := perm_elt_lite a b 3 2 7 4 0 13 (c @ 1) (gensig_u32 @ 7) in
  let '(a, b) := perm_elt_lite a b 4 3 8 5 1 14 (c @ 0) (data_aligned @ 0) in
  let '(a, b) := perm_elt_lite a b 5 4 9 6 2 15 (c @ 15) (data_aligned @ 1) in
  let '(a, b) := perm_elt_lite a b 6 5 10 7 3 0 (c @ 14) (data_aligned @ 2) in
  let '(a, b) := perm_elt_lite a b 7 6 11 8 4 1 (c @ 13) (data_aligned @ 3) in
  let '(a, b) := perm_elt_lite a b 8 7 12 9 5 2 (c @ 12) (data_aligned @ 4) in
  let '(a, b) := perm_elt_lite a b 9 8 13 10 6 3 (c @ 11) (data_aligned @ 5) in
  let '(a, b) := perm_elt_lite a b 10 9 14 11 7 4 (c @ 10) (data_aligned @ 6) in
  let '(a, b) := perm_elt_lite a b 11 10 15 12 8 5 (c @ 9) (data_aligned @ 7) in
  (a, b).

(** The 48 steps of the second block (source lines 155 to 204, repeated as
    lines 232 to 281 inside the closing loop): the second half of the data
    followed by the terminator words. *)
Definition perm_block2 (a b c data_aligned term : list Z) : list Z * list Z :=
  let '(a, b) := perm_elt_lite a b 0 11 0 13 9 6 (c @ 8) (data_aligned @ 8) in
  let '(a, b) := perm_elt_lite a b 1 0 1 14 10 7 (c @ 7) (data_aligned @ 9) in
  let '(a, b) := perm_elt_lite a b 2 1 2 15 11 8 (c @ 6) (data_aligned @ 10) in
  let '(a, b) := perm_elt_lite a b 3 2 3 0 12 9 (c @ 5) (data_aligned @ 11) in
  let '(a, b) := perm_elt_lite a b 4 3 4 1 13 10 (c @ 4) (data_aligned @ 12) in
  let '(a, b) := perm_elt_lite a b 5 4 5 2 14 11 (c @ 3) (data_aligned @ 13) in
  let '(a, b) := perm_elt_lite a b 6 5 6 3 15 12 (c @ 2) (data_aligned @ 14) in
  let '(a, b) := perm_elt_lite a b 7 6 7 4 0 13 (c @ 1) (data_aligned @ 15) in
  let '(a, b) := perm_elt_lite a b 8 7 8 5 1 14 (c @ 0) (term @ 0) in
  let '(a, b) := perm_elt_lite a b 9 8 9 6 2 15 (c @ 15) (term @ 1) in
  let '(a, b) := perm_elt_lite a b 10 9 10 7 3 0 (c @ 14) (term @ 2) in
  let '(a, b) := perm_elt_lite a b 11 10 11 8 4 1 (c @ 13) (term @ 3) in
  let '(a, b) := perm_elt_lite a b 0 11 12 9 5 2 (c @ 12) (term @ 4) in
  let '(a, b) := perm_elt_lite a b 1 0 13 10 6 3 (c @ 11) (term @ 5) in
  let '(a, b) := perm_elt_lite a b 2 1 14 11 7 4 (c @ 10) (term @ 6) in
  let '(a, b) := perm_elt_lite a b 3 2 15 12 8 5 (c @ 9) (term @ 7) in
  let '(a, b) := perm_elt_lite a b 4 3 0 13 9 6 (c @ 8) (data_aligned @ 8) in
  let '(a, b) := perm_elt_lite a b 5 4 1 14 10 7 (c @ 7) (data_aligned @ 9) in
  let '(a, b) := perm_elt_lite a b 6 5 2 15 11 8 (c @ 6) (data_aligned @ 10) in
  let '(a, b) := perm_elt_lite a b 7 6 3 0 12 9 (c @ 5) (data_aligned @ 11) in
  let '(a, b) := perm_elt_lite a b 8 7 4 1 13 10 (c @ 4) (data_aligned @ 12) in
  let '(a, b) := perm_elt_lite a b 9 8 5 2 14 11 (c @ 3) (data_aligned @ 13) in
  let '(a, b) := perm_elt_lite a b 10 9 6 3 15 12 (c @ 2) (data_aligned @ 14) in
  let '(a, b) := perm_elt_lite a b 11 10 7 4 0 13 (c @ 1) (data_aligned @ 15) in
  let '(a, b) := perm_elt_lite a b 0 11 8 5 1 14 (c @ 0) (term @ 0) in
  let '(a, b) := perm_elt_lite a b 1 0 9 6 2 15 (c @ 15) (term @ 1) in
  let '(a, b) := perm_elt_lite a b 2 1 10 7 3 0 (c @ 14) (term @ 2) in
  let '(a, b) := perm_elt_lite a b 3 2 11 8 4 1 (c @ 13) (term @ 3) in
  let '(a, b) := perm_elt_lite a b 4 3 12 9 5 2 (c @ 12) (term @ 4) in
  let '(a, b) := perm_elt_lite a b 5 4 13 10 6 3 (c @ 11) (term @ 5) in
  let '(a, b) := perm_elt_lite a b 6 5 14 11 7 4 (c @ 10) (term @ 6) in
  let '(a, b) := perm_elt_lite a b 7 6 15 12 8 5 (c @ 9) (term @ 7) in
  let '(a, b) := perm_elt_lite a b 8 7 0 13 9 6 (c @ 8) (data_aligned @ 8) in
  let '(a, b) := perm_elt_lite a b 9 8 1 14 10 7 (c @ 7) (data_aligned @ 9) in
  let '(a, b) := perm_elt_lite a b 10 9 2 15 11 8 (c @ 6) (data_aligned @ 10) in
  let '(a, b) := perm_elt_lite a b 11 10 3 0 12 9 (c @ 5) (data_aligned @ 11) in
  let '(a, b) := perm_elt_lite a b 0 11 4 1 13 10 (c @ 4) (data_aligned @ 12) in
  let '(a, b) := perm_elt_lite a b 1 0 5 2 14 11 (c @ 3) (data_aligned @ 13) in
  let '(a, b) := perm_elt_lite a b 2 1 6 3 15 12 (c @ 2) (data_aligned @ 14) in
  let '(a, b) := perm_elt_lite a b 3 2 7 4 0 13 (c @ 1) (data_aligned @ 15) in
  let '(a, b) := perm_elt_lite a b 4 3 8 5 1 14 (c @ 0) (term @ 0) in
  let '(a, b) := perm_elt_lite a b 5 4 9 6 2 15 (c @ 15) (term @ 1) in
  let '(a, b) := perm_elt_lite a b 6 5 10 7 3 0 (c @ 14) (term @ 2) in
  let '(a, b) := perm_elt_lite a b 7 6 11 8 4 1 (c @ 13) (term @ 3) in
  let '(a, b) := perm_elt_lite a b 8 7 12 9 5 2 (c @ 12) (term @ 4) in
  let '(a, b) := perm_elt_lite a b 9 8 13 10 6 3 (c @ 11) (term @ 5) in
  let '(a, b) := perm_elt_lite a b 10 9 14 11 7 4 (c @ 10) (term @ 6) in
  let '(a, b) := perm_elt_lite a b 11 10 15 12 8 5 (c @ 9) (term @ 7) in
  (a, b).

(** The remaining steps of the routine are written inline in the source with
    the very text of [xor_w], of the rotation loop and the twelve closing
    additions of [apply_p], and of [swap_bc]; the model uses [Shabal.xor_w],
    [Shabal.rotl17], [Shabal.add_c] and [Shabal.swap_bc] for them. *)

(** The body of [for (int loop = 0; loop < 3; ++loop)]. *)
Definition closing_round (a b c data_aligned term : list Z) (w_low w_high : Z)
  : list Z * list Z * list Z :=
  let '(b, c) := Shabal.swap_bc b c in
  let a := Shabal.xor_w a w_low w_high in
  let b := Shabal.rotl17 b in
  let '(a, b) := perm_block2 a b c data_aligned term in
  let a := Shabal.add_c a c in
  (a, b, c).

Definition Shabal256Lite (data gensig : list Z) : Z :=
  let a := A_INIT_LITE in
  let b := B_INIT_LITE in
  let c := C_INIT_LITE in
  let w_high := 0 in
  let w_low := 1 in
  let data_aligned := words_of_bytes (take 64 data) in
  let gensig_u32 := words_of_bytes (take 32 gensig) in
  let term := <[0%nat := 0x80]> (replicate 8 0) in
  let b :=
    fold_left
      (fun b i =>
         let b := <[i := u32 (b !!! i + gensig_u32 !!! i)]> b in
         <[(i + 8)%nat := u32 (b !!! (i + 8)%nat + data_aligned !!! i)]> b)
      (seq 0 8) b in
  let a := Shabal.xor_w a w_low w_high in
  let b := Shabal.rotl17 b in
  let '(a, b) := perm_block1 a b c gensig_u32 data_aligned in
  let a := Shabal.add_c a c in
  let c :=
    fold_left
      (fun c i =>
         let c := <[i := u32 (c !!! i - gensig_u32 !!! i)]> c in
         <[(i + 8)%nat := u32 (c !!! (i + 8)%nat - data_aligned !!! i)]> c)
      (seq 0 8) c in
  let '(b, c) := Shabal.swap_bc b c in
  let w_low := u32 (w_low + 1) in
  let w_high := if w_low =? 0 then u32 (w_high + 1) else w_high in
  let b :=
    fold_left
      (fun b i =>
         let b := <[i := u32 (b !!! i + data_aligned !!! (i + 8)%nat)]> b in
         <[(i + 8)%nat := u32 (b !!! (i + 8)%nat + term !!! i)]> b)
      (seq 0 8) b in
  let a := Shabal.xor_w a w_low w_high in
  let b := Shabal.rotl17 b in
  let '(a, b) := perm_block2 a b c data_aligned term in
  let a := Shabal.add_c a c in
  let '(a, b, c) :=
    fold_left
      (fun '(a, b, c) _ => closing_round a b c data_aligned term w_low w_high)
      (seq 0 3) (a, b, c) in
  (* b_u64[4] on a little-endian host *)
  Z.lor (b @ 8) (Z.shiftl (b @ 9) 32).

End ShabalLite.

(** ** Byte helpers ([pocx/algorithms/encoding.cpp]) *)

Module Encoding.

(** [BytesToU32LE(bytes, byte_count, output)]: the first [byte_count / 4]
    words of [output] are overwritten. *)
Definition BytesToU32LE (bytes : list Z) (byte_count : nat) (output : list Z) : list Z :=
  fold_left
    (fun output i =>
       <[i := Z.lor
                (Z.lor
                   (Z.lor (bytes !!! (i * 4)%nat)
                          (u32 (Z.shiftl (bytes !!! (i * 4 + 1)%nat) 8)))
                   (u32 (Z.shiftl (bytes !!! (i * 4 + 2)%nat) 16)))
                (u32 (Z.shiftl (bytes !!! (i * 4 + 3)%nat) 24))]> output)
    (seq 0 (Nat.div byte_count 4)) output.

(** [U64ToU32BE(value, output)]: the bytes of [value] are reversed, then the
    high and the low half are stored. *)
Definition U64ToU32BE (value : Z) (output : list Z) : list Z :=
  let be_value :=
    Z.lor (Z.lor (Z.lor (Z.lor (Z.lor (Z.lor (Z.lor
      (Z.shiftr (Z.land value 0xFF00000000000000) 56)
      (Z.shiftr (Z.land value 0x00FF000000000000) 40))
      (Z.shiftr (Z.land value 0x0000FF0000000000) 24))
      (Z.shiftr (Z.land value 0x000000FF00000000) 8))
      (u64 (Z.shiftl (Z.land value 0x00000000FF000000) 8)))
      (u64 (Z.shiftl (Z.land value 0x0000000000FF0000) 24)))
      (u64 (Z.shiftl (Z.land value 0x000000000000FF00) 40)))
      (u64 (Z.shiftl (Z.land value 0x00000000000000FF) 56)) in
  let output := <[0%nat := u32 (Z.land (Z.shiftr be_value 32) 0xFFFFFFFF)]> output in
  <[1%nat := u32 (Z.land be_value 0xFFFFFFFF)]> output.

End Encoding.

(** ** Plot generation ([pocx/algorithms/plot_generation.cpp]) *)

Module PlotGeneration.

Definition MESSAGE_SIZE : Z := 16.
Definition HASH_SIZE : Z := 32.
Definition HASH_CAP : Z := 4096.
Definition NUM_SCOOPS : Z := 4096.
Definition SCOOP_SIZE : Z := 64.
Definition NONCE_SIZE : Z := NUM_SCOOPS * SCOOP_SIZE.

(** [memcpy(dst + d, src + s, ...)] of [n] elements, one by one.  Inside the
    two lists this is the copy of the source.  A write past the end of [dst]
    leaves the list as it is and a read past the end of [src] gives 0, where
    the source would leave its buffers: the theorems on the callers name the
    cells that are written and their content, all of them inside. *)
Definition memcpy (dst : list Z) (d : Z) (src : list Z) (s : Z) (n : nat) : list Z :=
  fold_left
    (fun dst e => <[(Z.to_nat d + e)%nat := src !!! (Z.to_nat s + e)%nat]> dst)
    (seq 0 n) dst.

(** The values [0, 1, ..., n - 1] of a [size_t] loop counter. *)
Definition counting (n : Z) : list Z := map Z.of_nat (seq 0 (Z.to_nat n)).

(** Where the four bytes at [(i, j, k)] go.  The sum is formed in [size_t];
    wrapping once at the end gives the same value as wrapping at each step. *)
Definition data_offset (i j k target_nonce_count target_offset : Z) : Z :=
  u64 ((Z.land i 1 * (4095 - Z.shiftr i 1) + Z.land (i + 1) 1 * Z.shiftr i 1)
       * SCOOP_SIZE * target_nonce_count
       + (k + target_offset) * SCOOP_SIZE
       + Z.land i 1 * 32
       + j).

Definition buffer_offset (i j k vector_size : Z) : Z :=
  u64 ((i * 32 + j) * vector_size + k * 4).

(** A pointer is [None] when null.  The result is the return code and the
    target buffer after the call. *)
Definition unpack_shuffle_scatter (source : option (list Z)) (source_size : Z)
  (target : option (list Z)) (target_size target_offset vector_size : Z)
  : Z * option (list Z) :=
  match source, target with
  | Some source, Some target =>
      if vector_size =? 0 then (-1, Some target)
      else
        let target_nonce_count := target_size / NONCE_SIZE in
        if target_offset >=? target_nonce_count then (-1, Some target)
        else
          let target :=
            fold_left
              (fun target i =>
                 fold_left
                   (fun target j =>
                      fold_left
                        (fun target k =>
                           memcpy target
                                  (data_offset i j k target_nonce_count target_offset)
                                  source (buffer_offset i j k vector_size) 4)
                        (counting vector_size) target)
                   [0; 4; 8; 12; 16; 20; 24; 28] target)
              (counting (NUM_SCOOPS * 2)) target in
          (0, Some target)
  | _, _ => (-1, target)
  end.

(** The body of the loop over [n] up to the scatter: the 8192 hashes of one
    nonce, computed from the end of [buffer] backwards, and the closing xor.
    The result is [buffer] and [pt2] as the iteration leaves them. *)
Definition hash_nonce (t1 t2 pt2 t3 buffer : list Z) : list Z * list Z :=
  let hash := Shabal.Shabal256 [] None t1 in
  let buffer := memcpy buffer (NONCE_SIZE - HASH_SIZE) hash 0 32 in
  let pt2 := memcpy pt2 0 (words_of_bytes hash) 0 8 in
  (* for (i = NONCE_SIZE - HASH_SIZE; i >= NONCE_SIZE - HASH_CAP + HASH_SIZE;
          i -= HASH_SIZE) *)
  let buffer :=
    fold_left
      (fun buffer i =>
         let data_start := i in
         let data_len := NONCE_SIZE - data_start in
         let data := take (Z.to_nat data_len) (drop (Z.to_nat data_start) buffer) in
         let hash :=
           if Z.rem i 64 =? 0 then Shabal.Shabal256 data None t1
           else Shabal.Shabal256 data (Some pt2) t2 in
         memcpy buffer (i - HASH_SIZE) hash 0 32)
      (map (fun m => NONCE_SIZE - HASH_SIZE - HASH_SIZE * Z.of_nat m) (seq 0 (Z.to_nat 127)))
      buffer in
  (* for (i = NONCE_SIZE - HASH_CAP; i >= HASH_SIZE; i -= HASH_SIZE) *)
  let buffer :=
    fold_left
      (fun buffer i =>
         let data_start := i in
         let data := take (Z.to_nat HASH_CAP) (drop (Z.to_nat data_start) buffer) in
         let hash := Shabal.Shabal256 data None t3 in
         memcpy buffer (i - HASH_SIZE) hash 0 32)
      (map (fun m => NONCE_SIZE - HASH_CAP - HASH_SIZE * Z.of_nat m) (seq 0 (Z.to_nat 8064)))
      buffer in
  let final_buffer :=
    Shabal.Shabal256 (take (Z.to_nat NONCE_SIZE) buffer) None t1 in
  let buffer :=
    fold_left
      (fun buffer i =>
         <[i := Z.lxor (buffer !!! i)
                       (final_buffer !!! (Nat.modulo i (Z.to_nat HASH_SIZE)))]> buffer)
      (seq 0 (Z.to_nat NONCE_SIZE)) buffer in
  (buffer, pt2).

(** The buffers that live across the iterations of the loop over [n]. *)
Record work := mkWork {
  w_cache : list Z;
  w_t1 : list Z;
  w_t2 : list Z;
  w_pt2 : list Z;
  w_buffer : list Z }.

(** [for (uint64_t n = 0; n < num_nonces; n++)], [count] iterations being
    left; the result is the return code and the cache. *)
Fixpoint nonce_loop (count : nat) (n : Z) (cache_size cache_offset start_nonce : Z)
  (t3 : list Z) (w : work) : Z * list Z :=
  match count with
  | O => (0, w_cache w)
  | S count' =>
      let nonce := Encoding.U64ToU32BE (u64 (start_nonce + n)) [0; 0] in
      let t1 := <[13%nat := nonce @ 1]> (w_t1 w) in
      let t1 := <[14%nat := nonce @ 0]> t1 in
      let t2 := <[5%nat := nonce @ 1]> (w_t2 w) in
      let t2 := <[6%nat := nonce @ 0]> t2 in
      let '(buffer, pt2) := hash_nonce t1 t2 (w_pt2 w) t3 (w_buffer w) in
      match unpack_shuffle_scatter (Some buffer) NONCE_SIZE (Some (w_cache w))
              cache_size (u64 (cache_offset + n)) 1 with
      | (0, Some cache) =>
          nonce_loop count' (n + 1) cache_size cache_offset start_nonce t3
                     (mkWork cache t1 t2 pt2 buffer)
      | (_, _) => (-4, w_cache w)
      end
  end.

(** A pointer is [None] when null; the two allocations are taken to succeed,
    and what [malloc] returns is written before it is read.  The result is the
    return code and the cache after the call. *)
Definition GenerateNonces (cache : option (list Z)) (cache_size cache_offset : Z)
  (address_payload seed : option (list Z)) (start_nonce num_nonces : Z)
  : Z * option (list Z) :=
  match cache, address_payload, seed with
  | Some cache, Some address_payload, Some seed =>
      let required_size := u64 (u64 (cache_offset + num_nonces) * NONCE_SIZE) in
      if cache_size <? required_size then (-2, Some cache)
      else
        let payload_bytes := Encoding.BytesToU32LE address_payload 20 (replicate 5 0) in
        let seed_u32 := Encoding.BytesToU32LE seed 32 (replicate 8 0) in
        let buffer := replicate (Z.to_nat NONCE_SIZE) 0 in
        let t1 := replicate (Z.to_nat MESSAGE_SIZE) 0 in
        let t2 := replicate (Z.to_nat MESSAGE_SIZE) 0 in
        let pt2 := replicate (Z.to_nat MESSAGE_SIZE) 0 in
        let t3 := replicate (Z.to_nat MESSAGE_SIZE) 0 in
        let t1 := memcpy t1 0 seed_u32 0 8 in
        let t1 := memcpy t1 8 payload_bytes 0 5 in
        let t1 := <[15%nat := 0x80]> t1 in
        let t2 := memcpy t2 0 payload_bytes 0 5 in
        let t2 := <[7%nat := 0x80]> t2 in
        let pt2 := memcpy pt2 8 seed_u32 0 8 in
        let t3 := <[0%nat := 0x80]> t3 in
        let '(code, cache) :=
          nonce_loop (Z.to_nat num_nonces) 0 cache_size cache_offset start_nonce t3
                     (mkWork cache t1 t2 pt2 buffer) in
        (code, Some cache)
  | _, _, _ => (-1, cache)
  end.

(** [buffer] as the iteration of the loop over [n] whose [start_nonce + n] is
    [nonce] hands it to [unpack_shuffle_scatter], when the iteration starts
    from the state that precedes the loop: the terminator blocks as
    [GenerateNonces] sets them up, the nonce written into [t1] and [t2], then
    the 8192 hashes and the closing xor. *)
Definition nonce_hashes (address_payload seed : list Z) (nonce : Z) : list Z :=
  let payload_bytes := Encoding.BytesToU32LE address_payload 20 (replicate 5 0) in
  let seed_u32 := Encoding.BytesToU32LE seed 32 (replicate 8 0) in
  let buffer := replicate (Z.to_nat NONCE_SIZE) 0 in
  let t1 := replicate (Z.to_nat MESSAGE_SIZE) 0 in
  let t2 := replicate (Z.to_nat MESSAGE_SIZE) 0 in
  let pt2 := replicate (Z.to_nat MESSAGE_SIZE) 0 in
  let t3 := replicate (Z.to_nat MESSAGE_SIZE) 0 in
  let t1 := memcpy t1 0 seed_u32 0 8 in
  let t1 := memcpy t1 8 payload_bytes 0 5 in
  let t1 := <[15%nat := 0x80]> t1 in
  let t2 := memcpy t2 0 payload_bytes 0 5 in
  let t2 := <[7%nat := 0x80]> t2 in
  let pt2 := memcpy pt2 8 seed_u32 0 8 in
  let t3 := <[0%nat := 0x80]> t3 in
  let nonce := Encoding.U64ToU32BE nonce [0; 0] in
  let t1 := <[13%nat := nonce @ 1]> t1 in
  let t1 := <[14%nat := nonce @ 0]> t1 in
  let t2 := <[5%nat := nonce @ 1]> t2 in
  let t2 := <[6%nat := nonce @ 0]> t2 in
  fst (hash_nonce t1 t2 pt2 t3 buffer).

End PlotGeneration.

(** ** Scoop selection ([pocx/algorithms/quality.cpp]) *)

Module Quality.

Definition MESSAGE_SIZE : nat := 16.
Definition HASH_SIZE : nat := 32.
Definition NUM_SCOOPS : Z := 4096.

(** The 64-byte buffer [data] that [CalculateScoop] fills: [memcpy] of the
    signature, the height written high byte first by the [for] loop counting
    [i] from 7 down to 0, and the marker byte at offset 40. *)
Definition scoop_message (block_height : Z) (generation_signature : list Z) : list Z :=
  let data := replicate 64 0 in
  let data := take 32 generation_signature ++ drop 32 data in
  let data :=
    fold_left
      (fun data i =>
         <[(32 + (7 - i))%nat :=
             Z.land (Z.shiftr block_height (Z.of_nat i * 8)) 0xFF]> data)
      [7; 6; 5; 4; 3; 2; 1; 0]%nat data in
  <[40%nat := 0x80]> data.

(** The generation signature is never null for a caller that holds one, so the
    early [return 0] is not taken. *)
Definition CalculateScoop (block_height : Z) (generation_signature : list Z) : Z :=
  let data := scoop_message block_height generation_signature in
  let data_u32 := replicate MESSAGE_SIZE 0 in
  let data_u32 := Encoding.BytesToU32LE data 64 data_u32 in
  let hash := Shabal.Shabal256 [] None data_u32 in
  Z.lor (Z.shiftl (Z.land (hash @ 30) 0x0F) 8) (hash @ 31).

(** The reading of the specification text for the scoop hash: the 64-byte
    message is the hashed data and a separate block [{0x80, 0, ..., 0}] is the
    terminator.  Kept apart from [CalculateScoop] to compare the two. *)
Definition spec_CalculateScoop (block_height : Z) (generation_signature : list Z) : Z :=
  let message :=
    take 32 generation_signature
    ++ map (fun i => Z.land (Z.shiftr block_height (Z.of_nat i * 8)) 0xFF)
           [7; 6; 5; 4; 3; 2; 1; 0]%nat
    ++ [0x80] ++ replicate 23 0 in
  let hash := Shabal.Shabal256 message None (0x80 :: replicate 15 0) in
  Z.lor (Z.shiftl (Z.land (hash @ 30) 0x0F) 8) (hash @ 31).

(** [for (uint64_t i = 0; i < num_uncompressed_nonces; i++)], [count]
    iterations being left; the result is the return code and [result]. *)
Fixpoint scoop_loop (count : nat) (i : Z) (address_payload seed : list Z)
  (scoop warp nonce_in_warp num_uncompressed_nonces : Z)
  (nonce_buffer result : list Z) : Z * list Z :=
  match count with
  | O => (0, result)
  | S count' =>
      let '(scoop_x, nonce_in_warp_x) :=
        if i mod 2 =? 0 then (scoop, nonce_in_warp) else (nonce_in_warp, scoop) in
      let warp_x := u64 (num_uncompressed_nonces * warp + i) in
      let nonce_x := u64 (warp_x * NUM_SCOOPS + nonce_in_warp_x) in
      match PlotGeneration.GenerateNonces (Some nonce_buffer)
              PlotGeneration.NONCE_SIZE 0 (Some address_payload) (Some seed)
              nonce_x 1 with
      | (0, Some nonce_buffer) =>
          let scoop_start := scoop_x * PlotGeneration.SCOOP_SIZE in
          let result :=
            fold_left
              (fun result j =>
                 <[j := Z.lxor (result !!! j)
                               (nonce_buffer !!! (Z.to_nat scoop_start + j)%nat)]>
                   result)
              (seq 0 (Z.to_nat PlotGeneration.SCOOP_SIZE)) result in
          scoop_loop count' (i + 1) address_payload seed scoop warp nonce_in_warp
                     num_uncompressed_nonces nonce_buffer result
      | (_, _) => (-3, result)
      end
  end.

(** A pointer is [None] when null and the allocation is taken to succeed.  The
    outcome is [None] where the shift [1 << compression] is undefined, and
    otherwise the return code and the scoop written to [result]. *)
Definition generate_scoop (address_payload seed : option (list Z))
  (scoop nonce compression : Z) (result : option (list Z))
  : option (Z * option (list Z)) :=
  match address_payload, seed, result with
  | Some address_payload, Some seed, Some result =>
      if scoop >=? NUM_SCOOPS then Some (-1, Some result)
      else
        let warp := nonce / NUM_SCOOPS in
        let nonce_in_warp := nonce mod NUM_SCOOPS in
        if compression >=? 64 then None
        else
          let num_uncompressed_nonces := u64 (Z.shiftl 1 compression) in
          let result :=
            fold_left (fun result j => <[j := 0]> result)
                      (seq 0 (Z.to_nat PlotGeneration.SCOOP_SIZE)) result in
          let nonce_buffer := replicate (Z.to_nat PlotGeneration.NONCE_SIZE) 0 in
          let '(code, result) :=
            scoop_loop (Z.to_nat num_uncompressed_nonces) 0 address_payload seed
                       scoop warp nonce_in_warp num_uncompressed_nonces
                       nonce_buffer result in
          Some (code, Some result)
  | _, _, _ => Some (-1, result)
  end.

(** The outcome is the return code and the value behind [quality] after the
    call.  The local array [scoop_data] is cleared by [generate_scoop] before
    it is read. *)
Definition CalculateQuality (address_payload seed : option (list Z))
  (nonce compression height : Z) (generation_sig : option (list Z))
  (quality : option Z) : option (Z * option Z) :=
  match address_payload, seed, generation_sig, quality with
  | Some _, Some _, Some generation_sig, Some _ =>
      let scoop := CalculateScoop height generation_sig in
      let scoop_data := replicate (Z.to_nat PlotGeneration.SCOOP_SIZE) 0 in
      match generate_scoop address_payload seed scoop nonce compression
                           (Some scoop_data) with
      | None => None
      | Some (code, scoop_data') =>
          if negb (code =? 0) then Some (-3, quality)
          else
            match scoop_data' with
            | Some scoop_data =>
                Some (0, Some (ShabalLite.Shabal256Lite scoop_data generation_sig))
            | None => None
            end
      end
  | _, _, _, _ => Some (-1, quality)
  end.

End Quality.

(** ** Results of calls that may fail or loop *)

Inductive outcome (A : Type) : Type :=
| Ret (a : A)      (* the call returns [a] *)
| Throw            (* the call raises [uint_error] *)
| OutOfFuel.       (* the loop budget of the model is used up *)
Arguments Ret {A} a.
Arguments Throw {A}.
Arguments OutOfFuel {A}.

Definition bind {A B : Type} (c : outcome A) (k : A -> outcome B) : outcome B :=
  match c with
  | Ret a => k a
  | Throw => Throw
  | OutOfFuel => OutOfFuel
  end.

Notation "x <- c ;; k" := (bind c (fun x => k))
  (at level 62, c at next level, right associativity).

(** ** 256-bit unsigned integers *)

Module ArithUint256.

(** Modelled from the spec: [arith_uint256] comes from [arith_uint256.h] of the
    host chain, which is not among the sources.  Section 4.4 gives it as a
    256-bit unsigned integer with add, sub, mul, shl, shr, compare and low-64
    extract, and section 7 fixes every operation modulo 2^256.  Division by
    zero raises [uint_error] in the host chain's class. *)
Definition modulus : Z := 2 ^ 256.
Definition add (x y : Z) : Z := (x + y) mod modulus.
Definition sub (x y : Z) : Z := (x - y) mod modulus.
Definition mul (x y : Z) : Z := (x * y) mod modulus.
Definition shl (x : Z) (n : Z) : Z := Z.shiftl x n mod modulus.
Definition shr (x : Z) (n : Z) : Z := Z.shiftr x n.
Definition div (x y : Z) : outcome Z := if y =? 0 then Throw else Ret (x / y).
Definition GetLow64 (x : Z) : Z := x mod 2 ^ 64.

End ArithUint256.

(** ** Time bending ([pocx/algorithms/time_bending.cpp]) *)

Module TimeBending.
Import ArithUint256.

(** [while ((hi * hi * hi) < x) hi <<= 1;] *)
Fixpoint grow_hi (fuel : nat) (x hi : Z) : outcome Z :=
  match fuel with
  | O => OutOfFuel
  | S fuel' =>
      if mul (mul hi hi) hi <? x then grow_hi fuel' x (shl hi 1) else Ret hi
  end.

(** [while (lo < hi) { mid = (lo + hi + 1) >> 1; ... }] *)
Fixpoint bisect (fuel : nat) (x lo hi : Z) : outcome Z :=
  match fuel with
  | O => OutOfFuel
  | S fuel' =>
      if lo <? hi then
        let mid := shr (add (add lo hi) 1) 1 in
        let mid3 := mul (mul mid mid) mid in
        if mid3 <=? x then bisect fuel' x mid hi
        else bisect fuel' x lo (sub mid 1)
      else Ret lo
  end.

Definition int_cuberoot_u256 (fuel : nat) (x : Z) : outcome Z :=
  hi <- grow_hi fuel x 1 ;;
  let lo := shr hi 1 in
  bisect fuel x lo hi.

Definition GAMMA_FP : Z := 3927365422841.

Definition calculate_qscale_uint (fuel : nat) (block_time : Z) : outcome Z :=
  let Q := 42 in
  let t := block_time in
  let block_scaled := shl t (3 * Q) in
  t_cbrt <- int_cuberoot_u256 fuel block_scaled ;;
  let numerator := shl t (2 * Q) in
  let denominator := shr (mul t_cbrt GAMMA_FP) Q in
  div (add numerator (shr denominator 1)) denominator.

Definition CalculateTimeBendedDeadline (fuel : nat) (quality base_target block_time : Z)
  : outcome Z :=
  let P := 21 in
  let Q := 42 in
  if quality =? 0 then Ret 0
  else
    SCALE_Q <- calculate_qscale_uint fuel block_time ;;
    let SHIFT_3P := shl 1 (3 * P) in
    V <- div (mul quality SHIFT_3P) base_target ;;
    r <- int_cuberoot_u256 fuel V ;;
    let numer := mul SCALE_Q r in
    let denom := shl 1 (P + Q) in
    rounded <- div (add numer (shr denom 1)) denom ;;
    Ret (GetLow64 rounded).

(** *** The pipeline as the specification words it, in exact arithmetic *)

(** The largest [r] with [r^3 <= x], one binary digit per level. *)
Fixpoint cube_root_digits (n : nat) (x : Z) : Z :=
  match n with
  | O => 0
  | S n' =>
      let r := 2 * cube_root_digits n' (x / 8) in
      if (r + 1) ^ 3 <=? x then r + 1 else r
  end.

Definition cube_root (x : Z) : Z := cube_root_digits (S (Z.to_nat (Z.log2 x))) x.

(** The integer nearest to [n / d], halves going up. *)
Definition round_half_up (n d : Z) : Z := (2 * n + d) / (2 * d).

Definition spec_SCALE_Q (T : Z) : Z :=
  let Q := 42 in
  round_half_up (Z.shiftl T (2 * Q))
                (Z.shiftr (cube_root (Z.shiftl T (3 * Q)) * 3927365422841) Q).

Definition spec_time_bent (q base_target T : Z) : Z :=
  let P := 21 in
  let Q := 42 in
  let V := Z.shiftl q (3 * P) / base_target in
  let r := cube_root V in
  round_half_up (spec_SCALE_Q T * r) (2 ^ (P + Q)) mod 2 ^ 64.

End TimeBending.

(** ** Difficulty schedule ([pocx/consensus/params.cpp], [pocx/consensus/difficulty.cpp]) *)

Module Difficulty.

(** Signed arithmetic that leaves its type is undefined and gives no result. *)
Definition i32 (z : Z) : option Z :=
  if (- 2 ^ 31 <=? z) && (z <? 2 ^ 31) then Some z else None.
Definition i64 (z : Z) : option Z :=
  if (- 2 ^ 63 <=? z) && (z <? 2 ^ 63) then Some z else None.
(** Unsigned 64-bit division; a zero divisor gives no result. *)
Definition udiv64 (x y : Z) : option Z := if y =? 0 then None else Some (x / y).

Notation "x <-? c ;; k" := (match c with Some x => k | None => None end)
  (at level 62, c at next level, right associativity).

Record Params := mkParams {
  nPowTargetSpacing : Z;                 (* int64_t *)
  fPoCXLowCapacityCalibration : bool;
  nPoCXRollingWindowSize : Z }.          (* int *)

(** The fields of [CBlockIndex] read by the schedule.  A pointer to a block
    index is the list that starts at that block and follows [pprev]; the empty
    list is [nullptr]. *)
Record CBlockIndex := mkIndex {
  nHeight : Z;                           (* int *)
  nTime : Z;                             (* uint32_t *)
  nBaseTarget : Z }.                     (* uint64_t *)

Definition GetBlockTime (blk : CBlockIndex) : Z := nTime blk.

(** Modelled from the spec: [CBlockIndex::GetAncestor] lives in [chain.h] of the
    host chain, which is not among the sources; section 4.6 uses it as "the
    ancestor at height".  No ancestor exists above the block or below zero. *)
Fixpoint walk_to (pindex : list CBlockIndex) (height : Z) : list CBlockIndex :=
  match pindex with
  | [] => []
  | blk :: pprev => if nHeight blk =? height then pindex else walk_to pprev height
  end.

Definition GetAncestor (pindex : list CBlockIndex) (height : Z) : list CBlockIndex :=
  match pindex with
  | [] => []
  | blk :: _ =>
      if (height >? nHeight blk) || (height <? 0) then [] else walk_to pindex height
  end.

Definition POWER_42 : Z := 4398046511104.
Definition POWER_60 : Z := 1152921504606846976.

Definition CalculateGenesisBaseTarget
  (target_spacing_seconds : Z) (low_capacity_calibration : bool) : option Z :=
  let base_power := if low_capacity_calibration then POWER_60 else POWER_42 in
  genesis_base_target <-? udiv64 base_power (u64 target_spacing_seconds) ;;
  let genesis_base_target :=
    if genesis_base_target =? 0 then 1 else genesis_base_target in
  Some genesis_base_target.

(** [for (int i = 0; i < lookback && walker; i++)] *)
Fixpoint sum_window (lookback : nat) (walker : list CBlockIndex) (total : Z) : Z :=
  match lookback, walker with
  | S n, blk :: pprev => sum_window n pprev (u64 (total + nBaseTarget blk))
  | _, _ => total
  end.

Definition GetNextBaseTarget (pindexLast : list CBlockIndex) (params : Params)
  : option Z :=
  match pindexLast with
  | [] => None                           (* assert(pindexLast != nullptr) *)
  | last :: _ =>
      genesis_base_target <-?
        CalculateGenesisBaseTarget (nPowTargetSpacing params)
                                   (fPoCXLowCapacityCalibration params) ;;
      if nHeight last =? 0 then Some genesis_base_target
      else
        let prev_base_target := nBaseTarget last in
        let lookback := Z.min (nPoCXRollingWindowSize params) (nHeight last) in
        d <-? i32 (nHeight last - lookback) ;;
        h <-? i32 (d + 1) ;;
        match GetAncestor pindexLast h with
        | [] => None                     (* assert(pindexFirst) *)
        | first :: _ =>
            let actual_timespan := GetBlockTime last - GetBlockTime first in
            target_timespan <-? i64 (lookback * nPowTargetSpacing params) ;;
            let min_timespan := Z.quot target_timespan 2 in
            let min_timespan := if min_timespan =? 0 then 1 else min_timespan in
            let actual_timespan :=
              if actual_timespan <? min_timespan then min_timespan
              else actual_timespan in
            twice <-? i64 (target_timespan * 2) ;;
            let actual_timespan :=
              if actual_timespan >? twice then twice else actual_timespan in
            let total_base_target := sum_window (Z.to_nat lookback) pindexLast 0 in
            avg_base_target <-? udiv64 total_base_target (u64 lookback) ;;
            new_base_target <-?
              udiv64 (u64 (avg_base_target * u64 actual_timespan))
                     (u64 target_timespan) ;;
            let max_increase := u64 (prev_base_target + prev_base_target / 5) in
            let max_decrease := u64 (prev_base_target - prev_base_target / 5) in
            let new_base_target :=
              if new_base_target >? max_increase then max_increase
              else new_base_target in
            let new_base_target :=
              if new_base_target <? max_decrease then max_decrease
              else new_base_target in
            let new_base_target :=
              if new_base_target >? genesis_base_target then genesis_base_target
              else new_base_target in
            let new_base_target :=
              if new_base_target =? 0 then 1 else new_base_target in
            Some new_base_target
        end
  end.

(** The genesis base target as the specification words it. *)
Definition GENESIS (target_spacing : Z) (low_capacity : bool) : Z :=
  Z.max 1 ((if low_capacity then 2 ^ 60 else 2 ^ 42) / target_spacing).

(** A chain whose heights count down by one to the genesis block at height 0. *)
Fixpoint chain_ok (pindex : list CBlockIndex) : bool :=
  match pindex with
  | [] => false
  | blk :: pprev =>
      match pprev with
      | [] => nHeight blk =? 0
      | prev :: _ => (nHeight blk =? nHeight prev + 1) && chain_ok pprev
      end
  end.

(** [PoCXCompressionBounds] of [pocx/consensus/params.h]. *)
Record PoCXCompressionBounds := mkBounds {
  nPoCXMinCompression : Z;               (* uint32_t *)
  nPoCXTargetCompression : Z }.          (* uint32_t *)

(** The thresholds are the constant quotients [4 / 4], [12 / 4], ... times the
    halving interval, computed in [int64_t]; the two levels are [uint8_t]. *)
Definition GetPoCXCompressionBounds (nHeight nSubsidyHalvingInterval : Z)
  : option PoCXCompressionBounds :=
  let min_compression := 1 in
  year4 <-? i64 (Z.quot 4 4 * nSubsidyHalvingInterval) ;;
  let min_compression := if nHeight >=? year4 then 2 else min_compression in
  year12 <-? i64 (Z.quot 12 4 * nSubsidyHalvingInterval) ;;
  let min_compression := if nHeight >=? year12 then 3 else min_compression in
  year28 <-? i64 (Z.quot 28 4 * nSubsidyHalvingInterval) ;;
  let min_compression := if nHeight >=? year28 then 4 else min_compression in
  year60 <-? i64 (Z.quot 60 4 * nSubsidyHalvingInterval) ;;
  let min_compression := if nHeight >=? year60 then 5 else min_compression in
  year124 <-? i64 (Z.quot 124 4 * nSubsidyHalvingInterval) ;;
  let min_compression := if nHeight >=? year124 then 6 else min_compression in
  let target_compression := u8 (min_compression + 1) in
  Some (mkBounds min_compression target_compression).

End Difficulty.

(** ** Forging assignments ([pocx/assignments/assignment_state.cpp]) *)

Module AssignmentState.

Inductive ForgingState : Type :=
| UNASSIGNED | ASSIGNING | ASSIGNED | REVOKING | REVOKED.

Record ForgingAssignment := mkAssignment {
  plotAddress : list Z;
  forgingAddress : list Z;
  assignment_txid : list Z;
  assignment_height : Z;
  assignment_effective_height : Z;
  revoked : bool;
  revocation_txid : list Z;
  revocation_height : Z;
  revocation_effective_height : Z }.

(** Modelled from the spec: [ForgingAssignment::GetStateAtHeight] is declared in
    [coins.h], which is not among the sources.  The table of section 4.8 gives
    the derived state of a stored record at height [h]. *)
Definition GetStateAtHeight (a : ForgingAssignment) (height : Z) : ForgingState :=
  if revoked a then
    if height <? revocation_effective_height a then REVOKING else REVOKED
  else
    if height <? assignment_effective_height a then ASSIGNING else ASSIGNED.

(** Modelled from the spec: [ForgingAssignment::IsActiveAtHeight] is declared in
    [coins.h], which is not among the sources.  Section 4.9 lets the assignee
    sign while the derived state is ASSIGNING, ASSIGNED or REVOKING. *)
Definition IsActiveAtHeight (a : ForgingAssignment) (height : Z) : bool :=
  match GetStateAtHeight a height with
  | ASSIGNING | ASSIGNED | REVOKING => true
  | UNASSIGNED | REVOKED => false
  end.

Section CoinView.

(** The coin view and its lookup [CCoinsViewCache::GetForgingAssignment] belong
    to the host chain; the resolver only calls the lookup. *)
Variable CCoinsViewCache : Type.
Variable GetForgingAssignment :
  CCoinsViewCache -> list Z -> Z -> option ForgingAssignment.

Definition GetEffectiveSigner (plotAddress : list Z) (nHeight : Z)
  (view : CCoinsViewCache) : list Z :=
  let assignment := GetForgingAssignment view plotAddress nHeight in
  match assignment with
  | Some a => if IsActiveAtHeight a nHeight then forgingAddress a else plotAddress
  | None => plotAddress
  end.

Definition GetAssignmentState (plotAddress : list Z) (height : Z)
  (view : CCoinsViewCache) : ForgingState :=
  let assignment := GetForgingAssignment view plotAddress height in
  match assignment with
  | None => UNASSIGNED
  | Some a => GetStateAtHeight a height
  end.

End CoinView.

End AssignmentState.

(** ** OP_RETURN markers ([pocx/assignments/opcodes.cpp]) *)

Module Opcodes.

(** A script is its byte string. *)
Definition CScript := list Z.

Record CTxOut := mkTxOut { nValue : Z; scriptPubKey : CScript }.

Definition OP_PUSHDATA1 : Z := 0x4c.
Definition OP_PUSHDATA2 : Z := 0x4d.
Definition OP_PUSHDATA4 : Z := 0x4e.
Definition OP_RETURN : Z := 0x6a.

(** Modelled from the spec: [CScript] comes from [script/script.h] of the host
    chain, which is not among the sources.  Section 4.8 gives the payloads as
    [OP_RETURN push(n) { ... }]: appending an opcode appends its byte, and
    appending a byte vector appends the shortest push prefix for its length
    and then the bytes. *)
Definition push_opcode (script : CScript) (opcode : Z) : CScript := script ++ [opcode].

Definition le_bytes (n : nat) (z : Z) : list Z :=
  map (fun i => Z.land (Z.shiftr z (8 * Z.of_nat i)) 0xFF) (seq 0 n).

Definition push_data (script : CScript) (b : list Z) : CScript :=
  let size := Z.of_nat (length b) in
  let prefix :=
    if size <? OP_PUSHDATA1 then [size]
    else if size <=? 0xff then [OP_PUSHDATA1; size]
    else if size <=? 0xffff then OP_PUSHDATA2 :: le_bytes 2 size
    else OP_PUSHDATA4 :: le_bytes 4 size in
  script ++ prefix ++ b.

Definition le_value (bs : list Z) : Z :=
  fold_right (fun b acc => b + 256 * acc) 0 bs.

(** Modelled from the spec: [CScript::GetOp] of the host chain reads one
    opcode at [pc]; for a push it also reads the pushed bytes.  The result is
    the opcode, the data and the advanced [pc], or [None] when the script ends
    too early.  [pc] is the rest of the script. *)
Definition GetOp (pc : list Z) : option (Z * list Z * list Z) :=
  match pc with
  | [] => None
  | opcode :: pc =>
      if opcode <=? OP_PUSHDATA4 then
        let sized :=
          if opcode <? OP_PUSHDATA1 then Some (opcode, pc)
          else
            let n := if opcode =? OP_PUSHDATA1 then 1%nat
                     else if opcode =? OP_PUSHDATA2 then 2%nat else 4%nat in
            if (length pc <? n)%nat then None
            else Some (le_value (take n pc), drop n pc) in
        match sized with
        | None => None
        | Some (nSize, pc) =>
            if (nSize <? 0) || (Z.of_nat (length pc) <? nSize) then None
            else Some (opcode, take (Z.to_nat nSize) pc, drop (Z.to_nat nSize) pc)
        end
      else Some (opcode, [], pc)
  end.

Definition ASSIGNMENT_MARKER : list Z := [0x50; 0x4F; 0x43; 0x58].
Definition REVOCATION_MARKER : list Z := [0x58; 0x43; 0x4F; 0x50].

Definition CreateAssignmentOpReturn (plotAddress forgeAddress : list Z) : CScript :=
  let script := [] in
  let script := push_opcode script OP_RETURN in
  let data := [] in
  let data := data ++ ASSIGNMENT_MARKER in
  let data := data ++ plotAddress in
  let data := data ++ forgeAddress in
  push_data script data.

Definition CreateRevocationOpReturn (plotAddress : list Z) : CScript :=
  let script := [] in
  let script := push_opcode script OP_RETURN in
  let data := [] in
  let data := data ++ REVOCATION_MARKER in
  let data := data ++ plotAddress in
  push_data script data.

(** [std::equal(marker.begin(), marker.end(), data.begin())] *)
Definition marker_equal (marker data : list Z) : bool :=
  forallb (fun '(m, d) => m =? d) (zip marker data)
  && (length marker <=? length data)%nat.

Definition IsAssignmentOpReturn (output : CTxOut) : bool :=
  let script := scriptPubKey output in
  match script with
  | [] => false                                  (* script.empty() *)
  | first :: pc =>
      if negb (first =? OP_RETURN) then false
      else
        match GetOp pc with
        | None => false
        | Some (opcode, data, pc) =>
            if negb (length data =? 44)%nat then false
            else if negb (marker_equal ASSIGNMENT_MARKER data) then false
            else match pc with [] => true | _ :: _ => false end
        end
  end.

Definition IsRevocationOpReturn (output : CTxOut) : bool :=
  let script := scriptPubKey output in
  match script with
  | [] => false                                  (* script.empty() *)
  | first :: pc =>
      if negb (first =? OP_RETURN) then false
      else
        match GetOp pc with
        | None => false
        | Some (opcode, data, pc) =>
            if negb (length data =? 24)%nat then false
            else if negb (marker_equal REVOCATION_MARKER data) then false
            else match pc with [] => true | _ :: _ => false end
        end
  end.

Definition ParseAssignmentOpReturn (output : CTxOut) : option (list Z * list Z) :=
  if negb (IsAssignmentOpReturn output) then None
  else
    let script := scriptPubKey output in
    let pc := drop 1 script in
    match GetOp pc with
    | None => None
    | Some (opcode, data, pc) =>
        let plotAddress := take 20 (drop 4 data) in
        let forgeAddress := take 20 (drop 24 data) in
        Some (plotAddress, forgeAddress)
    end.

Definition ParseRevocationOpReturn (output : CTxOut) : option (list Z) :=
  if negb (IsRevocationOpReturn output) then None
  else
    let script := scriptPubKey output in
    let pc := drop 1 script in
    match GetOp pc with
    | None => None
    | Some (opcode, data, pc) =>
        let plotAddress := take 20 (drop 4 data) in
        Some plotAddress
    end.

(** *** Ownership of the plot *)

(** Of [CTxDestination] the ownership check tells a witness v0 key hash, which
    carries its 20 bytes, from every other alternative. *)
Inductive CTxDestination : Type :=
| WitnessV0KeyHash (hash : list Z)
| OtherDestination.

Section OwnershipView.

(** The coin view and the script classifier belong to the host chain:
    [view.GetCoin(prevout)] gives the coin being spent, of which only
    [out.scriptPubKey] is read, and [ExtractDestination] the destination of a
    standard script. *)
Variable COutPoint : Type.
Variable GetCoin : COutPoint -> option CScript.
Variable ExtractDestination : CScript -> option CTxDestination.

(** [for (const auto& input : tx.vin)]; [vin] holds the [prevout] of each
    input. *)
Fixpoint VerifyPlotOwnership (vin : list COutPoint) (plotAddress : list Z) : bool :=
  match vin with
  | [] => false
  | prevout :: vin =>
      match GetCoin prevout with
      | None => VerifyPlotOwnership vin plotAddress          (* continue *)
      | Some script =>
          match ExtractDestination script with
          | None => VerifyPlotOwnership vin plotAddress      (* continue *)
          | Some (WitnessV0KeyHash input_addr) =>
              if bool_decide (input_addr = plotAddress) then true
              else VerifyPlotOwnership vin plotAddress
          | Some OtherDestination => VerifyPlotOwnership vin plotAddress
          end
      end
  end.

End OwnershipView.

End Opcodes.

(** ** Stateless block validation ([pocx/consensus/proof.cpp]) *)

Module ProofValidation.

Record ValidationResult := mkResult {
  is_valid : bool;
  error_code : Z;                        (* int32_t *)
  quality : Z;                           (* uint64_t *)
  deadline : Z }.                        (* uint64_t *)

Definition UINT64_MAX : Z := 2 ^ 64 - 1.

Definition VALIDATION_SUCCESS : Z := 0.
Definition VALIDATION_ERROR_GENERATION_SIGNATURE_PARSE : Z := -100.
Definition VALIDATION_ERROR_GENERATION_SIGNATURE_DECODE : Z := -101.
Definition VALIDATION_ERROR_QUALITY_CALCULATION : Z := -106.

(** [x / y] on [uint64_t]; with a zero divisor the program has no defined
    behaviour and the model gives no result. *)
Definition udiv (x y : Z) : option Z := if y =? 0 then None else Some (x / y).

Section Collaborators.

(** The validator looks at the return code of the two routines it calls and
    at the values they write: the decoded signature and the quality. *)
Variable DecodeGenerationSignature : list Z -> Z * list Z.
Variable CalculateQuality : list Z -> list Z -> Z -> Z -> Z -> list Z -> Z * Z.

(** A pointer argument is [None] when null.  The outcome is the returned flag
    and the structure behind [result] after the call; [None] stands for
    undefined behaviour. *)
Definition pocx_validate_block
  (generation_signature_hex : option (list Z)) (base_target : Z)
  (account_payload : option (list Z)) (block_height nonce : Z)
  (seed : option (list Z)) (compression : Z) (result : option ValidationResult)
  : option (bool * option ValidationResult) :=
  match generation_signature_hex, account_payload, seed, result with
  | Some hex, Some account_payload, Some seed, Some _ =>
      let result := mkResult false (-1) 0 UINT64_MAX in
      let '(decode_result, generation_signature) := DecodeGenerationSignature hex in
      if negb (decode_result =? 0) then
        let result :=
          if decode_result =? -1
          then mkResult (is_valid result) VALIDATION_ERROR_GENERATION_SIGNATURE_PARSE
                        (quality result) (deadline result)
          else mkResult (is_valid result) VALIDATION_ERROR_GENERATION_SIGNATURE_DECODE
                        (quality result) (deadline result) in
        Some (false, Some result)
      else
        let address_payload_copy := take 20 account_payload in
        let seed_copy := take 32 seed in
        let '(quality_result, quality) :=
          CalculateQuality address_payload_copy seed_copy nonce compression
                           block_height generation_signature in
        if negb (quality_result =? 0) then
          Some (false,
                Some (mkResult (is_valid result) VALIDATION_ERROR_QUALITY_CALCULATION
                               (ProofValidation.quality result) (deadline result)))
        else
          match (if base_target >? 0 then udiv quality base_target
                 else Some UINT64_MAX) with
          | None => None
          | Some deadline =>
              Some (true, Some (mkResult true VALIDATION_SUCCESS quality deadline))
          end
  | _, _, _, _ => Some (false, result)
  end.

End Collaborators.

End ProofValidation.

(** ** Forging scheduler ([pocx/mining/scheduler.cpp], [pocx/mining/submission.cpp]) *)

Module Scheduler.

Definition MAX_QUEUE_SIZE : nat := 1000.

(** The two structures share member names in the source; the fields carry
    the prefixes [ns_] and [fs_] here. *)
Record NonceSubmission := mkSubmission {
  ns_account_id : list Z;
  ns_seed : list Z;
  ns_nonce : Z;
  ns_quality : Z;
  ns_compression : Z;
  ns_expected_height : Z;
  ns_generation_signature : Z;           (* uint256 *)
  ns_submit_time : Z }.

Record ForgingState := mkForging {
  fs_account_id : list Z;
  fs_seed : list Z;
  fs_nonce : Z;
  fs_quality : Z;
  fs_compression : Z;
  fs_deadline_seconds : Z;
  fs_base_target : Z;
  fs_block_time : Z;
  fs_generation_sig : Z;
  fs_height : Z;
  fs_tip_block_hash : Z;
  fs_forge_time : Z;
  fs_cancelled : bool }.

(** The members of [PoCXScheduler] that the queue and the candidate logic
    touch.  The queue is only used under [m_queue_mutex], so each call below is
    one atomic step. *)
Record PoCXScheduler := mkScheduler {
  m_submission_queue : list NonceSubmission;
  m_current_forging : option ForgingState;
  m_shutdown : bool }.

Definition initial : PoCXScheduler := mkScheduler [] None false.

(** [now] is the reading of the steady clock taken by the constructor of the
    submission. *)
Definition SubmitNonce (s : PoCXScheduler) (account_id seed : list Z)
  (nonce quality compression height generation_signature now : Z)
  : bool * PoCXScheduler :=
  let submission :=
    mkSubmission account_id seed nonce quality compression height
                 generation_signature now in
  if (MAX_QUEUE_SIZE <=? length (m_submission_queue s))%nat then (false, s)
  else
    (true, mkScheduler (m_submission_queue s ++ [submission])
                       (m_current_forging s) (m_shutdown s)).

(** [m_shutdown.exchange(true)], then the worker is woken and joined. *)
Definition Shutdown (s : PoCXScheduler) : PoCXScheduler :=
  if m_shutdown s then s
  else mkScheduler (m_submission_queue s) (m_current_forging s) true.

(** The dequeue at the head of one turn of [WorkerThreadFunc]. *)
Definition worker_take (s : PoCXScheduler) : option NonceSubmission * PoCXScheduler :=
  if m_shutdown s then (None, s)
  else
    match m_submission_queue s with
    | [] => (None, s)
    | submission :: rest =>
        (Some submission, mkScheduler rest (m_current_forging s) (m_shutdown s))
    end.

Definition ValidateContext (submission : NonceSubmission)
  (current_height current_gen_sig : Z) : bool :=
  if negb (ns_expected_height submission =? current_height) then false
  else if negb (ns_generation_signature submission =? current_gen_sig) then false
  else true.

Definition IsBetterThanCurrent (new_quality : Z) (current_best_quality : option Z)
  : bool :=
  match current_best_quality with
  | None => true
  | Some current => new_quality <? current
  end.

(** What the worker reads of the chain tip: its hash and time, the hash of
    its predecessor (an arriving tip has one) and the quality recorded in its
    proof. *)
Record TipIndex := mkTip {
  tip_hash : Z;
  tip_nTime : Z;
  tip_pprev_hash : Z;
  tip_quality : Z }.

Record NewBlockContext := mkContext {
  height : Z;
  generation_signature : Z;
  base_target : Z;
  block_hash : Z }.

(** What [ProcessSubmission] reads through the node context: the active tip,
    the context of the next block and the target spacing. *)
Record NodeView := mkNode {
  chain_tip : option TipIndex;
  new_block_context : NewBlockContext;
  nPowTargetSpacing : Z }.

(** A call of [ForgeBlock], the routine that builds, signs and submits a
    block for the candidate; its result is not looked at by the caller. *)
Inductive event : Type :=
| EvForgeBlock (candidate : ForgingState).

Definition CheckDefensiveForging (candidate : ForgingState) (new_tip : TipIndex)
  : list event :=
  if negb (tip_pprev_hash new_tip =? fs_tip_block_hash candidate) then []
  else
    let arriving_quality := tip_quality new_tip in
    if fs_quality candidate <? arriving_quality then [EvForgeBlock candidate]
    else [].

(** The result is the calls of [ForgeBlock] made and the scheduler left
    behind; [None] for the node stands for a missing context or chain
    manager.  A replaced candidate is flagged cancelled and the condition
    variable notified before the new one is stored; neither is kept here,
    the old candidate being dropped by the assignment. *)
Definition ProcessSubmission (fuel : nat) (node_context : option NodeView)
  (s : PoCXScheduler) (submission : NonceSubmission)
  : list event * outcome PoCXScheduler :=
  match node_context with
  | None => ([], Ret s)
  | Some node =>
      match chain_tip node with
      | None => ([], Ret s)
      | Some tip =>
          let current_tip_hash := tip_hash tip in
          let block_time := tip_nTime tip in
          let '(events, s) :=
            match m_current_forging s with
            | Some candidate =>
                if negb (fs_tip_block_hash candidate =? current_tip_hash) then
                  (CheckDefensiveForging candidate tip,
                   mkScheduler (m_submission_queue s) None (m_shutdown s))
                else ([], s)
            | None => ([], s)
            end in
          let current_context := new_block_context node in
          if negb (ValidateContext submission (height current_context)
                                   (generation_signature current_context))
          then (events, Ret s)
          else
            let current_quality := option_map fs_quality (m_current_forging s) in
            if negb (IsBetterThanCurrent (ns_quality submission) current_quality)
            then (events, Ret s)
            else
              (events,
               deadline_seconds <-
                 TimeBending.CalculateTimeBendedDeadline fuel
                   (ns_quality submission) (base_target current_context)
                   (u64 (nPowTargetSpacing node)) ;;
               Ret (mkScheduler (m_submission_queue s)
                      (Some (mkForging (ns_account_id submission)
                               (ns_seed submission) (ns_nonce submission)
                               (ns_quality submission)
                               (ns_compression submission) deadline_seconds
                               (base_target current_context) block_time
                               (generation_signature current_context)
                               (height current_context) current_tip_hash
                               (block_time + deadline_seconds) false))
                      (m_shutdown s)))
      end
  end.

(** Calls on a scheduler, in the order the mutex serialises them.  An
    exception leaving [ProcessSubmission] ends the worker; the scheduler then
    stays as it was. *)
Inductive call : Type :=
| CallSubmitNonce (account_id seed : list Z)
    (nonce quality compression height generation_signature now : Z)
| CallShutdown
| CallWorkerTake
| CallProcessSubmission (fuel : nat) (node_context : option NodeView)
    (submission : NonceSubmission).

Definition do_call (s : PoCXScheduler) (c : call) : PoCXScheduler :=
  match c with
  | CallSubmitNonce account_id seed nonce quality compression height gs now =>
      snd (SubmitNonce s account_id seed nonce quality compression height gs now)
  | CallShutdown => Shutdown s
  | CallWorkerTake => snd (worker_take s)
  | CallProcessSubmission fuel node_context submission =>
      match snd (ProcessSubmission fuel node_context s submission) with
      | Ret s' => s'
      | Throw | OutOfFuel => s
      end
  end.

Definition run (calls : list call) (s : PoCXScheduler) : PoCXScheduler :=
  fold_left do_call calls s.

(** [m_current_forging.reset()] *)
Definition reset_forging (s : PoCXScheduler) : PoCXScheduler :=
  mkScheduler (m_submission_queue s) None (m_shutdown s).

(** [WaitForDeadlineOrNewSubmission] from the return of [wait_until] on.  [s]
    is the scheduler as the worker finds it at that moment and
    [predicate_true] is what [wait_until] returned: [false] when the forge
    time passed with the predicate still false.  [GetNewBlockContext] raises
    when the chain has no tip.  Whatever [ForgeBlock] returns, the candidate
    is reset. *)
Definition WaitForDeadlineOrNewSubmission (fuel : nat)
  (node_context : option NodeView) (predicate_true : bool) (s : PoCXScheduler)
  : list event * outcome PoCXScheduler :=
  match m_current_forging s with
  | None => ([], Ret s)
  | Some candidate =>
      let final_queue_size := length (m_submission_queue s) in
      if m_shutdown s then ([], Ret s)
      else if (0 <? final_queue_size)%nat then ([], Ret s)
      else if fs_cancelled candidate then ([], Ret s)
      else
        let deadline_reached := negb predicate_true in
        if deadline_reached then
          match node_context with
          | None => ([], Ret (reset_forging s))
          | Some node =>
              match chain_tip node with
              | None => ([], Throw)
              | Some tip_index =>
                  let current_context := new_block_context node in
                  if negb (fs_height candidate =? height current_context) then
                    ([], Ret (reset_forging s))
                  else if negb (fs_generation_sig candidate
                                =? generation_signature current_context) then
                    ([], Ret (reset_forging s))
                  else if negb (fs_base_target candidate
                                =? base_target current_context) then
                    ([],
                     new_deadline <-
                       TimeBending.CalculateTimeBendedDeadline fuel
                         (fs_quality candidate) (base_target current_context)
                         (u64 (nPowTargetSpacing node)) ;;
                     let block_time := tip_nTime tip_index in
                     Ret (mkScheduler (m_submission_queue s)
                            (Some (mkForging (fs_account_id candidate)
                                     (fs_seed candidate) (fs_nonce candidate)
                                     (fs_quality candidate)
                                     (fs_compression candidate) new_deadline
                                     (base_target current_context)
                                     (fs_block_time candidate)
                                     (fs_generation_sig candidate)
                                     (fs_height candidate)
                                     (fs_tip_block_hash candidate)
                                     (block_time + new_deadline)
                                     (fs_cancelled candidate)))
                            (m_shutdown s)))
                  else ([EvForgeBlock candidate], Ret (reset_forging s))
              end
          end
        else ([], Ret s)
  end.

End Scheduler.

(** ** The proof carried by a block header ([primitives/block.h]) *)

Module Block.

Record PoCXProof := mkProof {
  seed : list Z;                         (* std::array<uint8_t, 32> *)
  account_id : list Z;                   (* std::array<uint8_t, 20> *)
  compression : Z;                       (* uint32_t *)
  nonce : Z;                             (* uint64_t *)
  quality : Z }.                         (* uint64_t *)

(** [std::all_of(account_id.begin(), account_id.end(), b == 0)] *)
Definition all_zero (bytes : list Z) : bool := forallb (fun b => b =? 0) bytes.

Definition IsNull (proof : PoCXProof) : bool :=
  (nonce proof =? 0) && all_zero (account_id proof).

End Block.

(** ** Proof-of-capacity validation ([pocx/consensus/signature.cpp]) *)

Module Signature.
Import ProofValidation.

Section Collaborators.

Variable DecodeGenerationSignature : list Z -> Z * list Z.
Variable CalculateQuality : list Z -> list Z -> Z -> Z -> Z -> list Z -> Z * Z.

(** [uint256] and its [ToString], the 64 hexadecimal characters, belong to
    the host chain. *)
Variable uint256 : Type.
Variable ToString : uint256 -> list Z.

(** The result is [None] where the program has no defined behaviour, and
    otherwise the returned structure or the exception raised by the deadline
    transform.  [block_time] arrives as [int64_t] and is passed on as
    [uint64_t]. *)
Definition ValidateProofOfCapacity (fuel : nat) (generationSignature : uint256)
  (proof : Block.PoCXProof) (baseTarget blockHeight compression block_time : Z)
  : option (outcome ValidationResult) :=
  let result := mkResult false (-1) 0 UINT64_MAX in
  if Block.IsNull proof then Some (Ret result)
  else
    let account_id_null := Block.all_zero (Block.account_id proof) in
    if account_id_null then Some (Ret result)
    else
      let gen_sig_hex := ToString generationSignature in
      let account_payload := Block.account_id proof in
      let nonce := Block.nonce proof in
      let seed_data := Block.seed proof in
      let core_result := mkResult false (-1) 0 UINT64_MAX in
      match pocx_validate_block DecodeGenerationSignature CalculateQuality
              (Some gen_sig_hex) baseTarget (Some account_payload) blockHeight
              nonce (Some seed_data) compression (Some core_result) with
      | Some (success, Some core_result) =>
          Some (deadline <-
                  TimeBending.CalculateTimeBendedDeadline fuel
                    (quality core_result) baseTarget (u64 block_time) ;;
                Ret (mkResult (success && is_valid core_result)
                              (error_code core_result) (quality core_result)
                              deadline))
      | _ => None
      end.

End Collaborators.

End Signature.

(** ** Pinned inputs *)

(** The generation signature of the scoop test in [test/pocx_tests.cpp]. *)
Definition gensig_S4 : list Z :=
  [0x98; 0x21; 0xBE; 0xB3; 0xB3; 0x4D; 0x9A; 0x3B; 0x30; 0x12; 0x7C; 0x05;
   0xF8; 0xD1; 0xE9; 0x00; 0x6F; 0x8A; 0x02; 0xF5; 0x65; 0xA3; 0x57; 0x21;
   0x45; 0x13; 0x4B; 0xBE; 0x34; 0xD3; 0x7A; 0x76].

(** The message blocks of test B in [test/pocx_tests.cpp]. *)
Definition TEST_B_M1 : list Z :=
  [0x64636261; 0x68676665; 0x6C6B6A69; 0x706F6E6D; 0x74737271; 0x78777675;
   0x302D7A79; 0x34333231; 0x38373635; 0x42412D39; 0x46454443; 0x4A494847;
   0x4E4D4C4B; 0x5251504F; 0x56555453; 0x5A595857].

Definition TEST_B_M2 : list Z :=
  [0x3231302D; 0x36353433; 0x2D393837; 0x64636261; 0x68676665; 0x6C6B6A69;
   0x706F6E6D; 0x74737271; 0x78777675; 0x00807A79; 0x00000000; 0x00000000;
   0x00000000; 0x00000000; 0x00000000; 0x00000000].

(** The generation signature of test D. *)
Definition gensig_D : list Z :=
  [0x4a; 0x6f; 0x68; 0x6e; 0x6e; 0x79; 0x46; 0x46; 0x4d; 0x20; 0x68; 0x61;
   0x74; 0x20; 0x64; 0x65; 0x6e; 0x20; 0x67; 0x72; 0xf6; 0xdf; 0x74; 0x65;
   0x6e; 0x20; 0x50; 0x65; 0x6e; 0x69; 0x73; 0x21].

Definition zero_data : list Z := replicate 64 0.
Definition zero_gensig : list Z := replicate 32 0.

(** A four-block chain on a 600 second spacing and its parameters. *)
Definition sample_chain : list Difficulty.CBlockIndex :=
  [Difficulty.mkIndex 3 1900 7000000000; Difficulty.mkIndex 2 1300 7100000000;
   Difficulty.mkIndex 1 600 7330077518; Difficulty.mkIndex 0 0 7330077518].

Definition sample_params : Difficulty.Params := Difficulty.mkParams 600 false 24.

Definition sample_plot : list Z := replicate 20 0x11.
Definition sample_forge : list Z := replicate 20 0x22.

(** Collaborators that always succeed, for a run of the block validator. *)
Definition decode_ok (hex : list Z) : Z * list Z := (0, hex).
Definition quality_ok (account seed : list Z) (nonce compression block_height : Z)
  (generation_signature : list Z) : Z * Z := (0, 1000000).

Definition fresh_result : ProofValidation.ValidationResult :=
  ProofValidation.mkResult false (-1) 0 (2 ^ 64 - 1).

(** A chain that keeps the 600 second spacing exactly, at one base target. *)
Definition on_schedule_chain : list Difficulty.CBlockIndex :=
  [Difficulty.mkIndex 3 1800 7000000000; Difficulty.mkIndex 2 1200 7000000000;
   Difficulty.mkIndex 1 600 7000000000; Difficulty.mkIndex 0 0 7000000000].

(** A scheduler that holds a candidate of quality 500 on the tip with hash 7,
    the node as it stands on that tip, and two submissions for the next
    block: one of worse quality, one for a height that has passed. *)
Definition sample_tip : Scheduler.TipIndex := Scheduler.mkTip 7 1800 6 900.

Definition sample_node : Scheduler.NodeView :=
  Scheduler.mkNode (Some sample_tip) (Scheduler.mkContext 4 11 7000000000 7) 600.

Definition sample_candidate : Scheduler.ForgingState :=
  Scheduler.mkForging sample_plot zero_gensig 1 500 1 0 7000000000 1800 11 4 7 1800
    false.

Definition sample_scheduler : Scheduler.PoCXScheduler :=
  Scheduler.mkScheduler [] (Some sample_candidate) false.

Definition worse_submission : Scheduler.NonceSubmission :=
  Scheduler.mkSubmission sample_plot zero_gensig 2 800 1 4 11 0.


(** A proof for the sample plot, and two collaborators for it: a decoder that
    rejects its input and the characters of a signature, left abstract. *)
Definition sample_proof : Block.PoCXProof :=
  Block.mkProof zero_gensig sample_plot 1 1337 0.

Definition null_account_proof : Block.PoCXProof :=
  Block.mkProof zero_gensig (replicate 20 0) 1 1337 0.

Definition decode_fails (hex : list Z) : Z * list Z := (-2, hex).

Definition hex_of (generation_signature : list Z) : list Z := generation_signature.

(** A zeroed buffer of one nonce. *)
Definition blank_nonce : list Z := replicate (Z.to_nat PlotGeneration.NONCE_SIZE) 0.

(** * Properties *)

(** Splits a list of known length into its elements. *)
Ltac explode l H :=
  repeat (destruct l as [|? l]; [discriminate H|]);
  destruct l; [clear H|discriminate H].

(** ** The pinned vectors of [test/pocx_tests.cpp] *)

Section TestVectors.
Import Shabal ShabalLite.

Example shabal256_test_A :
  Shabal256 zero_data None (0x80 :: replicate 15 0)
  = [0xDA; 0x8F; 0x08; 0xC0; 0x2A; 0x67; 0xBA; 0x9A; 0x56; 0xBD; 0xD0; 0x79;
     0x8E; 0x48; 0xAE; 0x07; 0x14; 0x21; 0x5E; 0x09; 0x3B; 0x5B; 0x85; 0x06;
     0x49; 0xA3; 0x77; 0x18; 0x99; 0x3F; 0x54; 0xA2].
Proof. vm_compute. reflexivity. Qed.

Example shabal256_test_B :
  Shabal256 (bytes_of_words TEST_B_M1) None TEST_B_M2
  = [0xB4; 0x9F; 0x34; 0xBF; 0x51; 0x86; 0x4C; 0x30; 0x53; 0x3C; 0xC4; 0x6C;
     0xC2; 0x54; 0x2B; 0xDE; 0xC2; 0xF9; 0x6F; 0xD0; 0x6F; 0x5C; 0x53; 0x9A;
     0xFF; 0x6E; 0xAD; 0x58; 0x83; 0xF7; 0x32; 0x7A].
Proof. vm_compute. reflexivity. Qed.

Example shabal256_lite_test_D :
  Shabal256Lite zero_data gensig_D = 0x2ACEA174774F5A6A.
Proof. vm_compute. reflexivity. Qed.

End TestVectors.

(** ** Integer cube root and the deadline transform *)

Section TimeBendingFacts.
Import ArithUint256 TimeBending.

Lemma cube_le_mono (a b : Z) : 0 <= a -> a <= b -> a ^ 3 <= b ^ 3.
Proof. intros Ha Hab. apply Z.pow_le_mono_l. lia. Qed.

Lemma cube_lt_mono (a b : Z) : 0 <= a -> a < b -> a ^ 3 < b ^ 3.
Proof. intros Ha Hab. apply Z.pow_lt_mono_l; lia. Qed.

(** Comparing cubes compares the roots. *)
Lemma cube_le_inv (a b : Z) : 0 <= a -> 0 <= b -> a ^ 3 <= b ^ 3 -> a <= b.
Proof.
  intros Ha Hb H. destruct (Z_le_gt_dec a b) as [|Hgt]; [assumption|].
  assert (b ^ 3 < a ^ 3) by (apply cube_lt_mono; lia). lia.
Qed.

Lemma cube_lt_inv (a b : Z) : 0 <= a -> 0 <= b -> a ^ 3 < b ^ 3 -> a < b.
Proof.
  intros Ha Hb H. destruct (Z_lt_ge_dec a b) as [|Hge]; [assumption|].
  assert (b ^ 3 <= a ^ 3) by (apply cube_le_mono; lia). lia.
Qed.

Lemma cube_root_digits_spec (n : nat) :
  forall x, 0 <= x < 2 ^ Z.of_nat n ->
    0 <= cube_root_digits n x /\
    cube_root_digits n x ^ 3 <= x < (cube_root_digits n x + 1) ^ 3.
Proof.
  induction n as [|n IH]; intros x Hx.
  - change (2 ^ Z.of_nat 0) with 1 in Hx. assert (x = 0) by lia. subst x.
    cbn [cube_root_digits]. split; [lia|]. split; reflexivity.
  - cbn [cube_root_digits].
    assert (Hx8 : 0 <= x / 8 < 2 ^ Z.of_nat n).
    { split; [apply Z.div_pos; lia|].
      apply Z.div_lt_upper_bound; [lia|].
      rewrite Nat2Z.inj_succ, Z.pow_succ_r in Hx by lia.
      assert (0 < 2 ^ Z.of_nat n) by (apply Z.pow_pos_nonneg; lia). lia. }
    destruct (IH _ Hx8) as (Hs0 & Hlo & Hhi).
    set (s := cube_root_digits n (x / 8)) in *.
    pose proof (Z.div_mod x 8 ltac:(lia)) as Hdm.
    pose proof (Z.mod_pos_bound x 8 ltac:(lia)) as Hmb.
    replace (s ^ 3) with (s * s * s) in Hlo by ring.
    replace ((s + 1) ^ 3) with ((s + 1) * (s + 1) * (s + 1)) in Hhi by ring.
    destruct (Z.leb_spec ((2 * s + 1) ^ 3) x) as [Hc|Hc].
    + split; [lia|]. split; [assumption|].
      replace ((2 * s + 1 + 1) ^ 3) with (8 * ((s + 1) * (s + 1) * (s + 1))) by ring.
      lia.
    + split; [lia|]. split; [|assumption].
      replace ((2 * s) ^ 3) with (8 * (s * s * s)) by ring. lia.
Qed.

Lemma cube_root_spec (x : Z) :
  0 <= x -> 0 <= cube_root x /\ cube_root x ^ 3 <= x < (cube_root x + 1) ^ 3.
Proof.
  intros Hx. unfold cube_root. apply cube_root_digits_spec.
  split; [assumption|].
  destruct (Z.eq_dec x 0) as [->|Hnz]; [reflexivity|].
  rewrite Nat2Z.inj_succ, Z2Nat.id by apply Z.log2_nonneg.
  apply Z.log2_spec. lia.
Qed.

(** The floor of the cube root is the only [r] with [r^3 <= x < (r+1)^3]. *)
Lemma cube_root_unique (x r : Z) :
  0 <= r -> r ^ 3 <= x < (r + 1) ^ 3 -> r = cube_root x.
Proof.
  intros Hr [Hlo Hhi].
  assert (Hx : 0 <= x) by (pose proof (Z.pow_nonneg r 3); lia).
  destruct (cube_root_spec x Hx) as (Hc0 & Hclo & Hchi).
  assert (r < cube_root x + 1) by (apply cube_lt_inv; lia).
  assert (cube_root x < r + 1) by (apply cube_lt_inv; lia).
  lia.
Qed.

Lemma cube_root_ge (x a : Z) : 0 <= a -> a ^ 3 <= x -> a <= cube_root x.
Proof.
  intros Ha H.
  assert (Hx : 0 <= x) by (pose proof (Z.pow_nonneg a 3); lia).
  destruct (cube_root_spec x Hx) as (Hc0 & Hclo & Hchi).
  assert (a < cube_root x + 1) by (apply cube_lt_inv; lia). lia.
Qed.

Lemma cube_root_le (x a : Z) : 0 <= x -> 0 <= a -> x <= a ^ 3 -> cube_root x <= a.
Proof.
  intros Hx Ha H.
  destruct (cube_root_spec x Hx) as (Hc0 & Hclo & Hchi).
  apply cube_le_inv; lia.
Qed.

Lemma cube_root_lt (x a : Z) : 0 <= x -> 0 <= a -> x < a ^ 3 -> cube_root x < a.
Proof.
  intros Hx Ha H.
  destruct (cube_root_spec x Hx) as (Hc0 & Hclo & Hchi).
  apply cube_lt_inv; lia.
Qed.

End TimeBendingFacts.

Section CubeRootRoutine.
Import ArithUint256 TimeBending.

Lemma pow2_pos (k : Z) : 0 <= k -> 0 < 2 ^ k.
Proof. intros. apply Z.pow_pos_nonneg; lia. Qed.

Lemma pow2_cube (k : Z) : 0 <= k -> (2 ^ k) ^ 3 = 2 ^ (3 * k).
Proof. intros. rewrite <- Z.pow_mul_r by lia. f_equal. lia. Qed.

Lemma wrap_small (z : Z) : 0 <= z < modulus -> z mod modulus = z.
Proof. apply Z.mod_small. Qed.

(** The cube of a power of two, computed as the routine does, while it fits. *)
Lemma mul_cube_pow2 (k : Z) :
  0 <= k <= 85 -> mul (mul (2 ^ k) (2 ^ k)) (2 ^ k) = 2 ^ (3 * k).
Proof.
  intros Hk. unfold mul.
  rewrite <- Z.pow_add_r by lia.
  rewrite (wrap_small (2 ^ (k + k))).
  - rewrite <- Z.pow_add_r by lia. rewrite wrap_small.
    + f_equal. lia.
    + split; [apply Z.lt_le_incl, pow2_pos; lia|].
      unfold modulus. apply Z.pow_lt_mono_r; lia.
  - split; [apply Z.lt_le_incl, pow2_pos; lia|].
    unfold modulus. apply Z.pow_lt_mono_r; lia.
Qed.

Lemma shl_pow2 (k : Z) : 0 <= k < 255 -> shl (2 ^ k) 1 = 2 ^ (k + 1).
Proof.
  intros Hk. unfold shl. rewrite Z.shiftl_mul_pow2 by lia.
  rewrite <- Z.pow_add_r by lia. apply wrap_small.
  split; [apply Z.lt_le_incl, pow2_pos; lia|].
  unfold modulus. apply Z.pow_lt_mono_r; lia.
Qed.

(** The doubling loop stops at the least power of two whose cube reaches [x]. *)
Lemma grow_hi_spec (x : Z) (Hx : 0 <= x <= 2 ^ 255) (n : nat) :
  forall (k : Z) (fuel : nat),
    0 <= k -> k + Z.of_nat n = 85 ->
    (k = 0 \/ 2 ^ (3 * (k - 1)) < x) ->
    (n < fuel)%nat ->
    exists j, k <= j <= 85 /\ grow_hi fuel x (2 ^ k) = Ret (2 ^ j) /\
              x <= 2 ^ (3 * j) /\ (j = 0 \/ 2 ^ (3 * (j - 1)) < x).
Proof.
  induction n as [|n IH]; intros k fuel Hk Hkn Hprev Hfuel;
    (destruct fuel as [|fuel]; [lia|]); cbn [grow_hi];
    rewrite mul_cube_pow2 by lia.
  - assert (k = 85) by lia. subst k.
    destruct (Z.ltb_spec (2 ^ (3 * 85)) x) as [Hlt|Hge].
    + change (3 * 85) with 255 in Hlt. lia.
    + exists 85. repeat split; try lia; auto.
  - destruct (Z.ltb_spec (2 ^ (3 * k)) x) as [Hlt|Hge].
    + rewrite shl_pow2 by lia.
      destruct (IH (k + 1) fuel) as (j & Hj & Hrun & Hup & Hlow); try lia.
      { right. replace (k + 1 - 1) with k by lia. assumption. }
      exists j. repeat split; try lia; auto.
    + exists k. repeat split; try lia; auto.
Qed.

(** The midpoint loop keeps the root between [lo] and [hi] and halves the gap. *)
Lemma bisect_spec (x : Z) (Hx : 0 <= x) (n : nat) :
  forall (fuel : nat) (lo hi : Z),
    0 <= lo -> lo <= cube_root x -> cube_root x <= hi -> hi <= 2 ^ 85 ->
    hi - lo < 2 ^ Z.of_nat n ->
    (n < fuel)%nat ->
    bisect fuel x lo hi = Ret (cube_root x).
Proof.
  destruct (cube_root_spec x Hx) as (Hr0 & Hrlo & Hrhi).
  assert (H85 : 2 ^ 85 = 38685626227668133590597632) by reflexivity.
  assert (Hmod : modulus = 2 ^ 256) by reflexivity.
  induction n as [|n IH]; intros fuel lo hi Hlo0 Hlo Hhi Hcap Hgap Hfuel;
    (destruct fuel as [|fuel]; [lia|]); cbn [bisect].
  - change (2 ^ Z.of_nat 0) with 1 in Hgap.
    destruct (Z.ltb_spec lo hi); [lia|]. f_equal. lia.
  - destruct (Z.ltb_spec lo hi) as [Hlt|Hge]; [|f_equal; lia].
    rewrite Nat2Z.inj_succ, Z.pow_succ_r in Hgap by lia.
    assert (Hadd : add (add lo hi) 1 = lo + hi + 1).
    { unfold add. rewrite (wrap_small (lo + hi)); [apply wrap_small|];
        rewrite Hmod; change (2 ^ 256) with (2 ^ 85 * 2 ^ 171); lia. }
    rewrite Hadd. unfold shr. rewrite Z.shiftr_div_pow2 by lia.
    change (2 ^ 1) with 2.
    set (mid := (lo + hi + 1) / 2).
    assert (Hmid2 : 2 * mid <= lo + hi + 1 < 2 * mid + 2).
    { unfold mid. pose proof (Z.div_mod (lo + hi + 1) 2 ltac:(lia)).
      pose proof (Z.mod_pos_bound (lo + hi + 1) 2 ltac:(lia)). lia. }
    assert (Hmid : lo < mid <= hi) by lia.
    assert (Hcube : mul (mul mid mid) mid = mid ^ 3).
    { assert (Hm3 : mid ^ 3 <= (2 ^ 85) ^ 3) by (apply cube_le_mono; lia).
      rewrite pow2_cube in Hm3 by lia.
      assert (Hm2 : 0 <= mid * mid <= mid ^ 3) by nia.
      unfold mul. rewrite (wrap_small (mid * mid)).
      - replace (mid * mid * mid) with (mid ^ 3) by ring. apply wrap_small.
        rewrite Hmod. change (3 * 85) with 255 in Hm3.
        change (2 ^ 256) with (2 * 2 ^ 255). lia.
      - rewrite Hmod. change (3 * 85) with 255 in Hm3.
        change (2 ^ 256) with (2 * 2 ^ 255). lia. }
    rewrite Hcube.
    destruct (Z.leb_spec (mid ^ 3) x) as [Hle|Hgt].
    + apply IH; try lia.
      apply cube_root_ge; lia.
    + assert (Hsub : sub mid 1 = mid - 1).
      { unfold sub. apply wrap_small. rewrite Hmod.
        change (2 ^ 256) with (2 ^ 85 * 2 ^ 171). lia. }
      rewrite Hsub.
      assert (cube_root x < mid) by (apply cube_root_lt; lia).
      apply IH; lia.
Qed.

(** On every [x] up to [2^255] the routine returns the floor of the cube root
    once the loop budget reaches 86 iterations. *)
Lemma int_cuberoot_u256_correct (fuel : nat) (x : Z) :
  0 <= x <= 2 ^ 255 -> (86 <= fuel)%nat ->
  int_cuberoot_u256 fuel x = Ret (cube_root x).
Proof.
  intros Hx Hfuel. unfold int_cuberoot_u256.
  destruct (grow_hi_spec x Hx 85 0 fuel) as (j & Hj & Hrun & Hup & Hlow);
    try lia.
  change (2 ^ 0) with 1 in Hrun. rewrite Hrun. cbn [bind].
  assert (H0x : 0 <= x) by lia.
  destruct (cube_root_spec x H0x) as (Hr0 & Hrlo & Hrhi).
  assert (Hhi : cube_root x <= 2 ^ j).
  { assert (0 < 2 ^ j) by (apply pow2_pos; lia).
    apply cube_root_le; [lia|lia|].
    rewrite pow2_cube by lia. assumption. }
  assert (Hj85 : 2 ^ j <= 2 ^ 85) by (apply Z.pow_le_mono_r; lia).
  unfold shr. rewrite Z.shiftr_div_pow2 by lia. change (2 ^ 1) with 2.
  destruct (Z.eq_dec j 0) as [->|Hjnz].
  - change (2 ^ 0 / 2) with 0. change (2 ^ 0) with 1 in *.
    apply (bisect_spec x H0x 85); lia.
  - assert (Hhalf : 2 ^ j / 2 = 2 ^ (j - 1)).
    { replace j with (j - 1 + 1) at 1 by lia.
      rewrite Z.pow_add_r by lia. change (2 ^ 1) with 2.
      apply Z.div_mul. lia. }
    rewrite Hhalf.
    assert (Hp : 0 < 2 ^ (j - 1)) by (apply pow2_pos; lia).
    assert (Hdbl : 2 ^ j = 2 * 2 ^ (j - 1)).
    { replace j with (j - 1 + 1) at 1 by lia.
      rewrite Z.pow_add_r by lia. change (2 ^ 1) with 2. lia. }
    assert (Hroot : 2 ^ (j - 1) <= cube_root x).
    { apply cube_root_ge; [lia|].
      rewrite pow2_cube by lia. destruct Hlow; lia. }
    apply (bisect_spec x H0x 85); lia.
Qed.

(** Above [2^255] the doubling loop never leaves: every cube it computes is a
    power of two below [2^256] or zero. *)
Lemma grow_hi_stuck (x : Z) (Hx : 2 ^ 255 < x) (fuel : nat) :
  forall k : Z, 0 <= k -> grow_hi fuel x (2 ^ k mod modulus) = OutOfFuel.
Proof.
  assert (Hmod : modulus = 2 ^ 256) by reflexivity.
  assert (Hm0 : 0 < modulus) by (rewrite Hmod; apply pow2_pos; lia).
  induction fuel as [|fuel IH]; intros k Hk; cbn [grow_hi]; [reflexivity|].
  assert (Hcube : mul (mul (2 ^ k mod modulus) (2 ^ k mod modulus))
                      (2 ^ k mod modulus) = 2 ^ (3 * k) mod modulus).
  { unfold mul. set (a := 2 ^ k).
    rewrite Z.mul_mod_idemp_l, Z.mul_mod_idemp_r by lia.
    rewrite <- Z.mul_assoc, Z.mul_mod_idemp_l by lia.
    rewrite (Z.mul_comm (a mod modulus) a), Z.mul_assoc.
    rewrite Z.mul_mod_idemp_r by lia.
    unfold a. rewrite <- !Z.pow_add_r by lia. f_equal. f_equal. lia. }
  rewrite Hcube.
  assert (Hsmall : 2 ^ (3 * k) mod modulus <= 2 ^ 255).
  { destruct (Z_lt_ge_dec (3 * k) 256) as [Hlt|Hge].
    - rewrite wrap_small.
      + apply Z.pow_le_mono_r; lia.
      + split; [apply Z.lt_le_incl, pow2_pos; lia|].
        rewrite Hmod. apply Z.pow_lt_mono_r; lia.
    - replace (3 * k) with (3 * k - 256 + 256) by lia.
      rewrite Z.pow_add_r by lia. rewrite Hmod.
      rewrite Z.mod_mul by lia. apply Z.lt_le_incl, pow2_pos; lia. }
  destruct (Z.ltb_spec (2 ^ (3 * k) mod modulus) x) as [_|Hge]; [|lia].
  replace (shl (2 ^ k mod modulus) 1) with (2 ^ (k + 1) mod modulus).
  - apply IH. lia.
  - unfold shl. rewrite Z.shiftl_mul_pow2 by lia. change (2 ^ 1) with 2.
    rewrite Z.mul_mod_idemp_l by lia. rewrite Z.pow_add_r by lia.
    reflexivity.
Qed.

End CubeRootRoutine.

Section DeadlineTransform.
Import ArithUint256 TimeBending.

(** Adding half the divisor before dividing rounds to the nearest integer. *)
Lemma round_half_up_div (n d : Z) :
  0 <= n -> 0 < d -> (n + d / 2) / d = round_half_up n d.
Proof.
  intros Hn Hd. unfold round_half_up.
  pose proof (Z.div_mod d 2 ltac:(lia)) as Hd2.
  pose proof (Z.mod_pos_bound d 2 ltac:(lia)) as Hd2b.
  pose proof (Z.div_mod (n + d / 2) d ltac:(lia)) as Hq.
  pose proof (Z.mod_pos_bound (n + d / 2) d ltac:(lia)) as Hqb.
  set (q := (n + d / 2) / d) in *.
  set (h := d / 2) in *.
  apply Z.div_unique with (r := 2 * n + d - 2 * d * q); [left; nia|ring].
Qed.

Lemma shl_small (x n : Z) :
  0 <= n -> 0 <= x -> x * 2 ^ n < modulus -> shl x n = x * 2 ^ n.
Proof.
  intros Hn Hx Hlt. unfold shl. rewrite Z.shiftl_mul_pow2 by lia.
  apply wrap_small. split; [|assumption].
  apply Z.mul_nonneg_nonneg; [assumption|]. apply Z.lt_le_incl, pow2_pos; lia.
Qed.

Lemma mul_small (x y : Z) : 0 <= x -> 0 <= y -> x * y < modulus -> mul x y = x * y.
Proof. intros. unfold mul. apply wrap_small. nia. Qed.

Lemma add_small (x y : Z) : 0 <= x -> 0 <= y -> x + y < modulus -> add x y = x + y.
Proof. intros. unfold add. apply wrap_small. lia. Qed.

(** The scale factor: the cube root of [T * 2^126] lies in [2^42, 2^64), so
    the divisor is positive and nothing wraps. *)
Lemma calculate_qscale_uint_spec (fuel : nat) (T : Z) :
  (86 <= fuel)%nat -> 0 < T < 2 ^ 64 ->
  calculate_qscale_uint fuel T = Ret (spec_SCALE_Q T) /\
  0 <= spec_SCALE_Q T < 2 ^ 149.
Proof.
  intros Hfuel HT.
  assert (Hmod : modulus = 2 ^ 256) by reflexivity.
  unfold calculate_qscale_uint, spec_SCALE_Q. cbv zeta.
  change (3 * 42) with 126. change (2 * 42) with 84.
  rewrite !Z.shiftl_mul_pow2 by lia. rewrite Z.shiftr_div_pow2 by lia.
  rewrite (shl_small T 126) by (rewrite ?Hmod; lia).
  rewrite (shl_small T 84) by (rewrite ?Hmod; lia).
  rewrite int_cuberoot_u256_correct by lia. cbn [bind].
  set (c := cube_root (T * 2 ^ 126)).
  assert (Hc : 2 ^ 42 <= c < 2 ^ 64).
  { split.
    - apply cube_root_ge; [lia|]. change ((2 ^ 42) ^ 3) with (2 ^ 126). lia.
    - apply cube_root_lt; [lia|lia|]. change ((2 ^ 64) ^ 3) with (2 ^ 64 * 2 ^ 128). lia. }
  unfold GAMMA_FP.
  rewrite (mul_small c) by (rewrite ?Hmod; lia).
  unfold shr. rewrite !Z.shiftr_div_pow2 by lia. change (2 ^ 1) with 2.
  set (den := c * 3927365422841 / 2 ^ 42).
  assert (Hden : 3927365422841 <= den < 2 ^ 64).
  { unfold den. split.
    - apply Z.div_le_lower_bound; lia.
    - apply Z.div_lt_upper_bound; lia. }
  assert (Hhalf : 0 <= den / 2 < 2 ^ 63).
  { split; [apply Z.div_pos; lia|]. apply Z.div_lt_upper_bound; lia. }
  rewrite add_small by (rewrite ?Hmod; lia).
  unfold div. destruct (Z.eqb_spec den 0) as [|_]; [lia|].
  rewrite round_half_up_div by lia.
  split; [reflexivity|].
  rewrite <- round_half_up_div by lia.
  split; [apply Z.div_pos; lia|].
  apply Z.div_lt_upper_bound; [lia|]. nia.
Qed.

Lemma CalculateTimeBendedDeadline_zero (fuel : nat) (base_target T : Z) :
  CalculateTimeBendedDeadline fuel 0 base_target T = Ret 0.
Proof. reflexivity. Qed.

Lemma CalculateTimeBendedDeadline_pipeline (fuel : nat) (q base_target T : Z) :
  (86 <= fuel)%nat ->
  0 < q < 2 ^ 64 -> 0 < base_target < 2 ^ 64 -> 0 < T < 2 ^ 64 ->
  CalculateTimeBendedDeadline fuel q base_target T
  = Ret (spec_time_bent q base_target T).
Proof.
  intros Hfuel Hq Hbt HT.
  assert (Hmod : modulus = 2 ^ 256) by reflexivity.
  destruct (calculate_qscale_uint_spec fuel T Hfuel HT) as [Hscale Hsb].
  unfold CalculateTimeBendedDeadline, spec_time_bent. cbv zeta.
  destruct (Z.eqb_spec q 0) as [|_]; [lia|].
  rewrite Hscale. cbn [bind].
  change (3 * 21) with 63. change (21 + 42) with 63.
  rewrite Z.shiftl_mul_pow2 by lia.
  rewrite (shl_small 1 63) by (rewrite ?Hmod; lia). rewrite Z.mul_1_l.
  rewrite (mul_small q) by (rewrite ?Hmod; lia).
  unfold div at 1. destruct (Z.eqb_spec base_target 0) as [|_]; [lia|].
  cbn [bind].
  set (V := q * 2 ^ 63 / base_target).
  assert (HV : 0 <= V < 2 ^ 127).
  { unfold V. split; [apply Z.div_pos; lia|].
    apply Z.div_lt_upper_bound; [lia|]. nia. }
  rewrite int_cuberoot_u256_correct by lia. cbn [bind].
  set (r := cube_root V).
  assert (Hr : 0 <= r < 2 ^ 43).
  { split; [apply cube_root_spec; lia|].
    apply cube_root_lt; [lia|lia|]. change ((2 ^ 43) ^ 3) with (2 ^ 129). lia. }
  set (S := spec_SCALE_Q T) in *.
  assert (HSr : 0 <= S * r < 2 ^ 192).
  { change (2 ^ 192) with (2 ^ 149 * 2 ^ 43). nia. }
  rewrite (mul_small S) by (rewrite ?Hmod; lia).
  unfold shr. rewrite Z.shiftr_div_pow2 by lia.
  change (2 ^ 63 / 2 ^ 1) with (2 ^ 63 / 2).
  rewrite add_small; [|lia|apply Z.div_pos; lia|rewrite Hmod; change (2 ^ 63 / 2) with (2 ^ 62); lia].
  unfold div. destruct (Z.eqb_spec (2 ^ 63) 0) as [Hz|_]; [discriminate Hz|].
  cbn [bind]. rewrite round_half_up_div by lia. reflexivity.
Qed.

End DeadlineTransform.

(** ** Difficulty schedule *)

Section DifficultyFacts.
Import Difficulty.

Lemma u64_small (z : Z) : 0 <= z < 2 ^ 64 -> u64 z = z.
Proof. apply Z.mod_small. Qed.

Lemma u64_nonneg (z : Z) : 0 <= u64 z.
Proof. unfold u64. apply Z.mod_pos_bound. reflexivity. Qed.

Lemma i32_ok (z : Z) : - 2 ^ 31 <= z < 2 ^ 31 -> i32 z = Some z.
Proof.
  intros [Hlo Hhi]. unfold i32.
  destruct (Z.leb_spec (- 2 ^ 31) z); [|lia].
  destruct (Z.ltb_spec z (2 ^ 31)); [reflexivity|lia].
Qed.

Lemma i64_ok (z : Z) : - 2 ^ 63 <= z < 2 ^ 63 -> i64 z = Some z.
Proof.
  intros [Hlo Hhi]. unfold i64.
  destruct (Z.leb_spec (- 2 ^ 63) z); [|lia].
  destruct (Z.ltb_spec z (2 ^ 63)); [reflexivity|lia].
Qed.

Lemma udiv64_ok (x y : Z) : y <> 0 -> udiv64 x y = Some (x / y).
Proof. intros Hy. unfold udiv64. destruct (Z.eqb_spec y 0); [contradiction|reflexivity]. Qed.

(** For a positive spacing the genesis base target of the code is the one the
    specification writes. *)
Lemma CalculateGenesisBaseTarget_spec (spacing : Z) (low : bool) :
  0 < spacing < 2 ^ 63 ->
  CalculateGenesisBaseTarget spacing low = Some (GENESIS spacing low).
Proof.
  intros Hs. unfold CalculateGenesisBaseTarget, GENESIS.
  rewrite u64_small by lia. rewrite udiv64_ok by lia.
  change POWER_60 with (2 ^ 60). change POWER_42 with (2 ^ 42).
  set (g := (if low then 2 ^ 60 else 2 ^ 42) / spacing).
  assert (0 <= g) by (apply Z.div_pos; [destruct low|]; lia).
  f_equal. destruct (Z.eqb_spec g 0); lia.
Qed.

(** In a well-formed chain the head sits at height [length - 1]. *)
Lemma chain_ok_height (pindex : list CBlockIndex) :
  chain_ok pindex = true ->
  match pindex with
  | [] => False
  | blk :: _ => nHeight blk = Z.of_nat (length pindex) - 1
  end.
Proof.
  induction pindex as [|blk pprev IH]; cbn [chain_ok]; [discriminate|].
  destruct pprev as [|prev rest].
  - intros H. apply Z.eqb_eq in H. cbn. lia.
  - intros H. apply andb_true_iff in H. destruct H as [Hh Hok].
    apply Z.eqb_eq in Hh. specialize (IH Hok). cbn [length] in *. lia.
Qed.

(** Every height from 0 to the head's is found by following [pprev]. *)
Lemma walk_to_found (pindex : list CBlockIndex) :
  chain_ok pindex = true ->
  forall height,
    0 <= height ->
    match pindex with
    | [] => False
    | blk :: _ => height <= nHeight blk
    end ->
    walk_to pindex height <> [].
Proof.
  induction pindex as [|blk pprev IH]; [discriminate|].
  intros Hok height H0 Hle. cbn [walk_to].
  destruct (Z.eqb_spec (nHeight blk) height) as [|Hne]; [discriminate|].
  cbn [chain_ok] in Hok. destruct pprev as [|prev rest].
  - apply Z.eqb_eq in Hok. lia.
  - apply andb_true_iff in Hok. destruct Hok as [Hh Hok].
    apply Z.eqb_eq in Hh. apply IH; [assumption|assumption|lia].
Qed.

(** The closing clamps alone fix the range of the result. *)
Lemma clamp_range (new inc dec genesis : Z) :
  0 <= new -> 0 <= inc -> 0 <= dec -> 1 <= genesis ->
  let new := if new >? inc then inc else new in
  let new := if new <? dec then dec else new in
  let new := if new >? genesis then genesis else new in
  let new := if new =? 0 then 1 else new in
  0 < new <= genesis.
Proof.
  intros Hn Hi Hd Hg. cbv zeta.
  destruct (Z.gtb_spec new inc), (Z.ltb_spec (if new >? inc then inc else new) dec).
  all: repeat match goal with
         | |- context [?a >? ?b] => destruct (Z.gtb_spec a b)
         | |- context [?a <? ?b] => destruct (Z.ltb_spec a b)
         | |- context [?a =? ?b] => destruct (Z.eqb_spec a b)
         end; lia.
Qed.

Lemma GetNextBaseTarget_range (pindexLast : list CBlockIndex) (params : Params) :
  0 < nPowTargetSpacing params ->
  0 < nPoCXRollingWindowSize params < 2 ^ 31 ->
  2 * (nPoCXRollingWindowSize params * nPowTargetSpacing params) < 2 ^ 63 ->
  chain_ok pindexLast = true ->
  Z.of_nat (length pindexLast) <= 2 ^ 31 ->
  exists v,
    GetNextBaseTarget pindexLast params = Some v /\
    0 < v <= GENESIS (nPowTargetSpacing params) (fPoCXLowCapacityCalibration params).
Proof.
  intros Hsp Hwin Hprod Hok Hlen.
  pose proof (chain_ok_height _ Hok) as Hh.
  destruct pindexLast as [|last pprev]; [contradiction|].
  cbn [length] in Hh, Hlen.
  set (spacing := nPowTargetSpacing params) in *.
  set (window := nPoCXRollingWindowSize params) in *.
  assert (Hsp63 : 0 < spacing < 2 ^ 63) by nia.
  assert (Hg1 : 1 <= GENESIS spacing (fPoCXLowCapacityCalibration params))
    by (unfold GENESIS; lia).
  unfold GetNextBaseTarget. fold spacing. fold window.
  rewrite CalculateGenesisBaseTarget_spec by assumption.
  destruct (Z.eqb_spec (nHeight last) 0) as [Hz|Hnz].
  { eexists. split; [reflexivity|]. lia. }
  set (lookback := Z.min window (nHeight last)).
  assert (Hlb : 1 <= lookback <= nHeight last /\ lookback <= window)
    by (unfold lookback; lia).
  rewrite i32_ok by lia. rewrite i32_ok by lia.
  assert (Hanc : GetAncestor (last :: pprev) (nHeight last - lookback + 1) <> []).
  { unfold GetAncestor.
    destruct (Z.gtb_spec (nHeight last - lookback + 1) (nHeight last)); [lia|].
    destruct (Z.ltb_spec (nHeight last - lookback + 1) 0); [lia|].
    cbn [orb]. apply walk_to_found; [assumption|lia|lia]. }
  destruct (GetAncestor (last :: pprev) (nHeight last - lookback + 1))
    as [|first rest]; [contradiction|].
  assert (Htt : 0 < lookback * spacing /\ 2 * (lookback * spacing) < 2 ^ 63) by nia.
  rewrite i64_ok by lia.
  replace (lookback * spacing * 2) with (2 * (lookback * spacing)) by ring.
  rewrite i64_ok by lia.
  rewrite (u64_small lookback) by lia. rewrite udiv64_ok by lia.
  rewrite (u64_small (lookback * spacing)) by lia. rewrite udiv64_ok by lia.
  eexists. split; [reflexivity|].
  apply clamp_range; try apply u64_nonneg; try assumption.
  apply Z.div_pos; [apply u64_nonneg|lia].
Qed.

End DifficultyFacts.

(** ** Forging assignments *)

Section AssignmentFacts.
Import AssignmentState Opcodes.

(** Reading back a direct push of [n < 76] bytes that ends the script. *)
Lemma GetOp_direct_push (data : list Z) :
  (length data < 76)%nat ->
  GetOp (Z.of_nat (length data) :: data) = Some (Z.of_nat (length data), data, []).
Proof.
  intros Hlen. unfold GetOp, OP_PUSHDATA4, OP_PUSHDATA1.
  destruct (Z.leb_spec (Z.of_nat (length data)) 78) as [_|]; [|lia].
  destruct (Z.ltb_spec (Z.of_nat (length data)) 76) as [_|]; [|lia].
  destruct (Z.ltb_spec (Z.of_nat (length data)) 0) as [|_]; [lia|].
  rewrite Z.ltb_irrefl. cbn [orb].
  rewrite Nat2Z.id, take_ge, drop_ge by lia. reflexivity.
Qed.

Lemma push_data_direct (script : CScript) (b : list Z) :
  (length b < 76)%nat ->
  push_data script b = script ++ Z.of_nat (length b) :: b.
Proof.
  intros Hlen. unfold push_data, OP_PUSHDATA1.
  destruct (Z.ltb_spec (Z.of_nat (length b)) 76) as [_|]; [reflexivity|lia].
Qed.

Lemma CreateAssignmentOpReturn_bytes (p f : list Z) :
  length p = 20%nat -> length f = 20%nat ->
  CreateAssignmentOpReturn p f
  = OP_RETURN :: 44 :: ASSIGNMENT_MARKER ++ p ++ f.
Proof.
  intros Hp Hf. unfold CreateAssignmentOpReturn, push_opcode. cbv zeta.
  assert (Hlen : length (([] ++ ASSIGNMENT_MARKER) ++ p ++ f) = 44%nat)
    by (rewrite !length_app, Hp, Hf; reflexivity).
  rewrite <- (app_assoc _ p f).
  rewrite push_data_direct by lia. rewrite Hlen. reflexivity.
Qed.

Lemma CreateRevocationOpReturn_bytes (p : list Z) :
  length p = 20%nat ->
  CreateRevocationOpReturn p = OP_RETURN :: 24 :: REVOCATION_MARKER ++ p.
Proof.
  intros Hp. unfold CreateRevocationOpReturn, push_opcode. cbv zeta.
  assert (Hlen : length (([] ++ REVOCATION_MARKER) ++ p) = 24%nat)
    by (rewrite !length_app, Hp; reflexivity).
  rewrite push_data_direct by lia. rewrite Hlen. reflexivity.
Qed.

Lemma ParseAssignmentOpReturn_Create (value : Z) (p f : list Z) :
  length p = 20%nat -> length f = 20%nat ->
  ParseAssignmentOpReturn (mkTxOut value (CreateAssignmentOpReturn p f)) = Some (p, f).
Proof.
  intros Hp Hf. rewrite CreateAssignmentOpReturn_bytes by assumption.
  assert (Hlen : length (ASSIGNMENT_MARKER ++ p ++ f) = 44%nat)
    by (rewrite !length_app, Hp, Hf; reflexivity).
  pose proof (GetOp_direct_push (ASSIGNMENT_MARKER ++ p ++ f)) as Hop.
  rewrite Hlen in Hop. specialize (Hop ltac:(lia)).
  unfold ParseAssignmentOpReturn, IsAssignmentOpReturn.
  cbn [scriptPubKey drop]. rewrite Z.eqb_refl. cbn [negb].
  change (Z.of_nat 44) with 44 in Hop. rewrite Hop.
  rewrite Hlen. cbn [Nat.eqb negb].
  change (marker_equal ASSIGNMENT_MARKER (ASSIGNMENT_MARKER ++ p ++ f)) with true.
  cbn [negb].
  f_equal. f_equal.
  - change (drop 4 (ASSIGNMENT_MARKER ++ p ++ f)) with (p ++ f).
    rewrite take_app_length' by (symmetry; assumption). reflexivity.
  - change (drop 24 (ASSIGNMENT_MARKER ++ p ++ f)) with (drop 20 (p ++ f)).
    rewrite drop_app_length' by (symmetry; assumption). apply take_ge. lia.
Qed.

Lemma ParseRevocationOpReturn_Create (value : Z) (p : list Z) :
  length p = 20%nat ->
  ParseRevocationOpReturn (mkTxOut value (CreateRevocationOpReturn p)) = Some p.
Proof.
  intros Hp. rewrite CreateRevocationOpReturn_bytes by assumption.
  assert (Hlen : length (REVOCATION_MARKER ++ p) = 24%nat)
    by (rewrite !length_app, Hp; reflexivity).
  pose proof (GetOp_direct_push (REVOCATION_MARKER ++ p)) as Hop.
  rewrite Hlen in Hop. specialize (Hop ltac:(lia)).
  unfold ParseRevocationOpReturn, IsRevocationOpReturn.
  cbn [scriptPubKey drop]. rewrite Z.eqb_refl. cbn [negb].
  change (Z.of_nat 24) with 24 in Hop. rewrite Hop.
  rewrite Hlen. cbn [Nat.eqb negb].
  change (marker_equal REVOCATION_MARKER (REVOCATION_MARKER ++ p)) with true.
  cbn [negb].
  f_equal.
  change (drop 4 (REVOCATION_MARKER ++ p)) with p.
  apply take_ge. lia.
Qed.

End AssignmentFacts.

(** ** Shabal-256 lite against the general routine *)

Section ShabalLiteFacts.
Import Shabal ShabalLite.

(** Replaces every read of a literal list by the element read. *)
Ltac read_literals :=
  repeat match goal with
    | |- context [@lookup_total nat Z (list Z) _ ?i ?l] =>
        let v := eval cbn in (l !!! i) in
        lazymatch v with
        | context [@lookup_total] => fail
        | _ => replace (l !!! i) with v by reflexivity
        end
    end.

Lemma perm_elt_lite_eq : perm_elt_lite = perm_elt.
Proof. reflexivity. Qed.

(** The first block of the lite routine feeds [perm] the words of the
    signature followed by the first eight words of the data. *)
Lemma perm_block1_eq (a b c G D : list Z) :
  length G = 8%nat -> length D = 16%nat ->
  perm_block1 a b c G D = perm a b c (G ++ take 8 D).
Proof.
  intros HG HD. explode G HG. explode D HD.
  unfold perm_block1, perm. rewrite perm_elt_lite_eq.
  read_literals.
  reflexivity.
Qed.

(** The second block feeds it the last eight words of the data followed by
    the terminator words. *)
Lemma perm_block2_eq (a b c D term : list Z) :
  length D = 16%nat -> length term = 8%nat ->
  perm_block2 a b c D term = perm a b c (drop 8 D ++ term).
Proof.
  intros HD HT. explode D HD. explode term HT.
  unfold perm_block2, perm. rewrite perm_elt_lite_eq.
  read_literals.
  reflexivity.
Qed.

End ShabalLiteFacts.

Section ShabalLiteRounds.
Import Shabal ShabalLite.

(** Runs the word loops on lists whose spine is known. *)
Ltac run_loops :=
  cbv [input_block_add input_block_sub fold_left seq insert list_insert
       lookup_total list_lookup_total Nat.add app take drop];
  reflexivity.

(** The interleaved loop [b[i] += lo[i]; b[i + 8] += hi[i]] adds the block
    [lo ++ hi] word by word, whatever the length of [b]. *)
Lemma add_halves_eq (b G D : list Z) :
  length G = 8%nat -> length D = 16%nat ->
  fold_left
    (fun b i =>
       let b := <[i := u32 (b !!! i + G !!! i)]> b in
       <[(i + 8)%nat := u32 (b !!! (i + 8)%nat + D !!! i)]> b)
    (seq 0 8) b
  = input_block_add b (G ++ take 8 D).
Proof.
  intros HG HD. explode G HG. explode D HD.
  do 16 (destruct b as [|? b]; [run_loops|]). run_loops.
Qed.

Lemma sub_halves_eq (c G D : list Z) :
  length G = 8%nat -> length D = 16%nat ->
  fold_left
    (fun c i =>
       let c := <[i := u32 (c !!! i - G !!! i)]> c in
       <[(i + 8)%nat := u32 (c !!! (i + 8)%nat - D !!! i)]> c)
    (seq 0 8) c
  = input_block_sub c (G ++ take 8 D).
Proof.
  intros HG HD. explode G HG. explode D HD.
  do 16 (destruct c as [|? c]; [run_loops|]). run_loops.
Qed.

Lemma add_tail_eq (b D term : list Z) :
  length D = 16%nat -> length term = 8%nat ->
  fold_left
    (fun b i =>
       let b := <[i := u32 (b !!! i + D !!! (i + 8)%nat)]> b in
       <[(i + 8)%nat := u32 (b !!! (i + 8)%nat + term !!! i)]> b)
    (seq 0 8) b
  = input_block_add b (drop 8 D ++ term).
Proof.
  intros HD HT. explode D HD. explode term HT.
  do 16 (destruct b as [|? b]; [run_loops|]). run_loops.
Qed.

(** One closing round of the lite routine is one [final_round]. *)
Lemma closing_round_eq (a b c D term : list Z) (w_low w_high : Z) :
  length D = 16%nat -> length term = 8%nat ->
  closing_round a b c D term w_low w_high
  = let s := final_round (mkState a b c w_low w_high) (drop 8 D ++ term) in
    (st_a s, st_b s, st_c s).
Proof.
  intros HD HT.
  unfold closing_round, final_round, apply_p.
  cbn [st_a st_b st_c st_w_low st_w_high].
  destruct (swap_bc b c) as [b1 c1].
  rewrite perm_block2_eq by assumption.
  destruct (perm _ _ _ _) as [a2 b2].
  reflexivity.
Qed.

Lemma fold_left_seq3 {A : Type} (f : A -> nat -> A) (x : A) :
  fold_left f (seq 0 3) x = f (f (f x 0%nat) 1%nat) 2%nat.
Proof. reflexivity. Qed.

Lemma fold_left_seq1 {A : Type} (f : A -> nat -> A) (x : A) :
  fold_left f (seq 0 1) x = f x 0%nat.
Proof. reflexivity. Qed.

(** [final_round] leaves the block counter alone, so the three closing rounds
    of the lite routine follow the three of the general one. *)
Lemma closing_round_sim (s : state) (D term : list Z) :
  length D = 16%nat -> length term = 8%nat ->
  let s' := final_round s (drop 8 D ++ term) in
  closing_round (st_a s) (st_b s) (st_c s) D term (st_w_low s) (st_w_high s)
  = (st_a s', st_b s', st_c s') /\
  st_w_low s' = st_w_low s /\ st_w_high s' = st_w_high s.
Proof.
  intros HD HT. destruct s as [a b c w_low w_high].
  cbn [st_a st_b st_c st_w_low st_w_high].
  rewrite closing_round_eq by assumption. cbv zeta.
  unfold final_round. cbn [st_a st_b st_c st_w_low st_w_high].
  destruct (swap_bc _ _) as [b1 c1]. destruct (apply_p _ _ _ _) as [a2 b2].
  repeat split.
Qed.

End ShabalLiteRounds.
Section ShabalLiteMain.
Import Shabal ShabalLite.

Lemma INIT_LITE_eq :
  A_INIT_LITE = A_INIT /\ B_INIT_LITE = B_INIT /\ C_INIT_LITE = C_INIT.
Proof. repeat split. Qed.

Lemma lite_term_eq : <[0%nat := 0x80]> (replicate 8 0) = [0x80; 0; 0; 0; 0; 0; 0; 0].
Proof. reflexivity. Qed.

Lemma lite_counter :
  u32 (1 + 1) = 2 /\ (if 2 =? 0 then u32 (0 + 1) else 0) = 0 /\ incr_w 1 0 = (2, 0).
Proof. repeat split. Qed.

(** The padded 128-byte message splits into the two blocks the lite routine
    works on. *)
Lemma lite_message_blocks (data gensig : list Z) :
  length data = 64%nat -> length gensig = 32%nat ->
  let G := words_of_bytes (take 32 gensig) in
  let D := words_of_bytes (take 64 data) in
  let message := gensig ++ data ++ 0x80 :: replicate 31 0 in
  length G = 8%nat /\ length D = 16%nat /\
  words_of_bytes (take 64 message) = G ++ take 8 D /\
  words_of_bytes (drop 64 message) = drop 8 D ++ [0x80; 0; 0; 0; 0; 0; 0; 0].
Proof.
  intros Hd Hg. explode data Hd. explode gensig Hg.
  cbv [take drop app replicate words_of_bytes length].
  repeat split.
Qed.

(** With one 64-byte block of data the general routine is one compression
    followed by the terminator rounds. *)
Lemma absorb_one (data_aligned : list Z) (s : state) :
  absorb 1 0 data_aligned s = compress s data_aligned.
Proof. reflexivity. Qed.

Lemma Shabal256_state_one_block (data term : list Z) :
  length data = 64%nat ->
  Shabal256_state data None term
  = terminate (compress init (words_of_bytes data)) term.
Proof.
  intros Hlen. unfold Shabal256_state. cbv zeta. rewrite Hlen.
  change (Nat.div 64 64) with 1%nat. rewrite absorb_one. reflexivity.
Qed.

Lemma Shabal256Lite_two_blocks (data gensig : list Z) :
  length data = 64%nat -> length gensig = 32%nat ->
  Shabal256Lite data gensig
  = let message := gensig ++ data ++ 0x80 :: replicate 31 0 in
    let s := terminate (compress init (words_of_bytes (take 64 message)))
                       (words_of_bytes (drop 64 message)) in
    Z.lor ((st_b s) @ 8) (Z.shiftl ((st_b s) @ 9) 32).
Proof.
  intros Hd Hg.
  cbv zeta.
  destruct (lite_message_blocks data gensig Hd Hg) as (HG & HD & -> & ->).
  unfold Shabal256Lite. cbv zeta.
  set (G := words_of_bytes (take 32 gensig)) in *.
  set (D := words_of_bytes (take 64 data)) in *.
  clearbody G D. clear data gensig Hd Hg.
  destruct INIT_LITE_eq as (-> & -> & ->).
  destruct lite_counter as (-> & -> & Hincr).
  rewrite lite_term_eq.
  rewrite add_halves_eq, sub_halves_eq, perm_block1_eq by assumption.
  unfold compress, init, apply_p.
  cbn [st_a st_b st_c st_w_low st_w_high]. rewrite Hincr.
  destruct (perm _ _ _ _) as [a1 b1].
  destruct (swap_bc _ _) as [b2 c2].
  rewrite add_tail_eq by (assumption || reflexivity).
  rewrite perm_block2_eq by (assumption || reflexivity).
  unfold terminate, apply_p.
  cbn [st_a st_b st_c st_w_low st_w_high].
  destruct (perm _ _ _ _) as [a3 b3].
  rewrite !fold_left_seq3.
  set (M2 := drop 8 D ++ [128; 0; 0; 0; 0; 0; 0; 0]).
  set (s0 := mkState (add_c a3 c2) b3 c2 2 0).
  assert (Hround : forall s, st_w_low s = 2 -> st_w_high s = 0 ->
            closing_round (st_a s) (st_b s) (st_c s) D [128; 0; 0; 0; 0; 0; 0; 0] 2 0
            = (st_a (final_round s M2), st_b (final_round s M2), st_c (final_round s M2))
            /\ st_w_low (final_round s M2) = 2 /\ st_w_high (final_round s M2) = 0).
  { intros s Hl Hh.
    destruct (closing_round_sim s D [128; 0; 0; 0; 0; 0; 0; 0] HD eq_refl)
      as (E & El & Eh).
    rewrite Hl, Hh in E. rewrite Hl in El. rewrite Hh in Eh. auto. }
  destruct (Hround s0 eq_refl eq_refl) as (E0 & Hl1 & Hh1).
  cbn [s0 st_a st_b st_c] in E0. rewrite E0. cbv beta zeta match.
  destruct (Hround _ Hl1 Hh1) as (E1 & Hl2 & Hh2).
  rewrite E1. cbv beta zeta match.
  destruct (Hround _ Hl2 Hh2) as (E2 & _ & _).
  rewrite E2. cbv beta zeta match.
  reflexivity.
Qed.
Lemma Shabal256Lite_zero : Shabal256Lite zero_data zero_gensig = 0x9824D76D62CD4F2F.
Proof. vm_compute. reflexivity. Qed.

End ShabalLiteMain.

(** ** Scoop selection *)

Section ScoopFacts.
Import Shabal Quality.

(** The buffer filled by [CalculateScoop]: signature, height high byte
    first, the byte [0x80], then zeros. *)
Lemma scoop_message_layout (block_height : Z) (generation_signature : list Z) :
  length generation_signature = 32%nat ->
  scoop_message block_height generation_signature
  = generation_signature
    ++ map (fun i => Z.land (Z.shiftr block_height (Z.of_nat i * 8)) 0xFF)
           [7; 6; 5; 4; 3; 2; 1; 0]%nat
    ++ [0x80] ++ replicate 23 0.
Proof.
  intros Hlen. explode generation_signature Hlen.
  reflexivity.
Qed.

Lemma u8_range (z : Z) : 0 <= u8 z < 256.
Proof.
  unfold u8. change 255 with (Z.ones 8). rewrite Z.land_ones by lia.
  apply Z.mod_pos_bound. reflexivity.
Qed.

Lemma bytes_of_words_range (ws : list Z) :
  Forall (fun b => 0 <= b < 256) (bytes_of_words ws).
Proof.
  unfold bytes_of_words. induction ws as [|w ws IH]; cbn [flat_map].
  - constructor.
  - unfold u32_to_bytes at 1. cbn [app].
    repeat (constructor; [apply u8_range|]). exact IH.
Qed.

(** Reading a byte buffer, in or out of range, gives a byte. *)
Lemma byte_read (bs : list Z) (i : nat) :
  Forall (fun b => 0 <= b < 256) bs -> 0 <= bs !!! i < 256.
Proof.
  intros Hall. rewrite list_lookup_total_alt.
  destruct (bs !! i) as [b|] eqn:Hb; cbn.
  - exact (Forall_lookup_1 _ _ _ _ Hall Hb).
  - compute. split; [discriminate|reflexivity].
Qed.

Lemma scoop_index_range (hi lo : Z) :
  0 <= lo < 256 ->
  0 <= Z.lor (Z.shiftl (Z.land hi 0x0F) 8) lo < 4096.
Proof.
  intros Hlo.
  assert (Hnib : 0 <= Z.land hi 0x0F < 16).
  { change 0x0F with (Z.ones 4). rewrite Z.land_ones by lia.
    apply Z.mod_pos_bound. reflexivity. }
  rewrite Z.shiftl_mul_pow2 by lia. change (2 ^ 8) with 256.
  set (n := Z.land hi 0x0F) in *.
  assert (Hsum : Z.lor (n * 256) lo = n * 256 + lo).
  { rewrite <- Z.lxor_lor, <- Z.add_nocarry_lxor; try reflexivity.
    all: apply Z.bits_inj'; intros k Hk; rewrite Z.land_spec, Z.bits_0.
    all: destruct (Z_lt_ge_dec k 8).
    all: try (replace (n * 256) with (n * 2 ^ 8) by reflexivity;
              rewrite Z.mul_pow2_bits_low by lia; reflexivity).
    all: rewrite (Z.bits_above_log2 lo k), andb_false_r; try reflexivity; try lia.
    all: destruct (Z.eq_dec lo 0) as [->|]; [cbn; lia|];
         apply Z.log2_lt_pow2; try lia; apply Z.lt_le_trans with 256; try lia;
         change 256 with (2 ^ 8); apply Z.pow_le_mono_r; lia. }
  rewrite Hsum. lia.
Qed.

Lemma CalculateScoop_range (block_height : Z) (generation_signature : list Z) :
  0 <= CalculateScoop block_height generation_signature < NUM_SCOOPS.
Proof.
  unfold CalculateScoop, NUM_SCOOPS, Shabal256. cbv zeta.
  apply scoop_index_range. apply byte_read, bytes_of_words_range.
Qed.

Lemma CalculateScoop_S4 : CalculateScoop 0 gensig_S4 = 667.
Proof. vm_compute. reflexivity. Qed.

Lemma spec_CalculateScoop_S4 : spec_CalculateScoop 0 gensig_S4 = 2281.
Proof. vm_compute. reflexivity. Qed.

End ScoopFacts.

(** ** Block validation and the scheduler *)

Section ValidationFacts.
Import ProofValidation.

Variable DecodeGenerationSignature : list Z -> Z * list Z.
Variable CalculateQuality : list Z -> list Z -> Z -> Z -> Z -> list Z -> Z * Z.

(** The quotient is only taken on the branch where the divisor is positive. *)
Lemma pocx_validate_block_defined
  (hex : option (list Z)) (base_target : Z) (account : option (list Z))
  (block_height nonce : Z) (seed : option (list Z)) (compression : Z)
  (result : option ValidationResult) :
  pocx_validate_block DecodeGenerationSignature CalculateQuality
    hex base_target account block_height nonce seed compression result <> None.
Proof.
  unfold pocx_validate_block.
  destruct hex, account, seed, result; try discriminate.
  destruct (DecodeGenerationSignature _) as [decode_result gs].
  destruct (negb (decode_result =? 0)); [discriminate|].
  destruct (CalculateQuality _ _ _ _ _ _) as [quality_result q].
  destruct (negb (quality_result =? 0)); [discriminate|].
  destruct (Z.gtb_spec base_target 0) as [Hpos|Hle]; [|discriminate].
  unfold udiv. destruct (Z.eqb_spec base_target 0); [lia|discriminate].
Qed.

Lemma pocx_validate_block_success
  (hex account seed : list Z) (base_target block_height nonce compression : Z)
  (result : ValidationResult) (gs : list Z) (q : Z) :
  DecodeGenerationSignature hex = (0, gs) ->
  CalculateQuality (take 20 account) (take 32 seed) nonce compression
                   block_height gs = (0, q) ->
  0 <= base_target ->
  pocx_validate_block DecodeGenerationSignature CalculateQuality
    (Some hex) base_target (Some account) block_height nonce (Some seed)
    compression (Some result)
  = Some (true,
          Some (mkResult true 0 q
                  (if base_target =? 0 then 2 ^ 64 - 1 else q / base_target))).
Proof.
  intros Hdec Hq Hbt. unfold pocx_validate_block. rewrite Hdec. cbn [Z.eqb negb].
  cbv zeta. rewrite Hq. cbn [Z.eqb negb].
  destruct (Z.gtb_spec base_target 0) as [Hpos|Hle].
  - unfold udiv. destruct (Z.eqb_spec base_target 0); [lia|]. reflexivity.
  - destruct (Z.eqb_spec base_target 0); [|lia]. reflexivity.
Qed.

End ValidationFacts.

Section SchedulerFacts.
Import Scheduler.

Lemma SubmitNonce_queue_length (s : PoCXScheduler) (account_id seed : list Z)
  (nonce quality compression height gs now : Z) :
  (length (m_submission_queue s) <= MAX_QUEUE_SIZE)%nat ->
  (length (m_submission_queue
             (snd (SubmitNonce s account_id seed nonce quality compression
                               height gs now))) <= MAX_QUEUE_SIZE)%nat.
Proof.
  intros Hlen. unfold SubmitNonce. cbv zeta.
  destruct (Nat.leb_spec MAX_QUEUE_SIZE (length (m_submission_queue s))) as [Hfull|Hroom];
    cbn [snd m_submission_queue]; [assumption|].
  rewrite length_app. cbn [length]. lia.
Qed.

Lemma ProcessSubmission_queue (fuel : nat) (node_context : option NodeView)
  (s s' : PoCXScheduler) (submission : NonceSubmission) :
  snd (ProcessSubmission fuel node_context s submission) = Ret s' ->
  m_submission_queue s' = m_submission_queue s.
Proof.
  unfold ProcessSubmission.
  destruct node_context as [node|]; [|intros [= <-]; reflexivity].
  destruct (chain_tip node) as [tip|]; [|intros [= <-]; reflexivity].
  cbv zeta.
  set (swept := match m_current_forging s with
                | Some candidate =>
                    if negb (fs_tip_block_hash candidate =? tip_hash tip)
                    then (CheckDefensiveForging candidate tip,
                          mkScheduler (m_submission_queue s) None (m_shutdown s))
                    else ([], s)
                | None => ([], s)
                end).
  assert (Hq : m_submission_queue (snd swept) = m_submission_queue s).
  { unfold swept. destruct (m_current_forging s) as [candidate|]; [|reflexivity].
    destruct (negb _); reflexivity. }
  destruct swept as [events s1]. cbn [snd] in Hq.
  destruct (negb (ValidateContext _ _ _)); [intros [= <-]; exact Hq|].
  destruct (negb (IsBetterThanCurrent _ _)); [intros [= <-]; exact Hq|].
  cbn [snd].
  destruct (TimeBending.CalculateTimeBendedDeadline _ _ _ _) as [d| |];
    cbn [bind]; intros [= <-]. exact Hq.
Qed.

Lemma do_call_queue_length (s : PoCXScheduler) (c : call) :
  (length (m_submission_queue s) <= MAX_QUEUE_SIZE)%nat ->
  (length (m_submission_queue (do_call s c)) <= MAX_QUEUE_SIZE)%nat.
Proof.
  intros Hlen. destruct c; cbn [do_call].
  - apply SubmitNonce_queue_length. assumption.
  - unfold Shutdown. destruct (m_shutdown s); assumption.
  - unfold worker_take. destruct (m_shutdown s); [assumption|].
    destruct (m_submission_queue s) as [|x rest] eqn:Hq; cbn [snd m_submission_queue].
    + rewrite Hq. assumption.
    + cbn [length] in Hlen. lia.
  - destruct (snd (ProcessSubmission fuel node_context s submission)) as [s'| |] eqn:Hp;
      try assumption.
    rewrite (ProcessSubmission_queue _ _ _ _ _ Hp). assumption.
Qed.

(** No sequence of calls makes the queue longer than [MAX_QUEUE_SIZE]. *)
Lemma run_queue_length (calls : list call) :
  forall s,
    (length (m_submission_queue s) <= MAX_QUEUE_SIZE)%nat ->
    (length (m_submission_queue (run calls s)) <= MAX_QUEUE_SIZE)%nat.
Proof.
  unfold run. induction calls as [|c calls IH]; intros s Hlen; cbn [fold_left].
  - assumption.
  - apply IH, do_call_queue_length, Hlen.
Qed.

End SchedulerFacts.

(** * The claims *)

Section Claims.
Import Shabal ShabalLite Quality ArithUint256 TimeBending Difficulty
       AssignmentState Opcodes ProofValidation Scheduler.

(** Claim C1, as amended.  For every quality [q > 0], base target
    [base_target > 0] and block spacing [T > 0], all 64-bit, the deadline
    computed by [CalculateTimeBendedDeadline] is the fixed-point pipeline of the
    specification with P = 21 and Q = 42: SCALE_Q is the half-up rounding of
    [(T << 2Q) / ((cube_root (T << 3Q) * 3927365422841) >> Q)],
    [V = (q << 3P) / base_target], [r = cube_root V], and the result is the
    half-up rounding of [SCALE_Q * r / 2^(P+Q)] cut to its low 64 bits.  For
    quality 0 the function returns 0, whatever the other arguments.  The loop
    budget of the model is enough from 86 iterations on. *)
Theorem CalculateTimeBendedDeadline_refines_spec
  (fuel : nat) (q base_target T : Z) (fuel0 : nat) (base_target0 T0 : Z) :
  (86 <= fuel)%nat ->
  0 < q < 2 ^ 64 -> 0 < base_target < 2 ^ 64 -> 0 < T < 2 ^ 64 ->
  CalculateTimeBendedDeadline fuel q base_target T
  = Ret (spec_time_bent q base_target T) /\
  CalculateTimeBendedDeadline fuel0 0 base_target0 T0 = Ret 0.
Proof.
  intros Hfuel Hq Hbt HT. split.
  - apply CalculateTimeBendedDeadline_pipeline; assumption.
  - apply CalculateTimeBendedDeadline_zero.
Qed.

Lemma CalculateTimeBendedDeadline_refines_spec_witness :
  CalculateTimeBendedDeadline 86 (2 ^ 63) 7330077518 600
  = Ret (spec_time_bent (2 ^ 63) 7330077518 600) /\
  CalculateTimeBendedDeadline 0 0 0 0 = Ret 0.
Proof.
  apply (CalculateTimeBendedDeadline_refines_spec
           86 (2 ^ 63) 7330077518 600 0 0 0); lia.
Defined.

(** Claim C1 as stated fails at block spacing 0: with quality 1 and base
    target 1 the divisor of SCALE_Q is zero and the call raises instead of
    returning the value of the pipeline. *)
Lemma CalculateTimeBendedDeadline_zero_spacing :
  CalculateTimeBendedDeadline 86 1 1 0 = Throw /\
  forall fuel, CalculateTimeBendedDeadline fuel 1 1 0 <> Ret (spec_time_bent 1 1 0).
Proof.
  split; [vm_compute; reflexivity|].
  intros [|[|fuel]]; vm_compute; discriminate.
Qed.

(** Claim C2, as amended.  For every [x] with [0 <= x <= 2^255] the routine
    [int_cuberoot_u256] terminates and returns the exact floor of the cube
    root: the one [r] with [r^3 <= x < (r+1)^3], all arithmetic exact.  The
    loop budget of the model is enough from 86 iterations on. *)
Theorem int_cuberoot_u256_exact (fuel : nat) (x : Z) :
  0 <= x <= 2 ^ 255 -> (86 <= fuel)%nat ->
  exists r,
    int_cuberoot_u256 fuel x = Ret r /\
    r ^ 3 <= x < (r + 1) ^ 3 /\
    forall r', r' ^ 3 <= x < (r' + 1) ^ 3 -> r' = r.
Proof.
  intros Hx Hfuel. exists (cube_root x).
  split; [apply int_cuberoot_u256_correct; assumption|].
  destruct (cube_root_spec x) as (H0 & Hlo & Hhi); [lia|].
  split; [split; assumption|].
  intros r' [Hr1 Hr2]. apply cube_root_unique; [|split; assumption].
  destruct (Z_lt_ge_dec r' 0) as [Hneg|]; [|lia].
  exfalso.
  replace ((r' + 1) ^ 3) with ((r' + 1) * ((r' + 1) * (r' + 1))) in Hr2 by ring.
  assert (Hcube : (r' + 1) * ((r' + 1) * (r' + 1)) <= 0)
    by (apply Z.mul_nonpos_nonneg; [lia|apply Z.square_nonneg]).
  lia.
Qed.

Lemma int_cuberoot_u256_exact_witness :
  exists r,
    int_cuberoot_u256 86 (2 ^ 255) = Ret r /\
    r ^ 3 <= 2 ^ 255 < (r + 1) ^ 3 /\
    forall r', r' ^ 3 <= 2 ^ 255 < (r' + 1) ^ 3 -> r' = r.
Proof. apply (int_cuberoot_u256_exact 86 (2 ^ 255)); lia. Defined.

(** Claim C2 as stated fails above [2^255]: at the 256-bit input [2^255 + 1],
    and at every input above [2^255], the doubling loop of
    [int_cuberoot_u256] never ends, because the cube it tests is taken modulo
    [2^256] and stays below the input; no loop budget gives a result. *)
Theorem int_cuberoot_u256_loops_above_2_255 :
  (0 <= 2 ^ 255 + 1 < 2 ^ 256 /\
   forall fuel : nat, int_cuberoot_u256 fuel (2 ^ 255 + 1) = OutOfFuel) /\
  forall (x : Z) (fuel : nat), 2 ^ 255 < x -> int_cuberoot_u256 fuel x = OutOfFuel.
Proof.
  assert (Hall : forall (x : Z) (fuel : nat),
             2 ^ 255 < x -> int_cuberoot_u256 fuel x = OutOfFuel).
  { intros x fuel Hx. unfold int_cuberoot_u256.
    pose proof (grow_hi_stuck x Hx fuel 0 ltac:(lia)) as H.
    change (2 ^ 0 mod modulus) with 1 in H. rewrite H. reflexivity. }
  split; [split; [lia|]|exact Hall].
  intros fuel. apply Hall. lia.
Qed.

(** Claim C3.  For a chain whose heights count down to the genesis block, a
    positive target spacing and a positive window (the window's timespan
    fitting the signed 64-bit type), [GetNextBaseTarget] returns a value [v]
    with [0 < v <= GENESIS], where GENESIS is [2^60] (low capacity) or [2^42]
    divided by the spacing and raised to at least 1; this holds for every
    height and all base targets and timestamps in the window. *)
Theorem GetNextBaseTarget_bounds (pindexLast : list CBlockIndex) (params : Params) :
  0 < Difficulty.nPowTargetSpacing params ->
  0 < nPoCXRollingWindowSize params < 2 ^ 31 ->
  2 * (nPoCXRollingWindowSize params * Difficulty.nPowTargetSpacing params) < 2 ^ 63 ->
  chain_ok pindexLast = true ->
  Z.of_nat (length pindexLast) <= 2 ^ 31 ->
  exists v,
    GetNextBaseTarget pindexLast params = Some v /\
    0 < v <= GENESIS (Difficulty.nPowTargetSpacing params) (fPoCXLowCapacityCalibration params).
Proof. apply GetNextBaseTarget_range. Qed.

Lemma GetNextBaseTarget_bounds_witness :
  exists v,
    GetNextBaseTarget sample_chain sample_params = Some v /\
    0 < v <= GENESIS (Difficulty.nPowTargetSpacing sample_params)
                     (fPoCXLowCapacityCalibration sample_params).
Proof.
  apply (GetNextBaseTarget_bounds sample_chain sample_params);
    cbn; first [lia | reflexivity].
Defined.

(** Claim C4, as amended.  For every block height and 32-byte generation
    signature, [CalculateScoop] runs Shabal-256 with no data block and no
    pre-terminator, the terminator block being the 64-byte message
    [gensig || BE64(height) || 0x80 || 23 zero bytes] read as 16 little-endian
    words, and returns [((h[30] & 0x0F) << 8) | h[31]], which lies in
    [0, 4096); for height 0 and the pinned signature it returns 667. *)
Theorem CalculateScoop_message_is_terminator
  (block_height : Z) (generation_signature : list Z) :
  length generation_signature = 32%nat ->
  CalculateScoop block_height generation_signature
  = (let message :=
       generation_signature
       ++ map (fun i => Z.land (Z.shiftr block_height (Z.of_nat i * 8)) 0xFF)
              [7; 6; 5; 4; 3; 2; 1; 0]%nat
       ++ [0x80] ++ replicate 23 0 in
     let hash :=
       Shabal256 [] None
         (Encoding.BytesToU32LE message 64 (replicate MESSAGE_SIZE 0)) in
     Z.lor (Z.shiftl (Z.land (hash @ 30) 0x0F) 8) (hash @ 31)) /\
  0 <= CalculateScoop block_height generation_signature < NUM_SCOOPS /\
  CalculateScoop 0 gensig_S4 = 667.
Proof.
  intros Hlen. split; [|split].
  - unfold CalculateScoop. cbv zeta.
    rewrite scoop_message_layout by assumption. reflexivity.
  - apply CalculateScoop_range.
  - apply CalculateScoop_S4.
Qed.

Lemma CalculateScoop_message_is_terminator_witness :
  CalculateScoop 0 gensig_S4
  = (let message :=
       gensig_S4
       ++ map (fun i => Z.land (Z.shiftr 0 (Z.of_nat i * 8)) 0xFF)
              [7; 6; 5; 4; 3; 2; 1; 0]%nat
       ++ [0x80] ++ replicate 23 0 in
     let hash :=
       Shabal256 [] None
         (Encoding.BytesToU32LE message 64 (replicate MESSAGE_SIZE 0)) in
     Z.lor (Z.shiftl (Z.land (hash @ 30) 0x0F) 8) (hash @ 31)) /\
  0 <= CalculateScoop 0 gensig_S4 < NUM_SCOOPS /\
  CalculateScoop 0 gensig_S4 = 667.
Proof.
  apply (CalculateScoop_message_is_terminator 0 gensig_S4). reflexivity.
Defined.

(** Claim C4 as stated fails on the pinned input: hashing the message as data
    under a separate terminator [{0x80, 0, ..., 0}] gives scoop 2281, not the
    667 that [CalculateScoop] returns. *)
Lemma CalculateScoop_not_separate_terminator :
  spec_CalculateScoop 0 gensig_S4 = 2281 /\
  CalculateScoop 0 gensig_S4 <> spec_CalculateScoop 0 gensig_S4.
Proof.
  rewrite CalculateScoop_S4, spec_CalculateScoop_S4. split; [reflexivity|discriminate].
Qed.

(** Claim C5.  For 64 bytes of data and a 32-byte generation signature,
    [Shabal256Lite] is the general routine run on the 128-byte message
    [gensig || data || 0x80 || 0...]: one compression of its first block, the
    terminating compression of its second block, three closing rounds of
    swap, counter xor and permutation, and words 8 and 9 of [b] packed low
    word first.  That is the state [Shabal256] reaches with the first block as
    data and the second as terminator.  On all-zero inputs the result is
    0x9824D76D62CD4F2F. *)
Theorem Shabal256Lite_spec (data gensig : list Z) :
  length data = 64%nat -> length gensig = 32%nat ->
  Shabal256Lite data gensig
  = (let message := gensig ++ data ++ 0x80 :: replicate 31 0 in
     let s := terminate (compress init (words_of_bytes (take 64 message)))
                        (words_of_bytes (drop 64 message)) in
     Z.lor ((st_b s) @ 8) (Z.shiftl ((st_b s) @ 9) 32)) /\
  Shabal256Lite data gensig
  = (let message := gensig ++ data ++ 0x80 :: replicate 31 0 in
     let s := Shabal256_state (take 64 message) None
                              (words_of_bytes (drop 64 message)) in
     Z.lor ((st_b s) @ 8) (Z.shiftl ((st_b s) @ 9) 32)) /\
  Shabal256Lite zero_data zero_gensig = 0x9824D76D62CD4F2F.
Proof.
  intros Hd Hg. split; [|split].
  - apply Shabal256Lite_two_blocks; assumption.
  - cbv zeta. rewrite Shabal256_state_one_block.
    + apply Shabal256Lite_two_blocks; assumption.
    + rewrite length_take, !length_app, Hg, Hd. reflexivity.
  - apply Shabal256Lite_zero.
Qed.

Lemma Shabal256Lite_spec_witness :
  Shabal256Lite zero_data zero_gensig
  = (let message := zero_gensig ++ zero_data ++ 0x80 :: replicate 31 0 in
     let s := terminate (compress init (words_of_bytes (take 64 message)))
                        (words_of_bytes (drop 64 message)) in
     Z.lor ((st_b s) @ 8) (Z.shiftl ((st_b s) @ 9) 32)) /\
  Shabal256Lite zero_data zero_gensig
  = (let message := zero_gensig ++ zero_data ++ 0x80 :: replicate 31 0 in
     let s := Shabal256_state (take 64 message) None
                              (words_of_bytes (drop 64 message)) in
     Z.lor ((st_b s) @ 8) (Z.shiftl ((st_b s) @ 9) 32)) /\
  Shabal256Lite zero_data zero_gensig = 0x9824D76D62CD4F2F.
Proof.
  apply (Shabal256Lite_spec zero_data zero_gensig); reflexivity.
Defined.

(** Claim C6.  For every plot address, height and coin view, the effective
    signer is the forging address of the assignment when a record exists and
    its derived state at the height is ASSIGNING, ASSIGNED or REVOKING; with
    no record, or in state UNASSIGNED or REVOKED, it is the plot address. *)
Theorem GetEffectiveSigner_policy
  (CCoinsViewCache : Type)
  (GetForgingAssignment : CCoinsViewCache -> list Z -> Z -> option ForgingAssignment)
  (plot : list Z) (h : Z) (view : CCoinsViewCache) :
  GetEffectiveSigner CCoinsViewCache GetForgingAssignment plot h view
  = match GetForgingAssignment view plot h with
    | None => plot
    | Some a =>
        match GetAssignmentState CCoinsViewCache GetForgingAssignment plot h view with
        | ASSIGNING | ASSIGNED | REVOKING => forgingAddress a
        | UNASSIGNED | REVOKED => plot
        end
    end.
Proof.
  unfold GetEffectiveSigner, GetAssignmentState, IsActiveAtHeight. cbv zeta.
  destruct (GetForgingAssignment view plot h) as [a|]; [|reflexivity].
  destruct (GetStateAtHeight a h); reflexivity.
Qed.

(** Claim C7.  For all 20-byte [p] and [f], parsing the script built by
    [CreateAssignmentOpReturn p f] gives back [(p, f)], and parsing the script
    built by [CreateRevocationOpReturn p] gives back [p], whatever the amount
    of the output that carries the script. *)
Theorem OpReturn_roundtrip (p f : list Z) (value : Z) :
  length p = 20%nat -> length f = 20%nat ->
  ParseAssignmentOpReturn (mkTxOut value (CreateAssignmentOpReturn p f)) = Some (p, f) /\
  ParseRevocationOpReturn (mkTxOut value (CreateRevocationOpReturn p)) = Some p.
Proof.
  intros Hp Hf. split.
  - apply ParseAssignmentOpReturn_Create; assumption.
  - apply ParseRevocationOpReturn_Create; assumption.
Qed.

Lemma OpReturn_roundtrip_witness :
  ParseAssignmentOpReturn
    (mkTxOut 0 (CreateAssignmentOpReturn sample_plot sample_forge))
  = Some (sample_plot, sample_forge) /\
  ParseRevocationOpReturn (mkTxOut 0 (CreateRevocationOpReturn sample_plot))
  = Some sample_plot.
Proof.
  apply (OpReturn_roundtrip sample_plot sample_forge 0); reflexivity.
Defined.

(** Claim C8.  In one run of [ProcessSubmission], [ForgeBlock] is called for
    the held candidate exactly when a node context and a tip are there, the
    tip is not the one the candidate was built on, the tip's predecessor is
    the candidate's tip (same-height competition) and the candidate's quality
    is strictly lower than the quality recorded in the arriving block; in
    every other case (no candidate, tip unchanged, a reorg, quality not
    strictly lower) no call of [ForgeBlock] is made. *)
Theorem defensive_forging_trigger (fuel : nat) (node_context : option NodeView)
  (s : PoCXScheduler) (submission : NonceSubmission) :
  fst (ProcessSubmission fuel node_context s submission)
  = match node_context, m_current_forging s with
    | Some node, Some candidate =>
        match chain_tip node with
        | Some new_tip =>
            if negb (fs_tip_block_hash candidate =? tip_hash new_tip)
               && (tip_pprev_hash new_tip =? fs_tip_block_hash candidate)
               && (fs_quality candidate <? tip_quality new_tip)
            then [EvForgeBlock candidate]
            else []
        | None => []
        end
    | _, _ => []
    end.
Proof.
  unfold ProcessSubmission.
  destruct node_context as [node|]; [|reflexivity].
  destruct (chain_tip node) as [tip|];
    [|destruct (m_current_forging s); reflexivity].
  cbv zeta.
  destruct (m_current_forging s) as [candidate|].
  - unfold CheckDefensiveForging.
    destruct (fs_tip_block_hash candidate =? tip_hash tip); cbn [negb andb].
    + destruct (negb (ValidateContext _ _ _)); [reflexivity|].
      destruct (negb (IsBetterThanCurrent _ _)); reflexivity.
    + destruct (tip_pprev_hash tip =? fs_tip_block_hash candidate); cbn [negb andb];
        cbv zeta; destruct (fs_quality candidate <? tip_quality tip);
        destruct (negb (ValidateContext _ _ _)); try reflexivity;
        destruct (negb (IsBetterThanCurrent _ _)); reflexivity.
  - destruct (negb (ValidateContext _ _ _)); [reflexivity|].
    destruct (negb (IsBetterThanCurrent _ _)); reflexivity.
Qed.

(** Claim C9, as amended.  After any sequence of calls on a fresh scheduler
    the queue holds at most [MAX_QUEUE_SIZE = 1000] entries; [SubmitNonce] on a
    queue of 1000 returns false and leaves the scheduler as it is, and on a
    shorter queue it appends the submission and returns true, whether or not
    [Shutdown] was called before. *)
Theorem SubmitNonce_bounded (calls : list call) (account_id seed : list Z)
  (nonce quality compression height gs now : Z) :
  let s := run calls initial in
  MAX_QUEUE_SIZE = 1000%nat /\
  (length (m_submission_queue s) <= MAX_QUEUE_SIZE)%nat /\
  SubmitNonce s account_id seed nonce quality compression height gs now
  = if (length (m_submission_queue s) =? MAX_QUEUE_SIZE)%nat
    then (false, s)
    else (true,
          mkScheduler
            (m_submission_queue s
             ++ [mkSubmission account_id seed nonce quality compression height gs now])
            (m_current_forging s) (m_shutdown s)).
Proof.
  intros s.
  assert (Hlen : (length (m_submission_queue s) <= MAX_QUEUE_SIZE)%nat).
  { apply run_queue_length. cbn. lia. }
  split; [reflexivity|]. split; [assumption|].
  unfold SubmitNonce. cbv zeta.
  destruct (Nat.leb_spec MAX_QUEUE_SIZE (length (m_submission_queue s)));
    destruct (Nat.eqb_spec (length (m_submission_queue s)) MAX_QUEUE_SIZE);
    try reflexivity; lia.
Qed.

(** Claim C9 as stated fails after [Shutdown]: on a shut-down scheduler with
    room in the queue, [SubmitNonce] still appends and returns true. *)
Lemma SubmitNonce_after_Shutdown :
  SubmitNonce (Shutdown initial) [] [] 0 0 0 0 0 0
  = (true, mkScheduler [mkSubmission [] [] 0 0 0 0 0 0] None true).
Proof. reflexivity. Qed.

(** Claim C10.  [pocx_validate_block] never divides by zero, whatever its
    arguments; with valid pointers, a decoded signature and a computed quality
    [q] it returns true with [is_valid] set, and the deadline it reports is the
    plain quotient [q / base_target] for a positive base target and
    [2^64 - 1] for base target 0. *)
Theorem pocx_validate_block_deadline
  (DecodeGenerationSignature : list Z -> Z * list Z)
  (CalculateQuality : list Z -> list Z -> Z -> Z -> Z -> list Z -> Z * Z)
  (hex account seed : list Z) (base_target block_height nonce compression : Z)
  (result : ValidationResult) (gs : list Z) (q : Z)
  (hex0 account0 seed0 : option (list Z)) (base_target0 block_height0 nonce0
   compression0 : Z) (result0 : option ValidationResult) :
  DecodeGenerationSignature hex = (0, gs) ->
  CalculateQuality (take 20 account) (take 32 seed) nonce compression
                   block_height gs = (0, q) ->
  0 <= base_target ->
  pocx_validate_block DecodeGenerationSignature CalculateQuality
    hex0 base_target0 account0 block_height0 nonce0 seed0 compression0 result0
  <> None /\
  pocx_validate_block DecodeGenerationSignature CalculateQuality
    (Some hex) base_target (Some account) block_height nonce (Some seed)
    compression (Some result)
  = Some (true,
          Some (mkResult true 0 q
                  (if base_target =? 0 then 2 ^ 64 - 1 else q / base_target))).
Proof.
  intros Hdec Hq Hbt. split.
  - apply pocx_validate_block_defined.
  - apply pocx_validate_block_success with (gs := gs); assumption.
Qed.

Lemma pocx_validate_block_deadline_witness :
  pocx_validate_block decode_ok quality_ok None 0 None 0 0 None 0 None <> None /\
  pocx_validate_block decode_ok quality_ok
    (Some gensig_S4) 0 (Some sample_plot) 0 0 (Some zero_gensig) 1 (Some fresh_result)
  = Some (true,
          Some (mkResult true 0 1000000
                  (if 0 =? 0 then 2 ^ 64 - 1 else 1000000 / 0))).
Proof.
  apply (pocx_validate_block_deadline decode_ok quality_ok
           gensig_S4 sample_plot zero_gensig 0 0 0 1 fresh_result gensig_S4 1000000
           None None None 0 0 0 0 None);
    first [reflexivity | lia].
Defined.

End Claims.

(** * Further properties *)

(** ** Time bending *)

Section TimeBendingMore.
Import ArithUint256 TimeBending.

Lemma cube_root_mono (x y : Z) : 0 <= x -> x <= y -> cube_root x <= cube_root y.
Proof.
  intros Hx Hxy. destruct (cube_root_spec x Hx) as (H0 & Hlo & _).
  apply cube_root_ge; lia.
Qed.

Lemma round_half_up_mono (n m d : Z) :
  0 < d -> n <= m -> round_half_up n d <= round_half_up m d.
Proof. intros Hd Hnm. unfold round_half_up. apply Z.div_le_mono; lia. Qed.

Lemma round_half_up_bound (n d : Z) :
  0 <= n -> 0 < d -> 0 <= round_half_up n d <= n / d + 1.
Proof.
  intros Hn Hd. unfold round_half_up. split.
  - apply Z.div_pos; lia.
  - pose proof (Z.div_mod n d ltac:(lia)) as Hdm.
    pose proof (Z.mod_pos_bound n d Hd) as Hmb.
    apply Z.lt_succ_r. apply Z.div_lt_upper_bound; [lia|]. nia.
Qed.

(** For spacings below 2^32 the scale factor stays below 2^76. *)
Lemma spec_SCALE_Q_bound (T : Z) :
  0 < T < 2 ^ 32 -> 0 <= spec_SCALE_Q T < 2 ^ 76.
Proof.
  intros HT. unfold spec_SCALE_Q. cbv zeta.
  rewrite !Z.shiftl_mul_pow2, Z.shiftr_div_pow2 by lia.
  change (2 * 42) with 84. change (3 * 42) with 126.
  set (c := cube_root (T * 2 ^ 126)).
  assert (Hc : 2 ^ 42 <= c).
  { apply cube_root_ge; [lia|]. rewrite pow2_cube by lia. change (3 * 42) with 126.
    nia. }
  set (d := c * 3927365422841 / 2 ^ 42).
  assert (Hd : 3927365422841 <= d).
  { unfold d. apply Z.div_le_lower_bound; [lia|]. nia. }
  destruct (round_half_up_bound (T * 2 ^ 84) d ltac:(lia) ltac:(lia)) as [Hlo Hhi].
  split; [assumption|].
  assert (T * 2 ^ 84 / d <= T * 2 ^ 84 / 3927365422841)
    by (apply Z.div_le_compat_l; lia).
  assert (T * 2 ^ 84 / 3927365422841 < 2 ^ 75).
  { apply Z.div_lt_upper_bound; [lia|]. lia. }
  lia.
Qed.

(** The cube root taken of the scaled quality stays below 2^43. *)
Lemma quality_root_bound (q base_target : Z) :
  0 <= q < 2 ^ 64 -> 0 < base_target ->
  0 <= cube_root (Z.shiftl q (3 * 21) / base_target) < 2 ^ 43.
Proof.
  intros Hq Hb. rewrite Z.shiftl_mul_pow2 by lia. change (3 * 21) with 63.
  assert (HV : 0 <= q * 2 ^ 63 / base_target) by (apply Z.div_pos; lia).
  assert (q * 2 ^ 63 / base_target <= q * 2 ^ 63 / 1)
    by (apply Z.div_le_compat_l; lia).
  rewrite Z.div_1_r in *.
  split; [apply cube_root_spec; assumption|].
  apply cube_root_lt; [assumption|lia|]. rewrite pow2_cube by lia. lia.
Qed.

(** Below 2^32 seconds of spacing the deadline is not cut by the final
    truncation to 64 bits. *)
Lemma spec_time_bent_no_wrap (q base_target T : Z) :
  0 <= q < 2 ^ 64 -> 0 < base_target -> 0 < T < 2 ^ 32 ->
  spec_time_bent q base_target T
  = round_half_up (spec_SCALE_Q T * cube_root (Z.shiftl q (3 * 21) / base_target))
                  (2 ^ 63).
Proof.
  intros Hq Hb HT. unfold spec_time_bent. cbv zeta. change (21 + 42) with 63.
  pose proof (spec_SCALE_Q_bound T HT) as HS.
  pose proof (quality_root_bound q base_target Hq Hb) as Hr.
  set (S := spec_SCALE_Q T) in *.
  set (r := cube_root (Z.shiftl q (3 * 21) / base_target)) in *.
  destruct (round_half_up_bound (S * r) (2 ^ 63) ltac:(nia) ltac:(lia)) as [Hlo Hhi].
  apply Z.mod_small. split; [assumption|].
  assert (S * r / 2 ^ 63 < 2 ^ 56) by (apply Z.div_lt_upper_bound; [lia|nia]).
  lia.
Qed.

(** X1.  For every [x] up to 2^255 the cube-root routine returns, and what it
    returns is the floor of the real cube root: the one [r >= 0] with
    [r^3 <= x < (r+1)^3]. *)
Theorem int_cuberoot_u256_floor (fuel : nat) (x : Z) :
  0 <= x <= 2 ^ 255 -> (86 <= fuel)%nat ->
  exists r, int_cuberoot_u256 fuel x = Ret r /\ 0 <= r /\ r ^ 3 <= x < (r + 1) ^ 3.
Proof.
  intros Hx Hf. exists (cube_root x). split.
  - apply int_cuberoot_u256_correct; assumption.
  - apply cube_root_spec. lia.
Qed.

Lemma int_cuberoot_u256_floor_witness :
  exists r, int_cuberoot_u256 86 1000 = Ret r /\ 0 <= r /\ r ^ 3 <= 1000 < (r + 1) ^ 3.
Proof. apply (int_cuberoot_u256_floor 86 1000); lia. Defined.

(** X2.  A zero base target makes the deadline transform raise: for a non-zero
    quality the scaled quality is divided by [base_target] in 256-bit
    arithmetic, and no guard precedes the division. *)
Theorem CalculateTimeBendedDeadline_zero_base_target (fuel : nat) (q T : Z) :
  (86 <= fuel)%nat -> 0 < q < 2 ^ 64 -> 0 < T < 2 ^ 64 ->
  CalculateTimeBendedDeadline fuel q 0 T = Throw.
Proof.
  intros Hf Hq HT. unfold CalculateTimeBendedDeadline.
  destruct (Z.eqb_spec q 0) as [|_]; [lia|].
  destruct (calculate_qscale_uint_spec fuel T Hf HT) as [-> _].
  reflexivity.
Qed.

Lemma CalculateTimeBendedDeadline_zero_base_target_witness :
  CalculateTimeBendedDeadline 86 1000 0 120 = Throw.
Proof. apply (CalculateTimeBendedDeadline_zero_base_target 86 1000 120); lia. Defined.

(** X3.  The deadline is monotone: with the spacing fixed (below 2^32
    seconds), a lower quality never gives a later deadline, and neither does a
    higher base target. *)
Theorem CalculateTimeBendedDeadline_monotone
  (fuel : nat) (q1 q2 base_target1 base_target2 T : Z) :
  (86 <= fuel)%nat ->
  0 <= q1 -> q1 <= q2 -> q2 < 2 ^ 64 ->
  0 < base_target2 -> base_target2 <= base_target1 -> base_target1 < 2 ^ 64 ->
  0 < T < 2 ^ 32 ->
  exists d1 d2,
    CalculateTimeBendedDeadline fuel q1 base_target1 T = Ret d1 /\
    CalculateTimeBendedDeadline fuel q2 base_target2 T = Ret d2 /\
    d1 <= d2.
Proof.
  intros Hf Hq1 Hq12 Hq2 Hb2 Hb21 Hb1 HT.
  pose proof (spec_SCALE_Q_bound T HT) as HS.
  assert (Hd2 : exists d2,
             CalculateTimeBendedDeadline fuel q2 base_target2 T = Ret d2 /\
             (q2 = 0 -> d2 = 0) /\
             (0 < q2 -> d2 = spec_time_bent q2 base_target2 T)).
  { destruct (Z.eq_dec q2 0) as [->|Hnz].
    - exists 0. split; [apply CalculateTimeBendedDeadline_zero|]. split; [reflexivity|lia].
    - eexists. split; [apply CalculateTimeBendedDeadline_pipeline; lia|].
      split; [lia|reflexivity]. }
  destruct Hd2 as (d2 & Hr2 & Hz2 & Hp2).
  destruct (Z.eq_dec q1 0) as [->|Hnz1].
  - exists 0, d2. split; [apply CalculateTimeBendedDeadline_zero|].
    split; [assumption|].
    destruct (Z.eq_dec q2 0) as [Hq20|Hq20]; [rewrite Hz2 by assumption; lia|].
    rewrite Hp2 by lia. rewrite spec_time_bent_no_wrap by lia.
    pose proof (quality_root_bound q2 base_target2 ltac:(lia) Hb2) as Hr.
    apply round_half_up_bound; [nia|lia].
  - exists (spec_time_bent q1 base_target1 T), d2.
    split; [apply CalculateTimeBendedDeadline_pipeline; lia|].
    split; [assumption|].
    rewrite Hp2 by lia. rewrite !spec_time_bent_no_wrap by lia.
    apply round_half_up_mono; [lia|].
    apply Z.mul_le_mono_nonneg_l; [lia|].
    apply cube_root_mono.
    + apply Z.div_pos; [|lia]. rewrite Z.shiftl_mul_pow2 by lia. lia.
    + rewrite !Z.shiftl_mul_pow2 by lia.
      transitivity (q1 * 2 ^ (3 * 21) / base_target2).
      * apply Z.div_le_compat_l; lia.
      * apply Z.div_le_mono; lia.
Qed.

Lemma CalculateTimeBendedDeadline_monotone_witness :
  exists d1 d2,
    CalculateTimeBendedDeadline 86 1000000 7330077518 120 = Ret d1 /\
    CalculateTimeBendedDeadline 86 2000000 7000000000 120 = Ret d2 /\
    d1 <= d2.
Proof.
  apply (CalculateTimeBendedDeadline_monotone 86 1000000 2000000 7330077518 7000000000 120);
    lia.
Defined.

End TimeBendingMore.

(** ** Difficulty schedule and compression bounds *)

Section DifficultyMore.
Import Difficulty.

(** The if-chain of [GetPoCXCompressionBounds] read from the last test back. *)
Lemma GetPoCXCompressionBounds_shape (h I : Z) :
  - 2 ^ 63 <= 31 * I < 2 ^ 63 ->
  GetPoCXCompressionBounds h I
  = let m := if 31 * I <=? h then 6
             else if 15 * I <=? h then 5
             else if 7 * I <=? h then 4
             else if 3 * I <=? h then 3
             else if I <=? h then 2 else 1 in
    Some (mkBounds m (m + 1)).
Proof.
  intros HI. unfold GetPoCXCompressionBounds.
  change (Z.quot 4 4) with 1. change (Z.quot 12 4) with 3.
  change (Z.quot 28 4) with 7. change (Z.quot 60 4) with 15.
  change (Z.quot 124 4) with 31.
  rewrite !i64_ok by lia. rewrite !Z.geb_leb. rewrite Z.mul_1_l.
  destruct (I <=? h), (3 * I <=? h), (7 * I <=? h), (15 * I <=? h), (31 * I <=? h);
    reflexivity.
Qed.

Ltac split_levels :=
  repeat match goal with
         | |- context [?a <=? ?b] => destruct (Z.leb_spec a b)
         end.

(** X4.  The minimum compression level never falls as the chain grows, stays
    within 1..6, and the target level is always one above it. *)
Theorem GetPoCXCompressionBounds_monotone (h1 h2 I : Z) :
  - 2 ^ 63 <= 31 * I < 2 ^ 63 -> h1 <= h2 ->
  exists b1 b2,
    GetPoCXCompressionBounds h1 I = Some b1 /\
    GetPoCXCompressionBounds h2 I = Some b2 /\
    1 <= nPoCXMinCompression b1 /\
    nPoCXMinCompression b1 <= nPoCXMinCompression b2 /\
    nPoCXMinCompression b2 <= 6 /\
    nPoCXTargetCompression b1 = nPoCXMinCompression b1 + 1 /\
    nPoCXTargetCompression b2 = nPoCXMinCompression b2 + 1.
Proof.
  intros HI Hh. rewrite !GetPoCXCompressionBounds_shape by assumption.
  cbv zeta. eexists. eexists. split; [reflexivity|]. split; [reflexivity|].
  cbn [nPoCXMinCompression nPoCXTargetCompression].
  split; [|split; [|split; [|split; reflexivity]]].
  - split_levels; lia.
  - split_levels; lia.
  - split_levels; lia.
Qed.

Lemma GetPoCXCompressionBounds_monotone_witness :
  exists b1 b2,
    GetPoCXCompressionBounds 100000 210000 = Some b1 /\
    GetPoCXCompressionBounds 700000 210000 = Some b2 /\
    1 <= nPoCXMinCompression b1 /\
    nPoCXMinCompression b1 <= nPoCXMinCompression b2 /\
    nPoCXMinCompression b2 <= 6 /\
    nPoCXTargetCompression b1 = nPoCXMinCompression b1 + 1 /\
    nPoCXTargetCompression b2 = nPoCXMinCompression b2 + 1.
Proof. apply (GetPoCXCompressionBounds_monotone 100000 700000 210000); lia. Defined.

(** X5.  The steps sit at [2^k - 1] halving intervals: for a positive interval
    [I], the minimum level is [k + 1] exactly from height [(2^k - 1) * I] up
    to the next step, and 6 from [31 * I] on. *)
Theorem GetPoCXCompressionBounds_schedule (h I k : Z) :
  0 < I -> 31 * I < 2 ^ 63 -> 0 <= k <= 5 ->
  (2 ^ k - 1) * I <= h -> (k = 5 \/ h < (2 ^ (k + 1) - 1) * I) ->
  exists b,
    GetPoCXCompressionBounds h I = Some b /\
    nPoCXMinCompression b = k + 1 /\ nPoCXTargetCompression b = k + 2.
Proof.
  intros HI HI63 Hk Hlo Hhi. rewrite GetPoCXCompressionBounds_shape by lia.
  cbv zeta. eexists. split; [reflexivity|].
  cbn [nPoCXMinCompression nPoCXTargetCompression].
  assert (Hcases : k = 0 \/ k = 1 \/ k = 2 \/ k = 3 \/ k = 4 \/ k = 5) by lia.
  destruct Hcases as [->|[->|[->|[->|[->| ->]]]]];
    cbn in Hlo, Hhi; split_levels; lia.
Qed.

Lemma GetPoCXCompressionBounds_schedule_witness :
  exists b,
    GetPoCXCompressionBounds 700000 210000 = Some b /\
    nPoCXMinCompression b = 2 + 1 /\ nPoCXTargetCompression b = 2 + 2.
Proof.
  apply (GetPoCXCompressionBounds_schedule 700000 210000 2); cbn; lia.
Defined.

(** X6.  A spacing that is not positive: zero divides by zero, and a negative one
    is read as a huge unsigned divisor, so the quotient 0 is lifted to 1. *)
Theorem CalculateGenesisBaseTarget_nonpositive (spacing : Z) (low : bool) :
  - 2 ^ 63 <= spacing <= 0 ->
  CalculateGenesisBaseTarget spacing low = if spacing =? 0 then None else Some 1.
Proof.
  intros Hs. unfold CalculateGenesisBaseTarget.
  destruct (Z.eqb_spec spacing 0) as [->|Hnz]; [reflexivity|].
  assert (Hu : u64 spacing = spacing + 2 ^ 64).
  { unfold u64. symmetry. apply Z.mod_unique with (q := -1); lia. }
  rewrite Hu. rewrite udiv64_ok by lia.
  assert (Hq : (if low then POWER_60 else POWER_42) / (spacing + 2 ^ 64) = 0).
  { apply Z.div_small. unfold POWER_60, POWER_42. destruct low; lia. }
  rewrite Hq. reflexivity.
Qed.

Lemma CalculateGenesisBaseTarget_nonpositive_witness :
  CalculateGenesisBaseTarget (-600) false = if -600 =? 0 then None else Some 1.
Proof. apply (CalculateGenesisBaseTarget_nonpositive (-600) false). lia. Defined.

(** The four closing clamps keep the result within a fifth of the previous
    base target, except where the genesis cap or the floor of 1 moves it. *)
Lemma clamp_step (new prev genesis : Z) :
  0 <= new -> 0 <= prev <= 2 ^ 63 -> 1 <= genesis ->
  let max_increase := u64 (prev + prev / 5) in
  let max_decrease := u64 (prev - prev / 5) in
  let new := if new >? max_increase then max_increase else new in
  let new := if new <? max_decrease then max_decrease else new in
  let new := if new >? genesis then genesis else new in
  let new := if new =? 0 then 1 else new in
  Z.min genesis (prev - prev / 5) <= new <= Z.max 1 (prev + prev / 5).
Proof.
  intros Hn Hp Hg. cbv zeta.
  assert (H5 : 0 <= prev / 5 <= prev /\ prev / 5 <= 2 ^ 61).
  { split; [split|]; [apply Z.div_pos; lia| |]; apply Z.div_le_upper_bound; lia. }
  rewrite (u64_small (prev + prev / 5)) by lia.
  rewrite (u64_small (prev - prev / 5)) by lia.
  set (n1 := if new >? prev + prev / 5 then prev + prev / 5 else new).
  assert (Hn1 : 0 <= n1 <= prev + prev / 5)
    by (unfold n1; destruct (Z.gtb_spec new (prev + prev / 5)); lia).
  clearbody n1.
  set (n2 := if n1 <? prev - prev / 5 then prev - prev / 5 else n1).
  assert (Hn2 : prev - prev / 5 <= n2 <= prev + prev / 5)
    by (unfold n2; destruct (Z.ltb_spec n1 (prev - prev / 5)); lia).
  clearbody n2.
  set (n3 := if n2 >? genesis then genesis else n2).
  assert (Hn3 : Z.min genesis (prev - prev / 5) <= n3 <= prev + prev / 5)
    by (unfold n3; destruct (Z.gtb_spec n2 genesis); lia).
  clearbody n3.
  destruct (Z.eqb_spec n3 0); lia.
Qed.

(** Above the genesis block the schedule returns, and its result is the
    clamped value of some non-negative candidate. *)
Lemma GetNextBaseTarget_clamped (last : CBlockIndex) (pprev : list CBlockIndex)
  (params : Params) :
  0 < nPowTargetSpacing params ->
  0 < nPoCXRollingWindowSize params < 2 ^ 31 ->
  2 * (nPoCXRollingWindowSize params * nPowTargetSpacing params) < 2 ^ 63 ->
  chain_ok (last :: pprev) = true ->
  Z.of_nat (length (last :: pprev)) <= 2 ^ 31 ->
  nHeight last <> 0 ->
  exists new,
    0 <= new /\
    GetNextBaseTarget (last :: pprev) params
    = Some
        (let prev_base_target := nBaseTarget last in
         let genesis_base_target :=
           GENESIS (nPowTargetSpacing params) (fPoCXLowCapacityCalibration params) in
         let max_increase := u64 (prev_base_target + prev_base_target / 5) in
         let max_decrease := u64 (prev_base_target - prev_base_target / 5) in
         let new := if new >? max_increase then max_increase else new in
         let new := if new <? max_decrease then max_decrease else new in
         let new := if new >? genesis_base_target then genesis_base_target else new in
         let new := if new =? 0 then 1 else new in
         new).
Proof.
  intros Hsp Hwin Hprod Hok Hlen Hnz.
  pose proof (chain_ok_height _ Hok) as Hh.
  cbn [length] in Hh, Hlen.
  set (spacing := nPowTargetSpacing params) in *.
  set (window := nPoCXRollingWindowSize params) in *.
  assert (Hsp63 : 0 < spacing < 2 ^ 63) by nia.
  unfold GetNextBaseTarget. fold spacing. fold window.
  rewrite CalculateGenesisBaseTarget_spec by assumption.
  destruct (Z.eqb_spec (nHeight last) 0) as [Hz|_]; [contradiction|].
  set (lookback := Z.min window (nHeight last)).
  assert (Hlb : 1 <= lookback <= nHeight last /\ lookback <= window)
    by (unfold lookback; lia).
  rewrite i32_ok by lia. rewrite i32_ok by lia.
  assert (Hanc : GetAncestor (last :: pprev) (nHeight last - lookback + 1) <> []).
  { unfold GetAncestor.
    destruct (Z.gtb_spec (nHeight last - lookback + 1) (nHeight last)); [lia|].
    destruct (Z.ltb_spec (nHeight last - lookback + 1) 0); [lia|].
    cbn [orb]. apply walk_to_found; [assumption|lia|lia]. }
  destruct (GetAncestor (last :: pprev) (nHeight last - lookback + 1))
    as [|first rest]; [contradiction|].
  assert (Htt : 0 < lookback * spacing /\ 2 * (lookback * spacing) < 2 ^ 63) by nia.
  rewrite i64_ok by lia.
  replace (lookback * spacing * 2) with (2 * (lookback * spacing)) by ring.
  rewrite i64_ok by lia.
  rewrite (u64_small lookback) by lia. rewrite udiv64_ok by lia.
  rewrite (u64_small (lookback * spacing)) by lia. rewrite udiv64_ok by lia.
  eexists. split; cycle 1.
  - reflexivity.
  - apply Z.div_pos; [apply u64_nonneg|lia].
Qed.

(** X7.  The next base target differs from the previous block's by at most a
    fifth of it (rounded down), unless the genesis cap lowers it further or the
    floor of 1 lifts it. *)
Theorem GetNextBaseTarget_step_cap (last : CBlockIndex) (pprev : list CBlockIndex)
  (params : Params) :
  0 < nPowTargetSpacing params ->
  0 < nPoCXRollingWindowSize params < 2 ^ 31 ->
  2 * (nPoCXRollingWindowSize params * nPowTargetSpacing params) < 2 ^ 63 ->
  chain_ok (last :: pprev) = true ->
  Z.of_nat (length (last :: pprev)) <= 2 ^ 31 ->
  nHeight last <> 0 ->
  0 <= nBaseTarget last <= 2 ^ 63 ->
  exists v,
    GetNextBaseTarget (last :: pprev) params = Some v /\
    Z.min (GENESIS (nPowTargetSpacing params) (fPoCXLowCapacityCalibration params))
          (nBaseTarget last - nBaseTarget last / 5) <= v /\
    v <= Z.max 1 (nBaseTarget last + nBaseTarget last / 5).
Proof.
  intros Hsp Hwin Hprod Hok Hlen Hnz Hprev.
  destruct (GetNextBaseTarget_clamped last pprev params Hsp Hwin Hprod Hok Hlen Hnz)
    as (new & Hnew & ->).
  eexists. split; [reflexivity|].
  apply clamp_step; [assumption|assumption|unfold GENESIS; lia].
Qed.

Lemma GetNextBaseTarget_step_cap_witness :
  exists v,
    GetNextBaseTarget sample_chain sample_params = Some v /\
    Z.min (GENESIS 600 false) (7000000000 - 7000000000 / 5) <= v /\
    v <= Z.max 1 (7000000000 + 7000000000 / 5).
Proof.
  apply (GetNextBaseTarget_step_cap (mkIndex 3 1900 7000000000)
           [mkIndex 2 1300 7100000000; mkIndex 1 600 7330077518;
            mkIndex 0 0 7330077518] sample_params);
    cbn; try reflexivity; lia.
Defined.

Lemma genesis_product (b T : Z) (low : bool) :
  0 < T < 2 ^ 62 -> 0 <= b <= GENESIS T low -> b * T < 2 ^ 62.
Proof.
  intros HT Hb. unfold GENESIS in Hb.
  set (P := if low then 2 ^ 60 else 2 ^ 42) in *.
  assert (HP : 0 < P <= 2 ^ 60) by (unfold P; destruct low; lia).
  assert (Hq : P / T * T <= P) by (rewrite Z.mul_comm; apply Z.mul_div_le; lia).
  assert (0 <= P / T) by (apply Z.div_pos; lia).
  destruct (Z.max_spec 1 (P / T)) as [[_ Hm]|[_ Hm]]; rewrite Hm in Hb; nia.
Qed.

(** X8.  The block after block 1 always takes the full downward step: with the
    chain at height 1 the window holds that block alone, its timespan is 0 and
    is lifted to half the spacing, so whatever the block times are the next
    base target is the previous one less a fifth. *)
Theorem GetNextBaseTarget_second_block (blk1 : CBlockIndex)
  (pprev : list CBlockIndex) (params : Params) :
  nHeight blk1 = 1 ->
  2 <= nPowTargetSpacing params < 2 ^ 62 ->
  1 <= nPoCXRollingWindowSize params ->
  1 <= nBaseTarget blk1
    <= GENESIS (nPowTargetSpacing params) (fPoCXLowCapacityCalibration params) ->
  GetNextBaseTarget (blk1 :: pprev) params
  = Some (nBaseTarget blk1 - nBaseTarget blk1 / 5).
Proof.
  intros Hh HT Hw Hb.
  assert (Hprod : nBaseTarget blk1 * nPowTargetSpacing params < 2 ^ 62)
    by (apply genesis_product with (low := fPoCXLowCapacityCalibration params); lia).
  set (T := nPowTargetSpacing params) in *.
  set (b := nBaseTarget blk1) in *.
  set (G := GENESIS T (fPoCXLowCapacityCalibration params)) in *.
  unfold GetNextBaseTarget. fold T. fold b.
  rewrite CalculateGenesisBaseTarget_spec by lia. fold G.
  rewrite Hh. change (1 =? 0) with false. cbv iota.
  rewrite (Z.min_r (nPoCXRollingWindowSize params) 1) by lia.
  change (1 - 1) with 0. change (i32 0) with (Some 0). cbv iota beta.
  change (0 + 1) with 1. change (i32 1) with (Some 1). cbv iota beta.
  unfold GetAncestor, walk_to. rewrite Hh.
  change ((1 >? 1) || (1 <? 0)) with false. change (1 =? 1) with true. cbv iota.
  unfold GetBlockTime. rewrite Z.sub_diag.
  rewrite Z.mul_1_l. rewrite i64_ok by lia. 
  rewrite Z.quot_div_nonneg by lia.
  assert (Hhalf : 1 <= T / 2 /\ 2 * (T / 2) <= T).
  { split; [apply Z.div_le_lower_bound; lia|apply Z.mul_div_le; lia]. }
  destruct (Z.eqb_spec (T / 2) 0) as [|_]; [lia|].
  destruct (Z.ltb_spec 0 (T / 2)) as [_|]; [|lia].
  rewrite i64_ok by lia. cbv beta iota.
  destruct (Z.gtb_spec (T / 2) (T * 2)) as [|_]; [lia|].
  change (Z.to_nat 1) with 1%nat. cbn [sum_window]. fold b.
  rewrite Z.add_0_l. change (u64 1) with 1.
  rewrite (u64_small b) by lia. rewrite udiv64_ok by lia. rewrite Z.div_1_r.
  rewrite (u64_small (T / 2)) by lia. rewrite (u64_small T) by lia.
  rewrite (u64_small (b * (T / 2))) by nia. rewrite udiv64_ok by lia.
  assert (Hb61 : b < 2 ^ 61) by nia.
  assert (H5 : 0 <= b / 5 /\ 5 * (b / 5) <= b).
  { split; [apply Z.div_pos; lia|apply Z.mul_div_le; lia]. }
  rewrite (u64_small (b + b / 5)) by lia. rewrite (u64_small (b - b / 5)) by lia.
  set (new := b * (T / 2) / T).
  assert (Hnew : 0 <= new /\ 2 * new <= b).
  { unfold new. split; [apply Z.div_pos; nia|].
    assert (b * (T / 2) / T * T <= b * (T / 2))
      by (rewrite Z.mul_comm; apply Z.mul_div_le; lia).
    nia. }
  clearbody new.
  destruct (Z.gtb_spec new (b + b / 5)) as [|_]; [lia|].
  assert (Hdec : (if new <? b - b / 5 then b - b / 5 else new) = b - b / 5)
    by (destruct (Z.ltb_spec new (b - b / 5)); lia).
  rewrite Hdec.
  destruct (Z.gtb_spec (b - b / 5) G) as [|_]; [lia|].
  destruct (Z.eqb_spec (b - b / 5) 0) as [|_]; [lia|].
  reflexivity.
Qed.

Lemma GetNextBaseTarget_second_block_witness :
  GetNextBaseTarget [mkIndex 1 600 7330077518; mkIndex 0 0 7330077518] sample_params
  = Some (7330077518 - 7330077518 / 5).
Proof.
  apply (GetNextBaseTarget_second_block (mkIndex 1 600 7330077518)
           [mkIndex 0 0 7330077518] sample_params).
  - reflexivity.
  - cbn. lia.
  - cbn. lia.
  - vm_compute. split; discriminate.
Defined.

(** The block found by following [pprev] sits at the height asked for and
    belongs to the chain. *)
Lemma walk_to_head (pindex : list CBlockIndex) (height : Z)
  (first : CBlockIndex) (rest : list CBlockIndex) :
  walk_to pindex height = first :: rest ->
  nHeight first = height /\ In first pindex.
Proof.
  induction pindex as [|blk pprev IH]; cbn [walk_to]; [discriminate|].
  destruct (Z.eqb_spec (nHeight blk) height) as [He|Hne].
  - intros [= <- _]. split; [assumption|left; reflexivity].
  - intros H. destruct (IH H) as [Hh Hin]. split; [assumption|right; assumption].
Qed.

(** Summing a window in which every block carries the base target [b]. *)
Lemma sum_window_constant (b : Z) (n : nat) :
  forall (walker : list CBlockIndex) (total : Z),
    (n <= length walker)%nat ->
    Forall (fun blk => nBaseTarget blk = b) walker ->
    0 <= b -> 0 <= total -> total + Z.of_nat n * b < 2 ^ 64 ->
    sum_window n walker total = total + Z.of_nat n * b.
Proof.
  induction n as [|n IH]; intros walker total Hlen Hall Hb Ht Hsum.
  - cbn [sum_window]. lia.
  - destruct walker as [|blk pprev]; [cbn in Hlen; lia|].
    cbn [sum_window]. apply Forall_cons in Hall. destruct Hall as [Hblk Hall].
    rewrite Hblk. rewrite u64_small by nia.
    rewrite IH; [lia| | | | |].
    + cbn [length] in Hlen. lia.
    + assumption.
    + assumption.
    + lia.
    + lia.
Qed.

(** X9.  A chain that keeps its schedule exactly loses base target all the same:
    with every block [nPowTargetSpacing] after its predecessor and every base
    target equal to [b], the window of [L] blocks spans [L - 1] spacings but is
    measured against [L] of them, so the next base target is
    [max (b * (L - 1) / L) (b - b / 5)], strictly below [b].  This is for base
    targets with [b * (L * spacing) < 2^64], which keeps the 64-bit product of
    the average base target and the actual timespan from wrapping. *)
Theorem GetNextBaseTarget_on_schedule (last : CBlockIndex)
  (pprev : list CBlockIndex) (params : Params) (b t0 : Z) :
  0 < nPowTargetSpacing params ->
  2 <= nPoCXRollingWindowSize params < 2 ^ 31 ->
  2 * (nPoCXRollingWindowSize params * nPowTargetSpacing params) < 2 ^ 63 ->
  chain_ok (last :: pprev) = true ->
  Z.of_nat (length (last :: pprev)) <= 2 ^ 31 ->
  2 <= nHeight last ->
  Forall (fun blk => nBaseTarget blk = b /\
                     nTime blk = t0 + nHeight blk * nPowTargetSpacing params)
         (last :: pprev) ->
  5 <= b <= GENESIS (nPowTargetSpacing params) (fPoCXLowCapacityCalibration params) ->
  b * (Z.min (nPoCXRollingWindowSize params) (nHeight last)
       * nPowTargetSpacing params) < 2 ^ 64 ->
  exists v,
    GetNextBaseTarget (last :: pprev) params = Some v /\
    v = Z.max (b * (Z.min (nPoCXRollingWindowSize params) (nHeight last) - 1)
               / Z.min (nPoCXRollingWindowSize params) (nHeight last))
              (b - b / 5) /\
    v < b.
Proof.
  intros HT Hwin Hprod Hok Hlen Hh Hall Hb Hwrap.
  set (T := nPowTargetSpacing params) in *.
  set (L := Z.min (nPoCXRollingWindowSize params) (nHeight last)) in *.
  pose proof (chain_ok_height _ Hok) as Hhl.
  cbn [length] in Hhl, Hlen.
  set (window := nPoCXRollingWindowSize params) in *.
  assert (HT63 : 0 < T < 2 ^ 63) by nia.
  assert (HL : 2 <= L <= nHeight last /\ L <= window) by (unfold L; lia).
  assert (HLb : L * b < 2 ^ 64).
  { assert (L * b * 1 <= L * b * T) by (apply Z.mul_le_mono_nonneg_l; lia). lia. }
  assert (Hlast : nBaseTarget last = b /\ nTime last = t0 + nHeight last * T).
  { apply Forall_cons in Hall. apply Hall. }
  destruct Hlast as [Hlb Hlt].
  unfold GetNextBaseTarget. fold T. fold window. fold L.
  rewrite CalculateGenesisBaseTarget_spec by assumption.
  set (G := GENESIS T (fPoCXLowCapacityCalibration params)) in *.
  destruct (Z.eqb_spec (nHeight last) 0) as [|_]; [lia|].
  rewrite i32_ok by lia. rewrite i32_ok by lia.
  assert (Hanc : exists first rest,
             GetAncestor (last :: pprev) (nHeight last - L + 1) = first :: rest /\
             nTime first = t0 + (nHeight last - L + 1) * T).
  { unfold GetAncestor.
    destruct (Z.gtb_spec (nHeight last - L + 1) (nHeight last)); [lia|].
    destruct (Z.ltb_spec (nHeight last - L + 1) 0); [lia|].
    cbn [orb].
    assert (Hne : walk_to (last :: pprev) (nHeight last - L + 1) <> [])
      by (apply walk_to_found; [assumption|lia|lia]).
    destruct (walk_to (last :: pprev) (nHeight last - L + 1)) as [|first rest] eqn:Hw;
      [contradiction|].
    exists first, rest. split; [reflexivity|].
    destruct (walk_to_head _ _ _ _ Hw) as [Hfh Hin].
    apply list_elem_of_In in Hin.
    rewrite Forall_forall in Hall. destruct (Hall _ Hin) as [_ Hft].
    rewrite Hft, Hfh. reflexivity. }
  destruct Hanc as (first & rest & -> & Hft).
  unfold GetBlockTime. rewrite Hlt, Hft, Hlb.
  replace (t0 + nHeight last * T - (t0 + (nHeight last - L + 1) * T))
    with ((L - 1) * T) by ring.
  assert (Htt : 0 < L * T /\ 2 * (L * T) < 2 ^ 63) by nia.
  rewrite i64_ok by lia.
  replace (L * T * 2) with (2 * (L * T)) by ring.
  rewrite i64_ok by lia. cbv beta iota.
  rewrite Z.quot_div_nonneg by lia.
  assert (Hhalf : 1 <= L * T / 2 /\ 2 * (L * T / 2) <= L * T).
  { split; [apply Z.div_le_lower_bound; lia|apply Z.mul_div_le; lia]. }
  destruct (Z.eqb_spec (L * T / 2) 0) as [|_]; [lia|].
  destruct (Z.ltb_spec ((L - 1) * T) (L * T / 2)) as [|_]; [nia|].
  destruct (Z.gtb_spec ((L - 1) * T) (2 * (L * T))) as [|_]; [nia|].
  rewrite sum_window_constant with (b := b); cycle 1.
  { cbn [length]. lia. }
  { eapply Forall_impl; [exact Hall|]. intros blk [Hx _]. exact Hx. }
  { lia. }
  { lia. }
  { rewrite Z2Nat.id by lia. lia. }
  rewrite Z2Nat.id by lia. rewrite Z.add_0_l.
  rewrite (u64_small L) by lia. rewrite udiv64_ok by lia.
  rewrite (Z.mul_comm L b), Z.div_mul by lia.
  assert (HLT : 0 <= (L - 1) * T < L * T) by nia.
  rewrite (u64_small ((L - 1) * T)) by lia.
  rewrite (u64_small (L * T)) by lia. 
  assert (HbLT : 0 <= b * ((L - 1) * T) <= b * (L * T)).
  { split; [apply Z.mul_nonneg_nonneg; lia|apply Z.mul_le_mono_nonneg_l; lia]. }
  rewrite (u64_small (b * ((L - 1) * T))) by lia. rewrite udiv64_ok by lia.
  replace (b * ((L - 1) * T)) with (b * (L - 1) * T) by ring.
  rewrite Z.div_mul_cancel_r by lia.
  assert (H5 : 1 <= b / 5 /\ 5 * (b / 5) <= b).
  { split; [apply Z.div_le_lower_bound; lia|apply Z.mul_div_le; lia]. }
  assert (Hb63 : b < 2 ^ 63).
  { assert (b * 2 <= b * (L * T)) by (apply Z.mul_le_mono_nonneg_l; lia). lia. }
  rewrite (u64_small (b + b / 5)) by lia. rewrite (u64_small (b - b / 5)) by lia.
  set (new := b * (L - 1) / L).
  assert (Hnew : 0 <= new < b).
  { unfold new. split; [apply Z.div_pos; nia|].
    apply Z.div_lt_upper_bound; [lia|]. nia. }
  exists (Z.max new (b - b / 5)).
  split; [|split; [reflexivity|lia]].
  destruct (Z.gtb_spec new (b + b / 5)) as [|_]; [lia|].
  assert (Hdec : (if new <? b - b / 5 then b - b / 5 else new)
                 = Z.max new (b - b / 5))
    by (destruct (Z.ltb_spec new (b - b / 5)); lia).
  rewrite Hdec.
  destruct (Z.gtb_spec (Z.max new (b - b / 5)) G) as [|_]; [lia|].
  destruct (Z.eqb_spec (Z.max new (b - b / 5)) 0) as [|_]; [lia|].
  reflexivity.
Qed.

Lemma GetNextBaseTarget_on_schedule_witness :
  exists v,
    GetNextBaseTarget on_schedule_chain sample_params = Some v /\
    v = Z.max (7000000000 * (Z.min 24 3 - 1) / Z.min 24 3)
              (7000000000 - 7000000000 / 5) /\
    v < 7000000000.
Proof.
  apply (GetNextBaseTarget_on_schedule (mkIndex 3 1800 7000000000)
           [mkIndex 2 1200 7000000000; mkIndex 1 600 7000000000;
            mkIndex 0 0 7000000000] sample_params 7000000000 0).
  - cbn. lia.
  - cbn. lia.
  - cbn. lia.
  - reflexivity.
  - cbn. lia.
  - cbn. lia.
  - repeat constructor.
  - vm_compute. split; discriminate.
  - vm_compute. reflexivity.
Defined.

End DifficultyMore.

(** ** OP_RETURN markers and plot ownership *)

Section OpcodesMore.
Import Opcodes.

(** What [GetOp] reads is a push prefix of one to five bytes, then the data. *)
Lemma GetOp_split (pc : list Z) (opcode : Z) (data rest : list Z) :
  GetOp pc = Some (opcode, data, rest) ->
  exists prefix,
    pc = prefix ++ data ++ rest /\ (1 <= length prefix <= 5)%nat.
Proof.
  unfold GetOp. destruct pc as [|op pc]; [discriminate|].
  destruct (op <=? OP_PUSHDATA4); cycle 1.
  { intros [= <- <- <-]. exists [op]. split; [reflexivity|cbn; lia]. }
  assert (Hfin : forall (prefix : list Z) (nSize : Z) (pc' : list Z),
             pc = prefix ++ pc' -> (length prefix <= 4)%nat ->
             (if (nSize <? 0) || (Z.of_nat (length pc') <? nSize) then None
              else Some (op, take (Z.to_nat nSize) pc', drop (Z.to_nat nSize) pc'))
             = Some (opcode, data, rest) ->
             exists prefix0,
               op :: pc = prefix0 ++ data ++ rest /\ (1 <= length prefix0 <= 5)%nat).
  { intros prefix nSize pc' Hpc Hlen.
    destruct ((nSize <? 0) || (Z.of_nat (length pc') <? nSize)); [discriminate|].
    intros [= <- <- <-]. exists (op :: prefix). split.
    - rewrite take_drop. rewrite Hpc. reflexivity.
    - cbn [length]. lia. }
  destruct (op <? OP_PUSHDATA1).
  - apply (Hfin [] op pc); [reflexivity|cbn; lia].
  - set (n := if op =? OP_PUSHDATA1 then 1%nat
              else if op =? OP_PUSHDATA2 then 2%nat else 4%nat).
    assert (Hn : (n <= 4)%nat)
      by (unfold n; destruct (op =? OP_PUSHDATA1), (op =? OP_PUSHDATA2); lia).
    destruct (Nat.ltb_spec (length pc) n); [discriminate|].
    apply (Hfin (take n pc) _ (drop n pc)).
    + symmetry. apply take_drop.
    + rewrite length_take. lia.
Qed.

(** A payload that starts with a four-byte marker. *)
Lemma marker_equal_4 (m0 m1 m2 m3 : Z) (data : list Z) :
  marker_equal [m0; m1; m2; m3] data = true ->
  data = [m0; m1; m2; m3] ++ drop 4 data.
Proof.
  unfold marker_equal. intros H. apply andb_true_iff in H. destruct H as [Heq Hlen].
  apply Nat.leb_le in Hlen.
  destruct data as [|d0 [|d1 [|d2 [|d3 data]]]]; cbn in Hlen; try lia.
  cbn in Heq. rewrite !andb_true_iff in Heq.
  destruct Heq as (H0 & H1 & H2 & H3 & _).
  apply Z.eqb_eq in H0, H1, H2, H3. subst. reflexivity.
Qed.

(** What the detector has established when it answers yes. *)
Lemma IsAssignmentOpReturn_inv (output : CTxOut) :
  IsAssignmentOpReturn output = true ->
  exists prefix opcode data,
    scriptPubKey output = OP_RETURN :: prefix ++ data /\
    (1 <= length prefix <= 5)%nat /\
    GetOp (prefix ++ data) = Some (opcode, data, []) /\
    length data = 44%nat /\
    data = ASSIGNMENT_MARKER ++ drop 4 data.
Proof.
  unfold IsAssignmentOpReturn. destruct (scriptPubKey output) as [|first pc]; [discriminate|].
  destruct (Z.eqb_spec first OP_RETURN) as [->|]; [|discriminate]. cbn [negb].
  destruct (GetOp pc) as [[[opcode data] rest]|] eqn:Hop; [|discriminate].
  destruct (Nat.eqb_spec (length data) 44) as [Hlen|]; [|discriminate]. cbn [negb].
  destruct (marker_equal ASSIGNMENT_MARKER data) eqn:Hm; [|discriminate]. cbn [negb].
  destruct rest; [|discriminate]. intros _.
  destruct (GetOp_split _ _ _ _ Hop) as (prefix & Hpc & Hpl).
  rewrite app_nil_r in Hpc. subst pc.
  exists prefix, opcode, data. repeat split; try assumption; try lia.
  apply marker_equal_4. exact Hm.
Qed.

Lemma IsRevocationOpReturn_inv (output : CTxOut) :
  IsRevocationOpReturn output = true ->
  exists prefix opcode data,
    scriptPubKey output = OP_RETURN :: prefix ++ data /\
    (1 <= length prefix <= 5)%nat /\
    GetOp (prefix ++ data) = Some (opcode, data, []) /\
    length data = 24%nat /\
    data = REVOCATION_MARKER ++ drop 4 data.
Proof.
  unfold IsRevocationOpReturn. destruct (scriptPubKey output) as [|first pc]; [discriminate|].
  destruct (Z.eqb_spec first OP_RETURN) as [->|]; [|discriminate]. cbn [negb].
  destruct (GetOp pc) as [[[opcode data] rest]|] eqn:Hop; [|discriminate].
  destruct (Nat.eqb_spec (length data) 24) as [Hlen|]; [|discriminate]. cbn [negb].
  destruct (marker_equal REVOCATION_MARKER data) eqn:Hm; [|discriminate]. cbn [negb].
  destruct rest; [|discriminate]. intros _.
  destruct (GetOp_split _ _ _ _ Hop) as (prefix & Hpc & Hpl).
  rewrite app_nil_r in Hpc. subst pc.
  exists prefix, opcode, data. repeat split; try assumption; try lia.
  apply marker_equal_4. exact Hm.
Qed.

(** X10.  A parsed assignment is what the script holds: the script is [OP_RETURN],
    a push prefix of one to five bytes, the marker "POCX", then exactly the
    two returned 20-byte addresses and nothing after them. *)
Theorem ParseAssignmentOpReturn_sound (output : CTxOut) (plot forge : list Z) :
  ParseAssignmentOpReturn output = Some (plot, forge) ->
  length plot = 20%nat /\ length forge = 20%nat /\
  exists prefix,
    (1 <= length prefix <= 5)%nat /\
    scriptPubKey output = OP_RETURN :: prefix ++ ASSIGNMENT_MARKER ++ plot ++ forge.
Proof.
  unfold ParseAssignmentOpReturn.
  destruct (IsAssignmentOpReturn output) eqn:His; [|discriminate]. cbn [negb].
  destruct (IsAssignmentOpReturn_inv output His)
    as (prefix & opcode & data & Hs & Hpl & Hop & Hlen & Hm).
  rewrite Hs.
  change (drop 1 (OP_RETURN :: prefix ++ data)) with (prefix ++ data).
  rewrite Hop. intros [= <- <-].
  assert (Hd4 : length (drop 4 data) = 40%nat) by (rewrite length_drop; lia).
  split; [rewrite length_take, length_drop; lia|].
  split; [rewrite length_take, length_drop; lia|].
  exists prefix. split; [assumption|]. do 2 f_equal.
  rewrite Hm at 1. f_equal.
  replace (drop 24 data) with (drop 20 (drop 4 data)) by (rewrite drop_drop; reflexivity).
  rewrite (take_ge (drop 20 (drop 4 data))) by (rewrite length_drop; lia).
  symmetry. apply take_drop.
Qed.

Lemma ParseAssignmentOpReturn_sound_witness :
  length sample_plot = 20%nat /\ length sample_forge = 20%nat /\
  exists prefix,
    (1 <= length prefix <= 5)%nat /\
    scriptPubKey (mkTxOut 0 (CreateAssignmentOpReturn sample_plot sample_forge))
    = OP_RETURN :: prefix ++ ASSIGNMENT_MARKER ++ sample_plot ++ sample_forge.
Proof.
  apply (ParseAssignmentOpReturn_sound
           (mkTxOut 0 (CreateAssignmentOpReturn sample_plot sample_forge))
           sample_plot sample_forge).
  vm_compute. reflexivity.
Defined.

(** X11.  A parsed revocation is what the script holds: [OP_RETURN], a push prefix,
    the marker "XCOP", then exactly the returned 20-byte plot address. *)
Theorem ParseRevocationOpReturn_sound (output : CTxOut) (plot : list Z) :
  ParseRevocationOpReturn output = Some plot ->
  length plot = 20%nat /\
  exists prefix,
    (1 <= length prefix <= 5)%nat /\
    scriptPubKey output = OP_RETURN :: prefix ++ REVOCATION_MARKER ++ plot.
Proof.
  unfold ParseRevocationOpReturn.
  destruct (IsRevocationOpReturn output) eqn:His; [|discriminate]. cbn [negb].
  destruct (IsRevocationOpReturn_inv output His)
    as (prefix & opcode & data & Hs & Hpl & Hop & Hlen & Hm).
  rewrite Hs.
  change (drop 1 (OP_RETURN :: prefix ++ data)) with (prefix ++ data).
  rewrite Hop. intros [= <-].
  split; [rewrite length_take, length_drop; lia|].
  exists prefix. split; [assumption|]. do 2 f_equal.
  rewrite Hm at 1. f_equal.
  symmetry. apply take_ge. rewrite length_drop. lia.
Qed.

Lemma ParseRevocationOpReturn_sound_witness :
  length sample_plot = 20%nat /\
  exists prefix,
    (1 <= length prefix <= 5)%nat /\
    scriptPubKey (mkTxOut 0 (CreateRevocationOpReturn sample_plot))
    = OP_RETURN :: prefix ++ REVOCATION_MARKER ++ sample_plot.
Proof.
  apply (ParseRevocationOpReturn_sound
           (mkTxOut 0 (CreateRevocationOpReturn sample_plot)) sample_plot).
  vm_compute. reflexivity.
Defined.

(** X12.  No output is both an assignment and a revocation: the two detectors read
    the same push and ask for different payload sizes. *)
Theorem OpReturn_kinds_exclusive (output : CTxOut) :
  IsAssignmentOpReturn output && IsRevocationOpReturn output = false.
Proof.
  unfold IsAssignmentOpReturn, IsRevocationOpReturn.
  destruct (scriptPubKey output) as [|first pc]; [reflexivity|].
  destruct (negb (first =? OP_RETURN)); [reflexivity|].
  destruct (GetOp pc) as [[[opcode data] rest]|]; [|reflexivity].
  destruct (Nat.eqb_spec (length data) 44) as [Hlen|]; [|reflexivity].
  rewrite Hlen. apply andb_false_r.
Qed.

(** X13.  The parsers give a result exactly when the detectors accept: the second
    read of the push inside each parser cannot fail. *)
Theorem Parse_succeeds_iff_detected (output : CTxOut) :
  (ParseAssignmentOpReturn output = None <-> IsAssignmentOpReturn output = false) /\
  (ParseRevocationOpReturn output = None <-> IsRevocationOpReturn output = false).
Proof.
  split.
  - unfold ParseAssignmentOpReturn.
    destruct (IsAssignmentOpReturn output) eqn:His; cbn [negb]; [|tauto].
    destruct (IsAssignmentOpReturn_inv output His)
      as (prefix & opcode & data & Hs & Hpl & Hop & Hlen & Hm).
    rewrite Hs.
  change (drop 1 (OP_RETURN :: prefix ++ data)) with (prefix ++ data).
  rewrite Hop. split; discriminate.
  - unfold ParseRevocationOpReturn.
    destruct (IsRevocationOpReturn output) eqn:His; cbn [negb]; [|tauto].
    destruct (IsRevocationOpReturn_inv output His)
      as (prefix & opcode & data & Hs & Hpl & Hop & Hlen & Hm).
    rewrite Hs.
  change (drop 1 (OP_RETURN :: prefix ++ data)) with (prefix ++ data).
  rewrite Hop. split; discriminate.
Qed.

(** X14.  The detector does not ask for the shortest push: the same 44-byte payload
    behind [OP_PUSHDATA1], [OP_PUSHDATA2] or [OP_PUSHDATA4] parses to the same
    assignment as the script [CreateAssignmentOpReturn] builds. *)
Theorem ParseAssignmentOpReturn_any_push (value : Z) (plot forge : list Z) :
  length plot = 20%nat -> length forge = 20%nat ->
  let payload := ASSIGNMENT_MARKER ++ plot ++ forge in
  ParseAssignmentOpReturn (mkTxOut value (OP_RETURN :: OP_PUSHDATA1 :: 44 :: payload))
  = Some (plot, forge) /\
  ParseAssignmentOpReturn
    (mkTxOut value (OP_RETURN :: OP_PUSHDATA2 :: 44 :: 0 :: payload))
  = Some (plot, forge) /\
  ParseAssignmentOpReturn
    (mkTxOut value (OP_RETURN :: OP_PUSHDATA4 :: 44 :: 0 :: 0 :: 0 :: payload))
  = Some (plot, forge).
Proof.
  intros Hp Hf. explode plot Hp. explode forge Hf.
  cbv zeta. unfold ParseAssignmentOpReturn, IsAssignmentOpReturn.
  repeat split; vm_compute; reflexivity.
Qed.

Lemma ParseAssignmentOpReturn_any_push_witness :
  let payload := ASSIGNMENT_MARKER ++ sample_plot ++ sample_forge in
  ParseAssignmentOpReturn (mkTxOut 0 (OP_RETURN :: OP_PUSHDATA1 :: 44 :: payload))
  = Some (sample_plot, sample_forge) /\
  ParseAssignmentOpReturn
    (mkTxOut 0 (OP_RETURN :: OP_PUSHDATA2 :: 44 :: 0 :: payload))
  = Some (sample_plot, sample_forge) /\
  ParseAssignmentOpReturn
    (mkTxOut 0 (OP_RETURN :: OP_PUSHDATA4 :: 44 :: 0 :: 0 :: 0 :: payload))
  = Some (sample_plot, sample_forge).
Proof.
  apply (ParseAssignmentOpReturn_any_push 0 sample_plot sample_forge); reflexivity.
Defined.

End OpcodesMore.

Section OwnershipFacts.
Import Opcodes.

Variable COutPoint : Type.
Variable GetCoin : COutPoint -> option CScript.
Variable ExtractDestination : CScript -> option CTxDestination.

(** X15.  Ownership is granted exactly when some input spends a coin whose script
    is a witness v0 key hash output to the plot address; inputs whose coin is
    missing or whose script is of another kind are passed over. *)
Theorem VerifyPlotOwnership_iff (vin : list COutPoint) (plotAddress : list Z) :
  VerifyPlotOwnership COutPoint GetCoin ExtractDestination vin plotAddress = true
  <-> exists prevout script,
        In prevout vin /\ GetCoin prevout = Some script /\
        ExtractDestination script = Some (WitnessV0KeyHash plotAddress).
Proof.
  induction vin as [|prevout vin IH]; cbn [VerifyPlotOwnership].
  - split; [discriminate|]. intros (p & s & [] & _).
  - assert (Hrest : VerifyPlotOwnership COutPoint GetCoin ExtractDestination vin
                      plotAddress = true ->
                    exists prevout0 script,
                      In prevout0 (prevout :: vin) /\ GetCoin prevout0 = Some script /\
                      ExtractDestination script = Some (WitnessV0KeyHash plotAddress)).
    { intros H. apply IH in H. destruct H as (p & s & Hin & Hc & He).
      exists p, s. split; [right; assumption|]. split; assumption. }
    destruct (GetCoin prevout) as [script|] eqn:Hcoin.
    + destruct (ExtractDestination script) as [[input_addr|]|] eqn:Hdest.
      * destruct (bool_decide_reflect (input_addr = plotAddress)) as [->|Hne].
        { split; [|reflexivity]. intros _. exists prevout, script.
          split; [left; reflexivity|]. split; assumption. }
        { split; [exact Hrest|]. intros (p & s & [<-|Hin] & Hc & He).
          - rewrite Hcoin in Hc. injection Hc as <-. rewrite Hdest in He.
            injection He as ->. contradiction.
          - apply IH. exists p, s. split; [assumption|]. split; assumption. }
      * split; [exact Hrest|]. intros (p & s & [<-|Hin] & Hc & He).
        { rewrite Hcoin in Hc. injection Hc as <-. rewrite Hdest in He. discriminate. }
        { apply IH. exists p, s. split; [assumption|]. split; assumption. }
      * split; [exact Hrest|]. intros (p & s & [<-|Hin] & Hc & He).
        { rewrite Hcoin in Hc. injection Hc as <-. rewrite Hdest in He. discriminate. }
        { apply IH. exists p, s. split; [assumption|]. split; assumption. }
    + split; [exact Hrest|]. intros (p & s & [<-|Hin] & Hc & He).
      { rewrite Hcoin in Hc. discriminate. }
      { apply IH. exists p, s. split; [assumption|]. split; assumption. }
Qed.

End OwnershipFacts.

(** ** Block validation *)

Section ValidationMore.
Import ProofValidation.

Variable DecodeGenerationSignature : list Z -> Z * list Z.
Variable CalculateQuality : list Z -> list Z -> Z -> Z -> Z -> list Z -> Z * Z.

(** X16.  With no null pointer passed, and whatever its two collaborators
    [DecodeGenerationSignature] and [CalculateQuality] return, the returned
    flag and the result structure agree on every path: the flag is
    [is_valid], it is true exactly when the error code is 0, and every
    failure leaves quality 0, deadline 2^64 - 1 and one of the error codes
    -100, -101, -106.  The collaborators are taken to return; for
    [CalculateQuality] that is the case below compression 64. *)
Theorem pocx_validate_block_flag_agrees
  (hex account seed : list Z) (base_target block_height nonce compression : Z)
  (result : ValidationResult) :
  exists flag r,
    pocx_validate_block DecodeGenerationSignature CalculateQuality
      (Some hex) base_target (Some account) block_height nonce (Some seed)
      compression (Some result)
    = Some (flag, Some r) /\
    flag = is_valid r /\
    (flag = true <-> error_code r = VALIDATION_SUCCESS) /\
    (flag = false ->
     quality r = 0 /\ deadline r = UINT64_MAX /\
     (error_code r = VALIDATION_ERROR_GENERATION_SIGNATURE_PARSE \/
      error_code r = VALIDATION_ERROR_GENERATION_SIGNATURE_DECODE \/
      error_code r = VALIDATION_ERROR_QUALITY_CALCULATION)).
Proof.
  unfold pocx_validate_block.
  destruct (DecodeGenerationSignature hex) as [decode_result generation_signature].
  destruct (Z.eqb_spec decode_result 0) as [Hd|Hd]; cbn [negb].
  - destruct (CalculateQuality (take 20 account) (take 32 seed) nonce compression
                block_height generation_signature) as [quality_result q].
    destruct (Z.eqb_spec quality_result 0) as [Hq|Hq]; cbn [negb].
    + destruct (Z.gtb_spec base_target 0) as [Hb|Hb].
      * unfold udiv. destruct (Z.eqb_spec base_target 0) as [|_]; [lia|].
        eexists. eexists. split; [reflexivity|]. cbn.
        split; [reflexivity|]. split; [split; reflexivity|discriminate].
      * eexists. eexists. split; [reflexivity|]. cbn.
        split; [reflexivity|]. split; [split; reflexivity|discriminate].
    + eexists. eexists. split; [reflexivity|]. cbn.
      split; [reflexivity|]. split; [split; discriminate|].
      intros _. split; [reflexivity|]. split; [reflexivity|]. right. right. reflexivity.
  - destruct (Z.eqb_spec decode_result (-1)).
    + eexists. eexists. split; [reflexivity|]. cbn.
      split; [reflexivity|]. split; [split; discriminate|].
      intros _. split; [reflexivity|]. split; [reflexivity|]. left. reflexivity.
    + eexists. eexists. split; [reflexivity|]. cbn.
      split; [reflexivity|]. split; [split; discriminate|].
      intros _. split; [reflexivity|]. split; [reflexivity|]. right. left. reflexivity.
Qed.

End ValidationMore.

(** ** The forging scheduler *)

Section SchedulerMore.
Import Scheduler.

(** Taking from a running scheduler [i] times drops the first [i] entries. *)
Lemma run_worker_takes (i : nat) :
  forall s, m_shutdown s = false ->
    run (repeat CallWorkerTake i) s
    = mkScheduler (drop i (m_submission_queue s)) (m_current_forging s) false.
Proof.
  induction i as [|i IH]; intros s Hs.
  - cbn. destruct s as [q c sh]. cbn in Hs. subst sh. reflexivity.
  - cbn [repeat run fold_left]. fold (run (repeat CallWorkerTake i)).
    cbn [do_call]. unfold worker_take. rewrite Hs.
    destruct (m_submission_queue s) as [|x q] eqn:Hq.
    + cbn [snd]. rewrite IH by assumption. rewrite Hq. rewrite !drop_nil. reflexivity.
    + cbn [snd]. rewrite IH by reflexivity. cbn [m_submission_queue m_current_forging].
      reflexivity.
Qed.

(** X17.  The queue is first in, first out: a submission accepted while [n]
    entries wait is appended behind them, the worker's takes hand out the
    waiting entries in their order, and take number [n + 1] hands out the new
    one. *)
Theorem SubmitNonce_fifo (s : PoCXScheduler) (account_id seed : list Z)
  (nonce quality compression height gs now : Z) :
  m_shutdown s = false ->
  (length (m_submission_queue s) < MAX_QUEUE_SIZE)%nat ->
  let submitted :=
    SubmitNonce s account_id seed nonce quality compression height gs now in
  fst submitted = true /\
  (forall i x,
     m_submission_queue s !! i = Some x ->
     fst (worker_take (run (repeat CallWorkerTake i) (snd submitted))) = Some x) /\
  fst (worker_take (run (repeat CallWorkerTake (length (m_submission_queue s)))
                        (snd submitted)))
  = Some (mkSubmission account_id seed nonce quality compression height gs now).
Proof.
  intros Hs Hlen. unfold SubmitNonce. cbv zeta.
  destruct (Nat.leb_spec MAX_QUEUE_SIZE (length (m_submission_queue s))) as [|_]; [lia|].
  cbn [fst snd]. split; [reflexivity|]. split.
  - intros i x Hi. rewrite run_worker_takes by assumption.
    cbn [m_submission_queue m_current_forging]. unfold worker_take. cbn [m_shutdown m_submission_queue].
    rewrite drop_app_le by (apply lookup_lt_Some in Hi; lia).
    rewrite (drop_S _ _ _ Hi). reflexivity.
  - rewrite run_worker_takes by assumption.
    cbn [m_submission_queue m_current_forging]. unfold worker_take. cbn [m_shutdown m_submission_queue].
    rewrite drop_app_length. reflexivity.
Qed.

Lemma SubmitNonce_fifo_witness :
  let submitted := SubmitNonce initial sample_plot zero_gensig 1 500 1 4 11 0 in
  fst submitted = true /\
  (forall i x,
     m_submission_queue initial !! i = Some x ->
     fst (worker_take (run (repeat CallWorkerTake i) (snd submitted))) = Some x) /\
  fst (worker_take (run (repeat CallWorkerTake (length (m_submission_queue initial)))
                        (snd submitted)))
  = Some (mkSubmission sample_plot zero_gensig 1 500 1 4 11 0).
Proof.
  apply (SubmitNonce_fifo initial sample_plot zero_gensig 1 500 1 4 11 0).
  - reflexivity.
  - cbn. unfold MAX_QUEUE_SIZE. lia.
Defined.

(** X18.  While the tip stands, processing a submission never worsens the
    candidate: afterwards the candidate is the old one, or it is built from
    the submission, whose quality is then strictly lower; and no block is
    forged by the call. *)
Theorem ProcessSubmission_keeps_best (fuel : nat) (node : NodeView) (tip : TipIndex)
  (s s' : PoCXScheduler) (c : ForgingState) (submission : NonceSubmission) :
  chain_tip node = Some tip ->
  m_current_forging s = Some c ->
  fs_tip_block_hash c = tip_hash tip ->
  snd (ProcessSubmission fuel (Some node) s submission) = Ret s' ->
  fst (ProcessSubmission fuel (Some node) s submission) = [] /\
  exists c',
    m_current_forging s' = Some c' /\
    fs_quality c' <= fs_quality c /\
    (c' = c \/
     (fs_quality c' = ns_quality submission /\
      ns_quality submission < fs_quality c /\
      fs_nonce c' = ns_nonce submission /\
      fs_account_id c' = ns_account_id submission /\
      fs_seed c' = ns_seed submission /\
      fs_height c' = ns_expected_height submission /\
      fs_generation_sig c' = ns_generation_signature submission)).
Proof.
  intros Htip Hc Hhash. unfold ProcessSubmission. rewrite Htip, Hc.
  destruct (Z.eqb_spec (fs_tip_block_hash c) (tip_hash tip)) as [_|]; [|contradiction].
  cbn [negb]. rewrite Hc. unfold ValidateContext.
  destruct (Z.eqb_spec (ns_expected_height submission) (height (new_block_context node)))
    as [Hh|Hh]; cbn [negb].
  2:{ cbn [fst snd]. intros [= <-]. split; [reflexivity|].
      exists c. split; [assumption|]. split; [lia|]. left. reflexivity. }
  destruct (Z.eqb_spec (ns_generation_signature submission)
                       (generation_signature (new_block_context node)))
    as [Hg|Hg]; cbn [negb].
  2:{ cbn [fst snd]. intros [= <-]. split; [reflexivity|].
      exists c. split; [assumption|]. split; [lia|]. left. reflexivity. }
  cbn [option_map IsBetterThanCurrent].
  destruct (Z.ltb_spec (ns_quality submission) (fs_quality c)) as [Hq|Hq]; cbn [negb].
  2:{ cbn [fst snd]. intros [= <-]. split; [reflexivity|].
      exists c. split; [assumption|]. split; [lia|]. left. reflexivity. }
  cbn [fst snd].
  destruct (TimeBending.CalculateTimeBendedDeadline fuel (ns_quality submission)
              (base_target (new_block_context node)) (u64 (nPowTargetSpacing node)))
    as [d| |]; cbn [bind]; try discriminate.
  intros [= <-]. split; [reflexivity|].
  eexists. split; [reflexivity|]. cbn. split; [lia|]. right.
  repeat split; try reflexivity; try lia; symmetry; assumption.
Qed.

Lemma ProcessSubmission_keeps_best_witness :
  fst (ProcessSubmission 86 (Some sample_node) sample_scheduler worse_submission) = [] /\
  exists c',
    m_current_forging sample_scheduler = Some c' /\
    fs_quality c' <= fs_quality sample_candidate /\
    (c' = sample_candidate \/
     (fs_quality c' = ns_quality worse_submission /\
      ns_quality worse_submission < fs_quality sample_candidate /\
      fs_nonce c' = ns_nonce worse_submission /\
      fs_account_id c' = ns_account_id worse_submission /\
      fs_seed c' = ns_seed worse_submission /\
      fs_height c' = ns_expected_height worse_submission /\
      fs_generation_sig c' = ns_generation_signature worse_submission)).
Proof.
  apply (ProcessSubmission_keeps_best 86 sample_node sample_tip sample_scheduler
           sample_scheduler sample_candidate worse_submission); reflexivity.
Defined.



(** X20.  At the deadline a block is forged only for a live candidate on an
    unchanged context: [ForgeBlock] is called exactly when the wait timed out
    with the scheduler running, the queue empty and the candidate not
    cancelled, and the candidate's height, generation signature and base
    target are those of the next block; it is called at most once, and the
    candidate is reset whenever it is called. *)
Theorem deadline_forging_guard (fuel : nat) (node_context : option NodeView)
  (predicate_true : bool) (s : PoCXScheduler) :
  let waited := WaitForDeadlineOrNewSubmission fuel node_context predicate_true s in
  (forall c,
     fst waited = [EvForgeBlock c] <->
     m_current_forging s = Some c /\ m_shutdown s = false /\
     m_submission_queue s = [] /\ fs_cancelled c = false /\
     predicate_true = false /\
     exists node tip,
       node_context = Some node /\ chain_tip node = Some tip /\
       fs_height c = height (new_block_context node) /\
       fs_generation_sig c = generation_signature (new_block_context node) /\
       fs_base_target c = base_target (new_block_context node)) /\
  (fst waited = [] \/
   exists c, fst waited = [EvForgeBlock c] /\ snd waited = Ret (reset_forging s)).
Proof.
  cbv zeta. unfold WaitForDeadlineOrNewSubmission.
  destruct (m_current_forging s) as [candidate|] eqn:Hc.
  2:{ cbn. split; [|left; reflexivity]. intros c. split; [discriminate|].
      intros (H & _). discriminate. }
  destruct (m_shutdown s) eqn:Hs.
  { cbn. split; [|left; reflexivity]. intros c. split; [discriminate|].
    intros (_ & H & _). discriminate. }
  destruct (m_submission_queue s) as [|x q] eqn:Hq; cbn [length Nat.ltb Nat.leb].
  2:{ cbn. split; [|left; reflexivity]. intros c. split; [discriminate|].
      intros (_ & _ & H & _). discriminate. }
  destruct (fs_cancelled candidate) eqn:Hcan.
  { cbn. split; [|left; reflexivity]. intros c. split; [discriminate|].
    intros ([= <-] & _ & _ & H & _). congruence. }
  destruct predicate_true; cbn [negb].
  { cbn. split; [|left; reflexivity]. intros c. split; [discriminate|].
    intros (_ & _ & _ & _ & H & _). discriminate. }
  destruct node_context as [node|].
  2:{ cbn. split; [|left; reflexivity]. intros c. split; [discriminate|].
      intros (_ & _ & _ & _ & _ & n & t & H & _). discriminate. }
  destruct (chain_tip node) as [tip|] eqn:Htip.
  2:{ cbn. split; [|left; reflexivity]. intros c. split; [discriminate|].
      intros (_ & _ & _ & _ & _ & n & t & [= <-] & H & _). congruence. }
  destruct (Z.eqb_spec (fs_height candidate) (height (new_block_context node)))
    as [Hh|Hh]; cbn [negb].
  2:{ cbn. split; [|left; reflexivity]. intros c. split; [discriminate|].
      intros ([= <-] & _ & _ & _ & _ & n & t & [= <-] & _ & H & _). contradiction. }
  destruct (Z.eqb_spec (fs_generation_sig candidate)
                       (generation_signature (new_block_context node)))
    as [Hg|Hg]; cbn [negb].
  2:{ cbn. split; [|left; reflexivity]. intros c. split; [discriminate|].
      intros ([= <-] & _ & _ & _ & _ & n & t & [= <-] & _ & _ & H & _). contradiction. }
  destruct (Z.eqb_spec (fs_base_target candidate) (base_target (new_block_context node)))
    as [Hb|Hb]; cbn [negb].
  2:{ cbn [fst]. split; [|left; reflexivity]. intros c. split; [discriminate|].
      intros ([= <-] & _ & _ & _ & _ & n & t & [= <-] & _ & _ & _ & H). contradiction. }
  cbn [fst snd]. split.
  - intros c. split.
    + intros [= <-]. repeat split; try reflexivity; try assumption.
      exists node, tip. repeat split; assumption.
    + intros ([= <-] & _). reflexivity.
  - right. exists candidate. split; reflexivity.
Qed.

End SchedulerMore.

(** ** Byte order helpers *)

Section EncodingMore.
Import Encoding.

(** One byte of [v], cut out by a mask and moved down or up. *)
Lemma mask_shiftr (v k s : Z) :
  0 <= s <= k ->
  Z.shiftr (Z.land v (Z.shiftl (Z.ones 8) k)) s
  = Z.shiftl (Z.land (Z.shiftr v k) (Z.ones 8)) (k - s).
Proof. intros H. Z.bitblast. Qed.

Lemma mask_shiftl (v k s : Z) :
  0 <= k -> 0 <= s -> k + s + 8 <= 64 ->
  Z.shiftl (Z.land v (Z.shiftl (Z.ones 8) k)) s mod 2 ^ 64
  = Z.shiftl (Z.land (Z.shiftr v k) (Z.ones 8)) (k + s).
Proof. intros Hk Hs H. Z.bitblast. Qed.

Lemma low_byte_shiftl (v s : Z) :
  0 <= s -> s + 8 <= 64 ->
  Z.shiftl (Z.land v (Z.ones 8)) s mod 2 ^ 64 = Z.shiftl (Z.land v (Z.ones 8)) s.
Proof. intros Hs H. Z.bitblast. Qed.

(** A byte placed at bit [s], seen through a 32-bit window at bit [t]. *)
Lemma byte_select (x s t : Z) :
  0 <= t <= s -> s - t + 8 <= 32 ->
  Z.land (Z.shiftr (Z.shiftl (Z.land x (Z.ones 8)) s) t) (Z.ones 32)
  = Z.shiftl (Z.land x (Z.ones 8)) (s - t).
Proof. intros H1 H2. Z.bitblast. Qed.

Lemma byte_below (x s t : Z) :
  0 <= s -> s + 8 <= t ->
  Z.land (Z.shiftr (Z.shiftl (Z.land x (Z.ones 8)) s) t) (Z.ones 32) = 0.
Proof. intros H1 H2. Z.bitblast. Qed.

Lemma byte_keep (x s : Z) :
  0 <= s -> s + 8 <= 32 ->
  Z.land (Z.shiftl (Z.land x (Z.ones 8)) s) (Z.ones 32)
  = Z.shiftl (Z.land x (Z.ones 8)) s.
Proof. intros H1 H2. Z.bitblast. Qed.

Lemma byte_above (x s : Z) :
  32 <= s -> Z.land (Z.shiftl (Z.land x (Z.ones 8)) s) (Z.ones 32) = 0.
Proof. intros H. Z.bitblast. Qed.

(** Four bytes packed low byte first fill a 32-bit word, and the host lays
    the word out as those four bytes. *)
Lemma packed_word_u32 (b0 b1 b2 b3 : Z) :
  u32 (Z.lor (Z.lor (Z.lor (Z.land b0 (Z.ones 8))
                           (Z.shiftl (Z.land b1 (Z.ones 8)) 8))
                    (Z.shiftl (Z.land b2 (Z.ones 8)) 16))
             (Z.shiftl (Z.land b3 (Z.ones 8)) 24))
  = Z.lor (Z.lor (Z.lor (Z.land b0 (Z.ones 8))
                        (Z.shiftl (Z.land b1 (Z.ones 8)) 8))
                 (Z.shiftl (Z.land b2 (Z.ones 8)) 16))
          (Z.shiftl (Z.land b3 (Z.ones 8)) 24).
Proof. unfold u32. Z.bitblast. Qed.

Lemma packed_word_bytes (b0 b1 b2 b3 : Z) :
  u32_to_bytes
    (Z.lor (Z.lor (Z.lor (Z.land b0 (Z.ones 8))
                         (Z.shiftl (Z.land b1 (Z.ones 8)) 8))
                  (Z.shiftl (Z.land b2 (Z.ones 8)) 16))
           (Z.shiftl (Z.land b3 (Z.ones 8)) 24))
  = [Z.land b0 (Z.ones 8); Z.land b1 (Z.ones 8);
     Z.land b2 (Z.ones 8); Z.land b3 (Z.ones 8)].
Proof.
  unfold u32_to_bytes, u8. change 255 with (Z.ones 8).
  f_equal; [|f_equal; [|f_equal; [|f_equal]]]; Z.bitblast.
Qed.

(** The two words [U64ToU32BE] stores, byte by byte. *)
Lemma U64ToU32BE_words (value o0 o1 : Z) :
  U64ToU32BE value [o0; o1]
  = [ Z.lor (Z.lor (Z.lor (Z.land (Z.shiftr value 24) (Z.ones 8))
                          (Z.shiftl (Z.land (Z.shiftr value 16) (Z.ones 8)) 8))
                   (Z.shiftl (Z.land (Z.shiftr value 8) (Z.ones 8)) 16))
            (Z.shiftl (Z.land value (Z.ones 8)) 24);
      Z.lor (Z.lor (Z.lor (Z.land (Z.shiftr value 56) (Z.ones 8))
                          (Z.shiftl (Z.land (Z.shiftr value 48) (Z.ones 8)) 8))
                   (Z.shiftl (Z.land (Z.shiftr value 40) (Z.ones 8)) 16))
            (Z.shiftl (Z.land (Z.shiftr value 32) (Z.ones 8)) 24) ].
Proof.
  unfold U64ToU32BE. cbv zeta. cbn [insert list_insert]. unfold u64.
  change 0xFF00000000000000 with (Z.shiftl (Z.ones 8) 56).
  change 0x00FF000000000000 with (Z.shiftl (Z.ones 8) 48).
  change 0x0000FF0000000000 with (Z.shiftl (Z.ones 8) 40).
  change 0x000000FF00000000 with (Z.shiftl (Z.ones 8) 32).
  change 0x00000000FF000000 with (Z.shiftl (Z.ones 8) 24).
  change 0x0000000000FF0000 with (Z.shiftl (Z.ones 8) 16).
  change 0x000000000000FF00 with (Z.shiftl (Z.ones 8) 8).
  change 0xFFFFFFFF with (Z.ones 32).
  change 0x00000000000000FF with (Z.ones 8).
  rewrite !mask_shiftr by lia. rewrite !mask_shiftl by lia.
  rewrite low_byte_shiftl by lia.
  change (56 - 56) with 0. change (48 - 40) with 8. change (40 - 24) with 16.
  change (32 - 8) with 24. change (24 + 8) with 32. change (16 + 24) with 40.
  change (8 + 40) with 48.
  set (B0 := Z.land value (Z.ones 8)).
  set (B1 := Z.land (Z.shiftr value 8) (Z.ones 8)).
  set (B2 := Z.land (Z.shiftr value 16) (Z.ones 8)).
  set (B3 := Z.land (Z.shiftr value 24) (Z.ones 8)).
  set (B4 := Z.land (Z.shiftr value 32) (Z.ones 8)).
  set (B5 := Z.land (Z.shiftr value 40) (Z.ones 8)).
  set (B6 := Z.land (Z.shiftr value 48) (Z.ones 8)).
  set (B7 := Z.land (Z.shiftr value 56) (Z.ones 8)).
  rewrite !Z.shiftr_lor, !Z.land_lor_distr_l.
  unfold B0, B1, B2, B3, B4, B5, B6, B7.
  rewrite (byte_below _ 0 32), (byte_below _ 8 32), (byte_below _ 16 32),
    (byte_below _ 24 32) by lia.
  rewrite (byte_select _ 32 32), (byte_select _ 40 32), (byte_select _ 48 32),
    (byte_select _ 56 32) by lia.
  rewrite (byte_keep _ 0), (byte_keep _ 8), (byte_keep _ 16), (byte_keep _ 24) by lia.
  rewrite (byte_above _ 32), (byte_above _ 40), (byte_above _ 48), (byte_above _ 56)
    by lia.
  change (32 - 32) with 0. change (40 - 32) with 8. change (48 - 32) with 16.
  change (56 - 32) with 24.
  rewrite !Z.lor_0_l, !Z.lor_0_r, !Z.shiftl_0_r.
  rewrite !packed_word_u32. reflexivity.
Qed.

(** X21.  Stored as [nonce[1]], [nonce[0]], which is how [GenerateNonces] places
    them in its terminator blocks, the two words of [U64ToU32BE] lay the value
    out in memory high byte first. *)
Theorem U64ToU32BE_big_endian (value : Z) (output : list Z) :
  length output = 2%nat ->
  let nonce := U64ToU32BE value output in
  bytes_of_words [nonce @ 1; nonce @ 0]
  = map (fun i => Z.land (Z.shiftr value (Z.of_nat i * 8)) 0xFF)
        [7; 6; 5; 4; 3; 2; 1; 0]%nat.
Proof.
  intros Hlen. explode output Hlen. cbv zeta. rewrite U64ToU32BE_words.
  cbn [lookup_total list_lookup_total]. unfold bytes_of_words. cbn [flat_map].
  rewrite !packed_word_bytes. cbn [app map].
  rewrite Z.shiftr_0_r. reflexivity.
Qed.

Lemma U64ToU32BE_big_endian_witness :
  let nonce := U64ToU32BE 1337 [0; 0] in
  bytes_of_words [nonce @ 1; nonce @ 0]
  = map (fun i => Z.land (Z.shiftr 1337 (Z.of_nat i * 8)) 0xFF)
        [7; 6; 5; 4; 3; 2; 1; 0]%nat.
Proof. apply (U64ToU32BE_big_endian 1337 [0; 0]). reflexivity. Defined.

(** [BytesToU32LE] writes [byte_count / 4] words and nothing else. *)
Lemma BytesToU32LE_words (bytes : list Z) (byte_count : nat) (output : list Z) :
  (Nat.div byte_count 4 <= length output)%nat ->
  BytesToU32LE bytes byte_count output
  = map (fun i =>
           Z.lor
             (Z.lor
                (Z.lor (bytes !!! (i * 4)%nat)
                       (u32 (Z.shiftl (bytes !!! (i * 4 + 1)%nat) 8)))
                (u32 (Z.shiftl (bytes !!! (i * 4 + 2)%nat) 16)))
             (u32 (Z.shiftl (bytes !!! (i * 4 + 3)%nat) 24)))
        (seq 0 (Nat.div byte_count 4))
    ++ drop (Nat.div byte_count 4) output.
Proof.
  unfold BytesToU32LE. generalize (Nat.div byte_count 4) as n.
  induction n as [|n IH]; intros Hn.
  - reflexivity.
  - rewrite seq_S, fold_left_app, map_app. cbn [fold_left map Nat.add].
    rewrite IH by lia.
    rewrite insert_app_r_alt by (rewrite length_map, length_seq; lia).
    rewrite length_map, length_seq, Nat.sub_diag.
    destruct (drop n output) as [|x rest] eqn:Hd.
    { apply (f_equal length) in Hd. rewrite length_drop in Hd. cbn in Hd. lia. }
    cbn [insert list_insert]. rewrite <- app_assoc. cbn [app].
    assert (Hrest : drop (S n) output = rest).
    { replace (S n) with (n + 1)%nat by lia. rewrite <- drop_drop. rewrite Hd.
      reflexivity. }
    rewrite Hrest. reflexivity.
Qed.

(** Byte [j] of word [i] in the memory image of a word array. *)
Lemma bytes_of_words_lookup (ws : list Z) :
  forall i j : nat, (j < 4)%nat -> (i < length ws)%nat ->
    bytes_of_words ws !!! (i * 4 + j)%nat = u32_to_bytes (ws !!! i) !!! j.
Proof.
  induction ws as [|w ws IH]; intros i j Hj Hi; [cbn in Hi; lia|].
  destruct i as [|i].
  - cbn [Nat.mul Nat.add]. unfold bytes_of_words. cbn [flat_map].
    destruct j as [|[|[|[|j]]]]; try lia; reflexivity.
  - replace (S i * 4 + j)%nat with (S (S (S (S (i * 4 + j))))) by lia.
    unfold bytes_of_words. cbn [flat_map]. fold (bytes_of_words ws).
    change (u32_to_bytes w ++ bytes_of_words ws)
      with (u8 w :: u8 (Z.shiftr w 8) :: u8 (Z.shiftr w 16) :: u8 (Z.shiftr w 24)
            :: bytes_of_words ws).
    cbn [lookup_total list_lookup_total]. apply IH; [assumption|cbn in Hi; lia].
Qed.

(** A 32-bit word is its four bytes packed low byte first. *)
Lemma word_of_its_bytes (w : Z) :
  0 <= w < 2 ^ 32 ->
  Z.lor (Z.lor (Z.lor (u8 w) (u32 (Z.shiftl (u8 (Z.shiftr w 8)) 8)))
               (u32 (Z.shiftl (u8 (Z.shiftr w 16)) 16)))
        (u32 (Z.shiftl (u8 (Z.shiftr w 24)) 24))
  = w.
Proof.
  intros Hw. unfold u8, u32. change 255 with (Z.ones 8).
  rewrite <- (Z.mod_small w (2 ^ 32)) at 5 by lia.
  Z.bitblast.
Qed.

Lemma map_lookup_total_seq (l : list Z) :
  map (fun i => l !!! i) (seq 0 (length l)) = l.
Proof.
  induction l as [|x l IH]; [reflexivity|].
  cbn [length seq map]. rewrite <- seq_shift, map_map. cbn [lookup_total list_lookup_total].
  f_equal. exact IH.
Qed.

(** X22.  [BytesToU32LE] undoes the memory layout of the host: fed the bytes of an
    array of 32-bit words it writes those words back, and it leaves the rest
    of the output as it was. *)
Theorem BytesToU32LE_bytes_of_words (ws output : list Z) :
  Forall (fun w => 0 <= w < 2 ^ 32) ws ->
  (length ws <= length output)%nat ->
  BytesToU32LE (bytes_of_words ws) (4 * length ws) output
  = ws ++ drop (length ws) output.
Proof.
  intros Hws Hlen.
  assert (Hdiv : Nat.div (4 * length ws) 4 = length ws)
    by (rewrite Nat.mul_comm; apply Nat.div_mul; lia).
  rewrite BytesToU32LE_words by (rewrite Hdiv; assumption).
  rewrite Hdiv. f_equal.
  transitivity (map (fun i => ws !!! i) (seq 0 (length ws)));
    [|apply map_lookup_total_seq].
  apply map_ext_in. intros i Hi. apply in_seq in Hi.
  replace (i * 4)%nat with (i * 4 + 0)%nat at 1 by lia.
  rewrite !bytes_of_words_lookup by lia.
  cbn [u32_to_bytes lookup_total list_lookup_total].
  apply word_of_its_bytes.
  rewrite Forall_forall in Hws. apply Hws. apply list_elem_of_lookup_total_2. lia.
Qed.

Lemma BytesToU32LE_bytes_of_words_witness :
  BytesToU32LE (bytes_of_words TEST_B_M1) (4 * length TEST_B_M1) (replicate 16 0)
  = TEST_B_M1 ++ drop (length TEST_B_M1) (replicate 16 0).
Proof.
  apply (BytesToU32LE_bytes_of_words TEST_B_M1 (replicate 16 0)).
  - repeat constructor; lia.
  - cbn. lia.
Defined.

End EncodingMore.

(** ** Shabal-256 over whole blocks *)

Section ShabalMore.
Import Shabal.

Lemma fold_left_ext_in {A B : Type} (f g : A -> B -> A) (l : list B) :
  (forall a x, In x l -> f a x = g a x) ->
  forall a, fold_left f l a = fold_left g l a.
Proof.
  induction l as [|x l IH]; intros H a; [reflexivity|].
  cbn [fold_left]. rewrite H by (left; reflexivity).
  apply IH. intros a' y Hy. apply H. right. exact Hy.
Qed.

(** A compression reads the first sixteen words of the block it is given. *)
Lemma compress_take (s : state) (m : list Z) : compress s (take 16 m) = compress s m.
Proof.
  unfold compress.
  assert (Hadd : input_block_add (st_b s) (take 16 m) = input_block_add (st_b s) m).
  { unfold input_block_add. apply fold_left_ext_in. intros b i Hi.
    apply in_seq in Hi. rewrite lookup_total_take_lt by lia. reflexivity. }
  assert (Hsub : input_block_sub (st_c s) (take 16 m) = input_block_sub (st_c s) m).
  { unfold input_block_sub. apply fold_left_ext_in. intros b i Hi.
    apply in_seq in Hi. rewrite lookup_total_take_lt by lia. reflexivity. }
  rewrite Hadd, Hsub.
  assert (Hp : forall a b c, apply_p a b c (take 16 m) = apply_p a b c m).
  { intros a b c. unfold apply_p, perm.
    rewrite !lookup_total_take_lt by lia. reflexivity. }
  rewrite Hp. reflexivity.
Qed.

Lemma words_of_bytes_app (n : nat) :
  forall d t : list Z,
    length d = (4 * n)%nat ->
    words_of_bytes (d ++ t) = words_of_bytes d ++ words_of_bytes t /\
    length (words_of_bytes d) = n.
Proof.
  induction n as [|n IH]; intros d t Hd.
  - destruct d; [split; reflexivity|discriminate].
  - destruct d as [|b0 [|b1 [|b2 [|b3 d]]]]; cbn [length] in Hd; try lia.
    destruct (IH d t ltac:(lia)) as [Happ Hlen].
    cbn [app words_of_bytes length]. rewrite Happ, Hlen. split; reflexivity.
Qed.

(** Blocks are taken from the words in front; what follows them is not read. *)
Lemma compress_drop_app (s : state) (ptr : nat) (W T : list Z) :
  (ptr + 16 <= length W)%nat ->
  compress s (drop ptr (W ++ T)) = compress s (drop ptr W).
Proof.
  intros Hlen.
  assert (Ht : take 16 (drop ptr (W ++ T)) = take 16 (drop ptr W)).
  { rewrite drop_app_le by lia. apply take_app_le. rewrite length_drop. lia. }
  exact (eq_trans (eq_sym (compress_take s (drop ptr (W ++ T))))
           (eq_trans (f_equal (compress s) Ht) (compress_take s (drop ptr W)))).
Qed.

Lemma absorb_S (num ptr : nat) (d : list Z) (s : state) :
  absorb (S num) ptr d s = absorb num (ptr + 16) d (compress s (drop ptr d)).
Proof.
  unfold absorb. reflexivity.
Qed.

Lemma absorb_app (num : nat) :
  forall (ptr : nat) (W T : list Z) (s : state),
    (ptr + 16 * num <= length W)%nat ->
    absorb num ptr (W ++ T) s = absorb num ptr W s.
Proof.
  induction num as [|num IH]; intros ptr W T s Hlen; [reflexivity|].
  exact (eq_trans (absorb_S num ptr (W ++ T) s)
           (eq_trans (f_equal (absorb num (ptr + 16) (W ++ T))
                        (compress_drop_app s ptr W T ltac:(lia)))
              (eq_trans (IH (ptr + 16)%nat W T (compress s (drop ptr W)) ltac:(lia))
                 (eq_sym (absorb_S num ptr W s))))).
Qed.

(** X23.  Only whole 64-byte blocks of the data are hashed: up to 63 bytes that
    follow the last whole block do not enter the digest.  ([GenerateNonces]
    relies on this where it hashes an odd number of 32-byte hashes and passes
    the last one again in the pre-terminator block.) *)
Theorem Shabal256_whole_blocks (data tail : list Z) (pre_term : option (list Z))
  (term : list Z) :
  Nat.modulo (length data) 64 = 0%nat -> (length tail < 64)%nat ->
  Shabal256 (data ++ tail) pre_term term = Shabal256 data pre_term term.
Proof.
  intros Hmod Htail. unfold Shabal256, Shabal256_state. cbv zeta.
  apply Nat.Div0.div_exact in Hmod.
  set (k := Nat.div (length data) 64) in *.
  assert (Hnum : Nat.div (length (data ++ tail)) 64 = k).
  { rewrite length_app, Hmod. rewrite (Nat.mul_comm 64 k), Nat.div_add_l by lia.
    rewrite (Nat.div_small (length tail) 64) by lia. lia. }
  rewrite Hnum.
  destruct (words_of_bytes_app (16 * k) data tail ltac:(lia)) as [Happ Hlen].
  rewrite Happ. rewrite absorb_app by lia. reflexivity.
Qed.

Lemma Shabal256_whole_blocks_witness :
  Shabal256 (zero_data ++ zero_gensig) None (0x80 :: replicate 15 0)
  = Shabal256 zero_data None (0x80 :: replicate 15 0).
Proof.
  apply (Shabal256_whole_blocks zero_data zero_gensig None (0x80 :: replicate 15 0)).
  - reflexivity.
  - cbn. lia.
Defined.

End ShabalMore.

(** ** Plot generation and the quality of a nonce *)

Section PlotMore.
Import PlotGeneration.

(** With one nonce per call and a slot inside the target, the scatter goes
    through. *)
Lemma unpack_shuffle_scatter_ok (source target : list Z)
  (source_size target_size target_offset : Z) :
  0 <= target_offset < target_size / NONCE_SIZE ->
  exists target',
    unpack_shuffle_scatter (Some source) source_size (Some target) target_size
                           target_offset 1
    = (0, Some target').
Proof.
  intros Hoff. unfold unpack_shuffle_scatter.
  change (1 =? 0) with false. cbv iota. cbv zeta.
  rewrite Z.geb_leb. destruct (Z.leb_spec (target_size / NONCE_SIZE) target_offset); [lia|].
  eexists. reflexivity.
Qed.

Lemma nonce_loop_ok (cache_size cache_offset start_nonce : Z) (t3 : list Z)
  (count : nat) :
  forall (n : Z) (w : work),
    0 <= cache_offset -> 0 <= n ->
    cache_offset + n + Z.of_nat count <= cache_size / NONCE_SIZE ->
    cache_offset + n + Z.of_nat count <= 2 ^ 64 ->
    fst (nonce_loop count n cache_size cache_offset start_nonce t3 w) = 0.
Proof.
  induction count as [|count IH]; intros n w Hoff Hn Hfit Hwrap; [reflexivity|].
  cbn [nonce_loop].
  destruct (hash_nonce _ _ _ _ _) as [buffer pt2].
  rewrite (u64_small (cache_offset + n)) by lia.
  destruct (unpack_shuffle_scatter_ok buffer (w_cache w) NONCE_SIZE cache_size
              (cache_offset + n) ltac:(lia)) as [cache' ->].
  apply IH; lia.
Qed.

(** What [GenerateNonces] returns once the size check is decided. *)
Lemma GenerateNonces_returns (cache address_payload seed : list Z)
  (cache_size cache_offset start_nonce num_nonces : Z) :
  0 <= cache_offset -> 0 <= num_nonces ->
  (cache_offset + num_nonces) * NONCE_SIZE < 2 ^ 64 ->
  exists cache',
    GenerateNonces (Some cache) cache_size cache_offset (Some address_payload)
                   (Some seed) start_nonce num_nonces
    = (if cache_size <? (cache_offset + num_nonces) * NONCE_SIZE then -2 else 0,
       Some cache').
Proof.
  intros Hoff Hnum Hsize. unfold GenerateNonces.
  assert (HN : NONCE_SIZE = 262144) by reflexivity.
  rewrite (u64_small (cache_offset + num_nonces)) by lia.
  rewrite u64_small by lia.
  destruct (Z.ltb_spec cache_size ((cache_offset + num_nonces) * NONCE_SIZE)) as [|Hfit].
  { eexists. reflexivity. }
  cbv zeta.
  match goal with
  | |- context [nonce_loop ?c ?n ?cs ?co ?sn ?t3 ?w] =>
      pose proof (nonce_loop_ok cs co sn t3 c n w) as Hok;
      destruct (nonce_loop c n cs co sn t3 w) as [code cache']
  end.
  cbn [fst] in Hok. rewrite Hok.
  - eexists. reflexivity.
  - assumption.
  - lia.
  - rewrite Z2Nat.id by lia. rewrite Z.add_0_r.
    apply Z.div_le_lower_bound; lia.
  - rewrite Z2Nat.id by lia. lia.
Qed.

(** X24.  The return code of [GenerateNonces], as long as the required size does
    not wrap: -2 when the cache is too small and 0 otherwise.  The size check
    makes the scatter of every nonce succeed, so -4 is not returned. *)
Theorem GenerateNonces_code (cache address_payload seed : list Z)
  (cache_size cache_offset start_nonce num_nonces : Z) :
  0 <= cache_offset -> 0 <= num_nonces ->
  (cache_offset + num_nonces) * NONCE_SIZE < 2 ^ 64 ->
  exists cache',
    GenerateNonces (Some cache) cache_size cache_offset (Some address_payload)
                   (Some seed) start_nonce num_nonces
    = (if cache_size <? (cache_offset + num_nonces) * NONCE_SIZE then -2 else 0,
       Some cache').
Proof. apply GenerateNonces_returns. Qed.

Lemma GenerateNonces_code_witness :
  exists cache',
    GenerateNonces (Some (replicate 10 0)) 10 0 (Some sample_plot) (Some zero_gensig)
                   1337 1
    = (if 10 <? (0 + 1) * NONCE_SIZE then -2 else 0, Some cache').
Proof.
  apply (GenerateNonces_code (replicate 10 0) sample_plot zero_gensig 10 0 1337 1).
  - lia.
  - lia.
  - vm_compute. reflexivity.
Defined.

(** A loop nest is a loop over the pairs of its counters. *)
Lemma fold_left_nested {A X Y : Type} (F : A -> X -> Y -> A) (xs : list X)
  (ys : list Y) :
  forall a,
    fold_left (fun a x => fold_left (fun a y => F a x y) ys a) xs a
    = fold_left (fun a p => F a (fst p) (snd p)) (list_prod xs ys) a.
Proof.
  induction xs as [|x xs IH]; intros a; [reflexivity|].
  cbn [fold_left list_prod]. rewrite fold_left_app, <- IH. f_equal.
  clear IH. revert a. induction ys as [|y ys IHy]; intros a; [reflexivity|].
  cbn [map fold_left fst snd]. apply IHy.

Qed.

(** A run of single writes: cells that no write names keep their content, and
    a cell that some write names holds the value of that write, provided all
    writes naming it agree. *)
Lemma fold_left_writes {X : Type} (pos : X -> nat) (val : X -> Z) (xs : list X) :
  forall t : list Z,
    let t' := fold_left (fun t x => <[pos x := val x]> t) xs t in
    length t' = length t /\
    (forall q, (forall x, In x xs -> pos x <> q) -> t' !!! q = t !!! q) /\
    (forall x, In x xs -> (pos x < length t)%nat ->
               (forall y, In y xs -> pos y = pos x -> val y = val x) ->
               t' !!! (pos x) = val x).
Proof.
  induction xs as [|a xs IH] using rev_ind; intros t; cbv zeta.
  - cbn. split; [reflexivity|]. split; [reflexivity|]. intros x [].
  - rewrite fold_left_app. cbn [fold_left].
    destruct (IH t) as (Hlen & Hframe & Hhit). cbv zeta in Hlen, Hframe, Hhit.
    set (t1 := fold_left (fun t x => <[pos x := val x]> t) xs t) in *.
    split; [rewrite length_insert; exact Hlen|]. split.
    + intros q Hq. rewrite list_lookup_total_insert_ne.
      * apply Hframe. intros x Hx. apply Hq. apply in_or_app. left. exact Hx.
      * apply Hq. apply in_or_app. right. left. reflexivity.
    + intros x Hx Hlt Hagree.
      destruct (Nat.eq_dec (pos a) (pos x)) as [Heq|Hne].
      * rewrite <- Heq. rewrite list_lookup_total_insert_eq by (rewrite Hlen, Heq; exact Hlt).
        apply Hagree; [apply in_or_app; right; left; reflexivity|exact Heq].
      * rewrite list_lookup_total_insert_ne by exact Hne.
        apply in_app_or in Hx. destruct Hx as [Hx|[<-|[]]]; [|contradiction].
        apply Hhit; [exact Hx|exact Hlt|].
        intros y Hy. apply Hagree. apply in_or_app. left. exact Hy.
Qed.

(** The loop nest of [unpack_shuffle_scatter] for one nonce, as a run of
    single byte writes over the tuples [(((i, j), k), e)]. *)
Lemma scatter_writes (source target : list Z) (count off : Z) :
  fold_left
    (fun target i =>
       fold_left
         (fun target j =>
            fold_left
              (fun target k =>
                 memcpy target (data_offset i j k count off)
                        source (buffer_offset i j k 1) 4)
              (counting 1) target)
         [0; 4; 8; 12; 16; 20; 24; 28] target)
    (counting (NUM_SCOOPS * 2)) target
  = fold_left
      (fun t p =>
         <[(Z.to_nat (data_offset (fst (fst (fst p))) (snd (fst (fst p)))
                                  (snd (fst p)) count off) + snd p)%nat
           := source !!! (Z.to_nat (buffer_offset (fst (fst (fst p)))
                                                  (snd (fst (fst p)))
                                                  (snd (fst p)) 1) + snd p)%nat]> t)
      (list_prod
         (list_prod
            (list_prod (counting (NUM_SCOOPS * 2)) [0; 4; 8; 12; 16; 20; 24; 28])
            (counting 1))
         (seq 0 4))
      target.
Proof.
  unfold memcpy.
  etransitivity.
  { apply (fold_left_nested
             (fun target i j =>
                fold_left
                  (fun target k =>
                     fold_left
                       (fun dst e =>
                          <[(Z.to_nat (data_offset i j k count off) + e)%nat
                            := source !!! (Z.to_nat (buffer_offset i j k 1) + e)%nat]>
                            dst)
                       (seq 0 4) target)
                  (counting 1) target)). }
  etransitivity.
  { apply (fold_left_nested
             (fun target p k =>
                fold_left
                  (fun dst e =>
                     <[(Z.to_nat (data_offset (fst p) (snd p) k count off) + e)%nat
                       := source !!! (Z.to_nat (buffer_offset (fst p) (snd p) k 1)
                                      + e)%nat]> dst)
                  (seq 0 4) target)). }
  apply (fold_left_nested
           (fun dst p e =>
              <[(Z.to_nat (data_offset (fst (fst p)) (snd (fst p)) (snd p) count off)
                 + e)%nat
                := source !!! (Z.to_nat (buffer_offset (fst (fst p)) (snd (fst p))
                                                       (snd p) 1) + e)%nat]> dst)).
Qed.

(** The scoop and the half of it that hash number [i] of a nonce goes to. *)
Lemma data_offset_slot (i j count off : Z) :
  0 <= i < 8192 -> 0 <= j < 32 -> 0 <= off < count -> count * NONCE_SIZE < 2 ^ 64 ->
  data_offset i j 0 count off
  = ((if i mod 2 =? 0 then i / 2 else 4095 - i / 2) * count + off) * 64
    + i mod 2 * 32 + j.
Proof.
  intros Hi Hj Hoff Hsize. unfold data_offset.
  replace (Z.land i 1) with (i mod 2)
    by (symmetry; apply (Z.land_ones i 1); lia).
  replace (Z.land (i + 1) 1) with ((i + 1) mod 2)
    by (symmetry; apply (Z.land_ones (i + 1) 1); lia).
  rewrite Z.shiftr_div_pow2 by lia. change (2 ^ 1) with 2.
  change SCOOP_SIZE with 64. change NONCE_SIZE with 262144 in Hsize.
  pose proof (Z.div_mod i 2 ltac:(lia)) as Hdm.
  pose proof (Z.mod_pos_bound i 2 ltac:(lia)) as Hmb.
  pose proof (Z.div_mod (i + 1) 2 ltac:(lia)) as Hdm1.
  pose proof (Z.mod_pos_bound (i + 1) 2 ltac:(lia)) as Hmb1.
  assert (Hm : i mod 2 = 0 /\ (i + 1) mod 2 = 1 \/ i mod 2 = 1 /\ (i + 1) mod 2 = 0)
    by lia.
  assert (Hd : 0 <= i / 2 < 4096) by lia.
  clear Hdm Hmb Hdm1 Hmb1.
  destruct Hm as [[-> ->]|[-> ->]]; cbn [Z.eqb].
  - rewrite u64_small by nia. ring.
  - rewrite u64_small by nia. ring.
Qed.

Lemma in_counting (n x : Z) : In x (counting n) <-> 0 <= x < n.
Proof.
  unfold counting. rewrite in_map_iff. split.
  - intros (m & <- & Hm). apply in_seq in Hm. lia.
  - intros Hx. exists (Z.to_nat x). split; [lia|]. apply in_seq. lia.
Qed.

(** Two slots of the scatter coincide only if scoop, half and byte do. *)
Lemma slot_inj (count off s h r s' h' r' : Z) :
  0 < count ->
  0 <= h < 2 -> 0 <= r < 32 -> 0 <= h' < 2 -> 0 <= r' < 32 ->
  (s * count + off) * 64 + h * 32 + r = (s' * count + off) * 64 + h' * 32 + r' ->
  s = s' /\ h = h' /\ r = r'.
Proof.
  intros Hc Hh Hr Hh' Hr' Heq.
  assert (Hu : s * count = s' * count) by lia.
  apply Z.mul_reg_r in Hu; [|lia]. subst s'. lia.
Qed.

(** Every write of the scatter, by scoop [s], half [h] and byte [r]. *)
Lemma scatter_tuple (count off : Z) (p : Z * Z * Z * nat) :
  0 <= off < count -> count * NONCE_SIZE < 2 ^ 64 ->
  In p (list_prod
          (list_prod
             (list_prod (counting (NUM_SCOOPS * 2)) [0; 4; 8; 12; 16; 20; 24; 28])
             (counting 1))
          (seq 0 4)) ->
  exists s h r,
    0 <= s < 4096 /\ 0 <= h < 2 /\ 0 <= r < 32 /\
    (Z.to_nat (data_offset (fst (fst (fst p))) (snd (fst (fst p))) (snd (fst p))
                           count off) + snd p)%nat
    = Z.to_nat ((s * count + off) * 64 + h * 32 + r) /\
    (Z.to_nat (buffer_offset (fst (fst (fst p))) (snd (fst (fst p))) (snd (fst p)) 1)
     + snd p)%nat
    = Z.to_nat ((if h =? 0 then 2 * s else 2 * (4095 - s) + 1) * 32 + r).
Proof.
  intros Hoff Hsize Hin. destruct p as [[[i j] k] e]. cbn [fst snd].
  apply in_prod_iff in Hin. destruct Hin as [Hin He].
  apply in_prod_iff in Hin. destruct Hin as [Hin Hk].
  apply in_prod_iff in Hin. destruct Hin as [Hi Hj].
  apply in_counting in Hi. change (NUM_SCOOPS * 2) with 8192 in Hi.
  apply in_counting in Hk. assert (k = 0) by lia. subst k.
  apply in_seq in He.
  assert (Hj' : 0 <= j <= 28).
  { cbn [In] in Hj. lia. }
  pose proof (Z.div_mod i 2 ltac:(lia)) as Hdm.
  pose proof (Z.mod_pos_bound i 2 ltac:(lia)) as Hmb.
  exists (if i mod 2 =? 0 then i / 2 else 4095 - i / 2), (i mod 2), (j + Z.of_nat e).
  assert (Hs : 0 <= (if i mod 2 =? 0 then i / 2 else 4095 - i / 2) < 4096)
    by (destruct (i mod 2 =? 0); lia).
  split; [exact Hs|]. split; [lia|]. split; [lia|].
  rewrite data_offset_slot by lia.
  unfold buffer_offset. rewrite u64_small by lia.
  set (s := if i mod 2 =? 0 then i / 2 else 4095 - i / 2) in *.
  assert (Hsc : 0 <= s * count) by nia.
  split; [lia|].
  assert (Hi2 : (if i mod 2 =? 0 then 2 * s else 2 * (4095 - s) + 1) = i).
  { unfold s. destruct (Z.eqb_spec (i mod 2) 0); lia. }
  rewrite Hi2. lia.
Qed.

(** Conversely each scoop, half and byte is written by some tuple. *)
Lemma scatter_tuple_exists (count off s h r : Z) :
  0 <= off < count -> count * NONCE_SIZE < 2 ^ 64 ->
  0 <= s < 4096 -> 0 <= h < 2 -> 0 <= r < 32 ->
  exists p,
    In p (list_prod
            (list_prod
               (list_prod (counting (NUM_SCOOPS * 2)) [0; 4; 8; 12; 16; 20; 24; 28])
               (counting 1))
            (seq 0 4)) /\
    (Z.to_nat (data_offset (fst (fst (fst p))) (snd (fst (fst p))) (snd (fst p))
                           count off) + snd p)%nat
    = Z.to_nat ((s * count + off) * 64 + h * 32 + r) /\
    (Z.to_nat (buffer_offset (fst (fst (fst p))) (snd (fst (fst p))) (snd (fst p)) 1)
     + snd p)%nat
    = Z.to_nat ((if h =? 0 then 2 * s else 2 * (4095 - s) + 1) * 32 + r).
Proof.
  intros Hoff Hsize Hs Hh Hr.
  set (i := if h =? 0 then 2 * s else 2 * (4095 - s) + 1).
  assert (Hi : 0 <= i < 8192) by (unfold i; destruct (h =? 0); lia).
  pose proof (Z.div_mod r 4 ltac:(lia)) as Hdm.
  pose proof (Z.mod_pos_bound r 4 ltac:(lia)) as Hmb.
  assert (Hq : 0 <= r / 4 < 8) by lia.
  assert (Him : i mod 2 = h /\ i / 2 = (if h =? 0 then s else 4095 - s)).
  { unfold i. destruct (Z.eqb_spec h 0) as [->|Hh1].
    - split; [symmetry; apply Z.mod_unique with (q := s); lia|].
      symmetry. apply Z.div_unique with (r := 0); lia.
    - assert (h = 1) by lia. subst h.
      split; [symmetry; apply Z.mod_unique with (q := 4095 - s); lia|].
      symmetry. apply Z.div_unique with (r := 1); lia. }
  destruct Him as [Hmod Hdiv].
  exists (i, 4 * (r / 4), 0, Z.to_nat (r mod 4)). cbn [fst snd]. split.
  - apply in_prod_iff. split; [|apply in_seq; lia].
    apply in_prod_iff. split; [|apply in_counting; lia].
    apply in_prod_iff. split; [apply in_counting; change (NUM_SCOOPS * 2) with 8192; lia|].
    assert (Hc : r / 4 = 0 \/ r / 4 = 1 \/ r / 4 = 2 \/ r / 4 = 3 \/ r / 4 = 4 \/
                 r / 4 = 5 \/ r / 4 = 6 \/ r / 4 = 7) by lia.
    cbn [In].
    destruct Hc as [->|[->|[->|[->|[->|[->|[->| ->]]]]]]]; cbn; tauto.
  - rewrite data_offset_slot by lia.
    unfold buffer_offset. rewrite u64_small by lia.
    rewrite Hmod, Hdiv.
    assert (Hsel : (if h =? 0 then if h =? 0 then s else 4095 - s
                    else 4095 - (if h =? 0 then s else 4095 - s)) = s)
      by (destruct (h =? 0); lia).
    rewrite Hsel.
    assert (Hsc : 0 <= s * count) by nia.
    split; lia.
Qed.

(** The cells one scatter writes, and the bytes it leaves alone. *)
Lemma scatter_cells (source target : list Z)
  (source_size target_size target_offset : Z) :
  0 <= target_offset < target_size / NONCE_SIZE ->
  target_size <= Z.of_nat (length target) -> target_size < 2 ^ 64 ->
  exists target',
    unpack_shuffle_scatter (Some source) source_size (Some target) target_size
                           target_offset 1
    = (0, Some target') /\
    length target' = length target /\
    (forall s r,
       0 <= s < NUM_SCOOPS -> 0 <= r < 32 ->
       target' !!! Z.to_nat ((s * (target_size / NONCE_SIZE) + target_offset)
                             * SCOOP_SIZE + r)
       = source !!! Z.to_nat (2 * s * 32 + r) /\
       target' !!! Z.to_nat ((s * (target_size / NONCE_SIZE) + target_offset)
                             * SCOOP_SIZE + 32 + r)
       = source !!! Z.to_nat ((2 * (4095 - s) + 1) * 32 + r)) /\
    (forall q,
       (forall s c, 0 <= s < NUM_SCOOPS -> 0 <= c < SCOOP_SIZE ->
                    q <> Z.to_nat ((s * (target_size / NONCE_SIZE) + target_offset)
                                   * SCOOP_SIZE + c)) ->
       target' !!! q = target !!! q).
Proof.
  intros Hoff Hlen Hsize. unfold unpack_shuffle_scatter.
  change (1 =? 0) with false. cbv iota zeta.
  rewrite Z.geb_leb. destruct (Z.leb_spec (target_size / NONCE_SIZE) target_offset); [lia|].
  set (count := target_size / NONCE_SIZE) in *.
  assert (Hcount : count * NONCE_SIZE <= target_size).
  { unfold count. rewrite Z.mul_comm. apply Z.mul_div_le. reflexivity. }
  eexists. split; [reflexivity|].
  rewrite scatter_writes.
  destruct (fold_left_writes
              (fun p : Z * Z * Z * nat =>
                 (Z.to_nat (data_offset (fst (fst (fst p))) (snd (fst (fst p)))
                                        (snd (fst p)) count target_offset)
                  + snd p)%nat)
              (fun p : Z * Z * Z * nat =>
                 source !!! (Z.to_nat (buffer_offset (fst (fst (fst p)))
                                                     (snd (fst (fst p)))
                                                     (snd (fst p)) 1)
                             + snd p)%nat)
              (list_prod
                 (list_prod
                    (list_prod (counting (NUM_SCOOPS * 2))
                               [0; 4; 8; 12; 16; 20; 24; 28])
                    (counting 1))
                 (seq 0 4))
              target)
    as (Hl & Hframe & Hhit).
  cbv beta in Hl, Hframe, Hhit.
  match type of Hl with
  | length ?t = _ => set (t' := t) in *
  end.
  clearbody t'.
  split; [exact Hl|].
  change NUM_SCOOPS with 4096. change SCOOP_SIZE with 64.
  assert (Hwrite : forall s h r,
             0 <= s < 4096 -> 0 <= h < 2 -> 0 <= r < 32 ->
             t' !!! Z.to_nat ((s * count + target_offset) * 64 + h * 32 + r)
             = source !!! Z.to_nat ((if h =? 0 then 2 * s else 2 * (4095 - s) + 1)
                                    * 32 + r)).
  { intros s h r Hs Hh Hr.
    destruct (scatter_tuple_exists count target_offset s h r)
      as (p & Hp & Hpos & Hsrc); try lia.
    rewrite <- Hpos, <- Hsrc. apply Hhit.
    - exact Hp.
    - rewrite Hpos. change NONCE_SIZE with 262144 in Hcount. nia.
    - intros y Hy Hyp.
      destruct (scatter_tuple count target_offset y) as (s' & h' & r' & Hs' & Hh' & Hr' & Hpos' & Hsrc');
        try lia; [exact Hy|].
      rewrite Hsrc', Hsrc. rewrite Hpos', Hpos in Hyp.
      assert (0 <= s * count /\ 0 <= s' * count) by nia.
      apply Z2Nat.inj in Hyp; try lia.
      destruct (slot_inj count target_offset s' h' r' s h r) as (-> & -> & ->);
        [lia|lia|lia|lia|lia|lia|reflexivity]. }
  split.
  - intros s r Hs Hr. split.
    + specialize (Hwrite s 0 r Hs ltac:(lia) Hr). cbn [Z.eqb] in Hwrite.
      replace ((s * count + target_offset) * 64 + r)
        with ((s * count + target_offset) * 64 + 0 * 32 + r) by ring.
      exact Hwrite.
    + specialize (Hwrite s 1 r Hs ltac:(lia) Hr). cbn [Z.eqb Pos.eqb] in Hwrite.
      replace ((s * count + target_offset) * 64 + 32 + r)
        with ((s * count + target_offset) * 64 + 1 * 32 + r) by ring.
      exact Hwrite.
  - intros q Hq. apply Hframe. intros y Hy Hyq.
    destruct (scatter_tuple count target_offset y) as (s' & h' & r' & Hs' & Hh' & Hr' & Hpos' & Hsrc');
      try lia; [exact Hy|].
    apply (Hq s' (h' * 32 + r')); [lia|lia|].
    rewrite <- Hyq, Hpos'. f_equal. ring.
Qed.

(** X25.  The scatter of one nonce is the PoC2 shuffle into a scoop-major cache.
    With [count = target_size / NONCE_SIZE] nonces per scoop row, scoop [s] of
    the nonce in slot [target_offset] sits at byte
    [(s * count + target_offset) * 64]; its first half is hash number [2 s]
    of the nonce buffer and its second half is hash number
    [2 (4095 - s) + 1], the odd hash of the mirrored scoop.  The buffer keeps
    its length and every byte outside these 4096 cells of 64 bytes keeps its
    content, so no write leaves the target. *)
Theorem unpack_shuffle_scatter_layout (source target : list Z)
  (source_size target_size target_offset : Z) :
  0 <= target_offset < target_size / NONCE_SIZE ->
  target_size <= Z.of_nat (length target) -> target_size < 2 ^ 64 ->
  exists target',
    unpack_shuffle_scatter (Some source) source_size (Some target) target_size
                           target_offset 1
    = (0, Some target') /\
    length target' = length target /\
    (forall s r,
       0 <= s < NUM_SCOOPS -> 0 <= r < 32 ->
       target' !!! Z.to_nat ((s * (target_size / NONCE_SIZE) + target_offset)
                             * SCOOP_SIZE + r)
       = source !!! Z.to_nat (2 * s * 32 + r) /\
       target' !!! Z.to_nat ((s * (target_size / NONCE_SIZE) + target_offset)
                             * SCOOP_SIZE + 32 + r)
       = source !!! Z.to_nat ((2 * (4095 - s) + 1) * 32 + r)) /\
    (forall q,
       (forall s c, 0 <= s < NUM_SCOOPS -> 0 <= c < SCOOP_SIZE ->
                    q <> Z.to_nat ((s * (target_size / NONCE_SIZE) + target_offset)
                                   * SCOOP_SIZE + c)) ->
       target' !!! q = target !!! q).
Proof. apply scatter_cells. Qed.

Lemma unpack_shuffle_scatter_layout_witness :
  exists target',
    unpack_shuffle_scatter (Some blank_nonce) NONCE_SIZE (Some blank_nonce) 262144 0 1
    = (0, Some target') /\
    length target' = length blank_nonce /\
    (forall s r,
       0 <= s < NUM_SCOOPS -> 0 <= r < 32 ->
       target' !!! Z.to_nat ((s * (262144 / NONCE_SIZE) + 0) * SCOOP_SIZE + r)
       = blank_nonce !!! Z.to_nat (2 * s * 32 + r) /\
       target' !!! Z.to_nat ((s * (262144 / NONCE_SIZE) + 0) * SCOOP_SIZE + 32 + r)
       = blank_nonce !!! Z.to_nat ((2 * (4095 - s) + 1) * 32 + r)) /\
    (forall q,
       (forall s c, 0 <= s < NUM_SCOOPS -> 0 <= c < SCOOP_SIZE ->
                    q <> Z.to_nat ((s * (262144 / NONCE_SIZE) + 0) * SCOOP_SIZE + c)) ->
       target' !!! q = blank_nonce !!! q).
Proof.
  apply (unpack_shuffle_scatter_layout blank_nonce blank_nonce NONCE_SIZE 262144 0).
  - vm_compute. split; [discriminate|reflexivity].
  - vm_compute. discriminate.
  - vm_compute. reflexivity.
Defined.

Lemma nonce_loop_frame (cache_size cache_offset start_nonce : Z) (t3 : list Z)
  (count : nat) :
  forall (n : Z) (w : work),
    0 <= cache_offset -> 0 <= n ->
    cache_offset + n + Z.of_nat count <= cache_size / NONCE_SIZE ->
    cache_size <= Z.of_nat (length (w_cache w)) -> cache_size < 2 ^ 64 ->
    length (snd (nonce_loop count n cache_size cache_offset start_nonce t3 w))
    = length (w_cache w) /\
    forall q,
      (forall m s c,
         cache_offset + n <= m < cache_offset + n + Z.of_nat count ->
         0 <= s < NUM_SCOOPS -> 0 <= c < SCOOP_SIZE ->
         q <> Z.to_nat ((s * (cache_size / NONCE_SIZE) + m) * SCOOP_SIZE + c)) ->
      snd (nonce_loop count n cache_size cache_offset start_nonce t3 w) !!! q
      = w_cache w !!! q.
Proof.
  induction count as [|count IH]; intros n w Hoff Hn Hfit Hlen Hsize.
  { cbn [nonce_loop snd]. split; [reflexivity|]. intros q _. reflexivity. }
  cbn [nonce_loop].
  destruct (hash_nonce _ _ _ _ _) as [buffer pt2].
  assert (Hcount : cache_size / NONCE_SIZE * NONCE_SIZE <= cache_size)
    by (rewrite Z.mul_comm; apply Z.mul_div_le; reflexivity).
  rewrite (u64_small (cache_offset + n)) by (change NONCE_SIZE with 262144 in *; lia).
  destruct (scatter_cells buffer (w_cache w) NONCE_SIZE cache_size
              (cache_offset + n) ltac:(lia) Hlen Hsize)
    as (cache1 & -> & Hlen1 & _ & Hframe1).
  match goal with
  | |- context [nonce_loop count ?n' _ _ _ _ ?w'] =>
      destruct (IH n' w') as (Hlen2 & Hframe2); cbn [w_cache]; try lia
  end.
  cbn [w_cache] in Hlen2, Hframe2.
  split; [rewrite Hlen2; exact Hlen1|].
  intros q Hq. rewrite Hframe2.
  - apply Hframe1. intros s c Hs Hc. apply (Hq (cache_offset + n)); lia.
  - intros m s c Hm Hs Hc. apply Hq; lia.
Qed.

(** Two lists of one length with the same content are the same list. *)
Lemma list_eq_total (l1 l2 : list Z) :
  length l1 = length l2 ->
  (forall q, (q < length l1)%nat -> l1 !!! q = l2 !!! q) ->
  l1 = l2.
Proof.
  intros Hlen H. apply (list_eq_same_length l1 l2 (length l1)); [congruence|reflexivity|].
  intros i x y Hi Hx Hy.
  specialize (H i Hi).
  rewrite (list_lookup_total_correct l1 i x Hx) in H.
  rewrite (list_lookup_total_correct l2 i y Hy) in H. exact H.
Qed.

(** Reading past the end of a list gives the default value. *)
Lemma lookup_total_past (l : list Z) (q : nat) :
  (length l <= q)%nat -> l !!! q = inhabitant.
Proof.
  intros H. rewrite list_lookup_total_alt, lookup_ge_None_2 by exact H. reflexivity.
Qed.

(** What [memcpy] leaves in the destination. *)
Lemma memcpy_spec (dst : list Z) (d : Z) (src : list Z) (s : Z) (n : nat) :
  length (memcpy dst d src s n) = length dst /\
  (forall q, (q < Z.to_nat d \/ Z.to_nat d + n <= q)%nat ->
             memcpy dst d src s n !!! q = dst !!! q) /\
  (forall e, (e < n)%nat -> (Z.to_nat d + e < length dst)%nat ->
             memcpy dst d src s n !!! (Z.to_nat d + e)%nat
             = src !!! (Z.to_nat s + e)%nat).
Proof.
  unfold memcpy.
  destruct (fold_left_writes (fun e => (Z.to_nat d + e)%nat)
              (fun e => src !!! (Z.to_nat s + e)%nat) (seq 0 n) dst)
    as (Hlen & Hframe & Hhit).
  cbv zeta in Hlen, Hframe, Hhit.
  split; [exact Hlen|]. split.
  - intros q Hq. apply Hframe. intros x Hx. apply in_seq in Hx. lia.
  - intros e He Hlt. apply (Hhit e).
    + apply in_seq. lia.
    + exact Hlt.
    + intros y _ Hy. f_equal. lia.
Qed.

(** A second copy to the same place replaces the first. *)
Lemma memcpy_memcpy (dst : list Z) (d : Z) (a b : list Z) (s s' : Z) (n : nat) :
  memcpy (memcpy dst d a s n) d b s' n = memcpy dst d b s' n.
Proof.
  destruct (memcpy_spec dst d a s n) as (L1 & F1 & _).
  destruct (memcpy_spec (memcpy dst d a s n) d b s' n) as (L2 & F2 & H2).
  destruct (memcpy_spec dst d b s' n) as (L3 & F3 & H3).
  apply list_eq_total; [congruence|].
  intros q Hq. rewrite L2, L1 in Hq.
  destruct (Nat.lt_ge_cases q (Z.to_nat d)) as [Hlo|Hlo].
  { rewrite F2, F1, F3 by lia. reflexivity. }
  destruct (Nat.lt_ge_cases q (Z.to_nat d + n)) as [Hhi|Hhi].
  - replace q with (Z.to_nat d + (q - Z.to_nat d))%nat by lia.
    rewrite H2, H3 by lia. reflexivity.
  - rewrite F2, F1, F3 by lia. reflexivity.
Qed.

(** Lists that agree from [i] on have the same [drop i]. *)
Lemma drop_agree (b b' : list Z) (i : nat) :
  length b = length b' ->
  (forall q, (i <= q)%nat -> b !!! q = b' !!! q) ->
  drop i b = drop i b'.
Proof.
  intros Hlen H. apply list_eq_total.
  - rewrite !length_drop. lia.
  - intros q Hq. rewrite length_drop in Hq.
    rewrite !lookup_total_drop. apply H. lia.
Qed.

(** One of the two hashing loops of [hash_nonce], run on two buffers that
    agree from [top] on: each step hashes bytes that lie at or above its
    index and writes the 32 bytes below it, so the buffers agree from
    [top - 32 n] on after [n] steps. *)
Lemma hash_loop_agree (H : list Z -> Z -> list Z) (len_of : Z -> Z) (top : Z)
  (n : nat) :
  forall b b' : list Z,
    length b = length b' -> top <= Z.of_nat (length b) ->
    32 * Z.of_nat n <= top ->
    (forall q, top <= Z.of_nat q -> b !!! q = b' !!! q) ->
    let F := fun buffer i =>
               memcpy buffer (i - HASH_SIZE)
                      (H (take (Z.to_nat (len_of i)) (drop (Z.to_nat i) buffer)) i)
                      0 32 in
    let l := map (fun m => top - HASH_SIZE * Z.of_nat m) (seq 0 n) in
    length (fold_left F l b) = length b /\
    length (fold_left F l b') = length b' /\
    (forall q, top - 32 * Z.of_nat n <= Z.of_nat q ->
               fold_left F l b !!! q = fold_left F l b' !!! q).
Proof.
  induction n as [|n IH]; intros b b' Hlen Htop Hn Hag; cbv zeta.
  { cbn [seq map fold_left]. split; [reflexivity|]. split; [reflexivity|].
    intros q Hq. apply Hag. lia. }
  rewrite seq_S, map_app, !fold_left_app. cbn [map fold_left Nat.add].
  destruct (IH b b' Hlen Htop ltac:(lia) Hag) as (L1 & L2 & Hag1).
  cbv zeta in L1, L2, Hag1.
  set (F := fun buffer i =>
              memcpy buffer (i - HASH_SIZE)
                     (H (take (Z.to_nat (len_of i)) (drop (Z.to_nat i) buffer)) i)
                     0 32) in *.
  set (l := map (fun m => top - HASH_SIZE * Z.of_nat m) (seq 0 n)) in *.
  set (c := fold_left F l b) in *. set (c' := fold_left F l b') in *.
  clearbody c c'.
  set (i := top - HASH_SIZE * Z.of_nat n).
  assert (Hi : i = top - 32 * Z.of_nat n) by reflexivity.
  assert (Hdata : drop (Z.to_nat i) c = drop (Z.to_nat i) c').
  { apply drop_agree; [congruence|]. intros q Hq. apply Hag1. lia. }
  rewrite Hdata.
  set (h := H (take (Z.to_nat (len_of i)) (drop (Z.to_nat i) c')) i).
  clearbody h.
  change HASH_SIZE with 32 in *.
  destruct (memcpy_spec c (i - 32) h 0 32) as (M1 & F1 & H1).
  destruct (memcpy_spec c' (i - 32) h 0 32) as (M2 & F2 & H2).
  split; [congruence|]. split; [congruence|].
  intros q Hq.
  destruct (Z.lt_ge_cases (Z.of_nat q) i) as [Hlo|Hhi].
  - replace q with (Z.to_nat (i - 32) + (q - Z.to_nat (i - 32)))%nat by lia.
    rewrite H1, H2 by lia. reflexivity.
  - rewrite F1, F2 by lia. apply Hag1. lia.
Qed.

Lemma fold_left_length {X : Type} (f : list Z -> X -> list Z) (l : list X) :
  (forall a x, length (f a x) = length a) ->
  forall a, length (fold_left f l a) = length a.
Proof.
  intros Hf. induction l as [|x l IH]; intros a; [reflexivity|].
  cbn [fold_left]. rewrite IH. apply Hf.
Qed.

(** [pt2] after the hashes of a nonce: its first eight words are the first
    hash. *)
Lemma hash_nonce_pt2 (t1 t2 pt2 t3 buffer : list Z) :
  snd (hash_nonce t1 t2 pt2 t3 buffer)
  = memcpy pt2 0 (words_of_bytes (Shabal.Shabal256 [] None t1)) 0 8.
Proof. unfold hash_nonce. cbv zeta. reflexivity. Qed.

(** The two hashing loops of [hash_nonce] one after the other, on two buffers
    of [NONCE_SIZE] bytes that agree on the last hash: the whole buffer is
    rewritten, so the results are the same. *)
Lemma hash_loops_fresh (H1 H2 : list Z -> Z -> list Z) (len1 len2 : Z -> Z)
  (b b' : list Z) :
  Z.of_nat (length b) = NONCE_SIZE -> length b' = length b ->
  (forall q, NONCE_SIZE - HASH_SIZE <= Z.of_nat q -> b !!! q = b' !!! q) ->
  let F1 := fun buffer i =>
              memcpy buffer (i - HASH_SIZE)
                     (H1 (take (Z.to_nat (len1 i)) (drop (Z.to_nat i) buffer)) i)
                     0 32 in
  let F2 := fun buffer i =>
              memcpy buffer (i - HASH_SIZE)
                     (H2 (take (Z.to_nat (len2 i)) (drop (Z.to_nat i) buffer)) i)
                     0 32 in
  let l1 := map (fun m => NONCE_SIZE - HASH_SIZE - HASH_SIZE * Z.of_nat m)
                (seq 0 (Z.to_nat 127)) in
  let l2 := map (fun m => NONCE_SIZE - HASH_CAP - HASH_SIZE * Z.of_nat m)
                (seq 0 (Z.to_nat 8064)) in
  fold_left F2 l2 (fold_left F1 l1 b) = fold_left F2 l2 (fold_left F1 l1 b') /\
  length (fold_left F2 l2 (fold_left F1 l1 b)) = length b.
Proof.
  intros Hlen Hlen' Hag. cbv zeta.
  assert (HN : NONCE_SIZE = 262144) by reflexivity.
  assert (HS : HASH_SIZE = 32) by reflexivity.
  assert (HC : HASH_CAP = 4096) by reflexivity.
  destruct (hash_loop_agree H1 len1 (NONCE_SIZE - HASH_SIZE) (Z.to_nat 127) b b')
    as (L1 & L1' & A1); [congruence|lia|lia|exact Hag|].
  cbv zeta in L1, L1', A1.
  set (c := fold_left _ _ b) in *. set (c' := fold_left _ _ b') in *.
  clearbody c c'.
  destruct (hash_loop_agree H2 len2 (NONCE_SIZE - HASH_CAP) (Z.to_nat 8064) c c')
    as (L2 & L2' & A2); [congruence|lia|lia| |].
  { intros q Hq. apply A1. lia. }
  cbv zeta in L2, L2', A2.
  set (e := fold_left _ _ c) in *. set (e' := fold_left _ _ c') in *.
  clearbody e e'.
  split; [|congruence].
  apply list_eq_total; [congruence|].
  intros q _. apply A2. lia.
Qed.

(** The hashes of a nonce do not depend on what the work buffer held before,
    nor on the first eight words of [pt2]: both are written before they are
    read. *)
Lemma hash_nonce_fresh (t1 t2 pt2 pt2' t3 b b' : list Z) :
  Z.of_nat (length b) = NONCE_SIZE -> length b' = length b ->
  (forall W, memcpy pt2 0 W 0 8 = memcpy pt2' 0 W 0 8) ->
  hash_nonce t1 t2 pt2 t3 b = hash_nonce t1 t2 pt2' t3 b' /\
  length (fst (hash_nonce t1 t2 pt2 t3 b)) = length b.
Proof.
  intros Hlen Hlen' Hpt2. unfold hash_nonce. cbv zeta.
  rewrite (Hpt2 (words_of_bytes (Shabal.Shabal256 [] None t1))).
  set (h0 := Shabal.Shabal256 [] None t1).
  set (p := memcpy pt2' 0 (words_of_bytes h0) 0 8).
  clearbody p h0.
  assert (HN : NONCE_SIZE = 262144) by reflexivity.
  assert (HS : HASH_SIZE = 32) by reflexivity.
  destruct (memcpy_spec b (NONCE_SIZE - HASH_SIZE) h0 0 32) as (M1 & F1 & G1).
  destruct (memcpy_spec b' (NONCE_SIZE - HASH_SIZE) h0 0 32) as (M2 & F2 & G2).
  set (b0 := memcpy b (NONCE_SIZE - HASH_SIZE) h0 0 32) in *.
  set (b0' := memcpy b' (NONCE_SIZE - HASH_SIZE) h0 0 32) in *.
  clearbody b0 b0'.
  destruct (hash_loops_fresh
              (fun data i => if Z.rem i 64 =? 0 then Shabal.Shabal256 data None t1
                             else Shabal.Shabal256 data (Some p) t2)
              (fun data _ => Shabal.Shabal256 data None t3)
              (fun i => NONCE_SIZE - i) (fun _ => HASH_CAP) b0 b0')
    as (E & L); [lia|congruence| |].
  { intros q Hq.
    destruct (Z.lt_ge_cases (Z.of_nat q) NONCE_SIZE) as [Hlo|Hhi].
    - replace q with (Z.to_nat (NONCE_SIZE - HASH_SIZE)
                      + (q - Z.to_nat (NONCE_SIZE - HASH_SIZE)))%nat by lia.
      rewrite G1, G2 by lia. reflexivity.
    - rewrite !lookup_total_past by lia. reflexivity. }
  cbv beta zeta in E, L.
  cbn [fst]. rewrite fold_left_length by (intros; apply length_insert).
  split; [rewrite E; reflexivity|]. rewrite L. exact M1.
Qed.

(** The cells of different slots do not meet. *)
Lemma cell_inj (count s m c s' m' c' : Z) :
  0 <= m < count -> 0 <= m' < count -> 0 <= c < 64 -> 0 <= c' < 64 ->
  (s * count + m) * 64 + c = (s' * count + m') * 64 + c' ->
  s = s' /\ m = m' /\ c = c'.
Proof.
  intros Hm Hm' Hc Hc' Heq.
  assert (Hrow : s * count + m = s' * count + m') by lia.
  assert (Hs : s = s') by nia.
  subst s'. lia.
Qed.

(** Writing two fields again replaces what they held. *)
Lemma insert_pair_again (l : list Z) (i j : nat) (x y a b : Z) :
  i <> j ->
  <[j := y]> (<[i := x]> (<[j := a]> (<[i := b]> l))) = <[j := y]> (<[i := x]> l).
Proof.
  intros Hij. rewrite (list_insert_insert_ne _ i j x a) by exact Hij.
  rewrite list_insert_insert_eq. rewrite list_insert_insert_eq. reflexivity.
Qed.

(** The loop over the nonces, cell by cell.  Whatever the previous iterations
    left in the work buffers, the iteration for nonce [m] scatters the hashes
    computed from the terminator blocks of that nonce, and later iterations
    do not touch its cells. *)
Lemma nonce_loop_cells (T1 T2 PT2 t3 B0 : list Z)
  (cache_size cache_offset start_nonce : Z) (count : nat) :
  Z.of_nat (length B0) = NONCE_SIZE ->
  forall (n : Z) (w : work),
    (forall x y, <[14%nat := y]> (<[13%nat := x]> (w_t1 w))
                 = <[14%nat := y]> (<[13%nat := x]> T1)) ->
    (forall x y, <[6%nat := y]> (<[5%nat := x]> (w_t2 w))
                 = <[6%nat := y]> (<[5%nat := x]> T2)) ->
    (forall W, memcpy (w_pt2 w) 0 W 0 8 = memcpy PT2 0 W 0 8) ->
    Z.of_nat (length (w_buffer w)) = NONCE_SIZE ->
    0 <= cache_offset -> 0 <= n ->
    cache_offset + n + Z.of_nat count <= cache_size / NONCE_SIZE ->
    cache_size <= Z.of_nat (length (w_cache w)) -> cache_size < 2 ^ 64 ->
    forall m s r,
      n <= m < n + Z.of_nat count -> 0 <= s < NUM_SCOOPS -> 0 <= r < 32 ->
      let nonce := Encoding.U64ToU32BE (u64 (start_nonce + m)) [0; 0] in
      let hashes :=
        fst (hash_nonce (<[14%nat := nonce @ 0]> (<[13%nat := nonce @ 1]> T1))
                        (<[6%nat := nonce @ 0]> (<[5%nat := nonce @ 1]> T2))
                        PT2 t3 B0) in
      let cache' := snd (nonce_loop count n cache_size cache_offset start_nonce t3 w) in
      cache' !!! Z.to_nat ((s * (cache_size / NONCE_SIZE) + (cache_offset + m))
                           * SCOOP_SIZE + r)
      = hashes !!! Z.to_nat (2 * s * 32 + r) /\
      cache' !!! Z.to_nat ((s * (cache_size / NONCE_SIZE) + (cache_offset + m))
                           * SCOOP_SIZE + 32 + r)
      = hashes !!! Z.to_nat ((2 * (4095 - s) + 1) * 32 + r).
Proof.
  intros HB0.
  assert (HN : NONCE_SIZE = 262144) by reflexivity.
  assert (HS : SCOOP_SIZE = 64) by reflexivity.
  assert (HNS : NUM_SCOOPS = 4096) by reflexivity.
  induction count as [|count IH];
    intros n w I1 I2 I3 I4 Hoff Hn Hfit Hlen Hsize m s r Hm Hs Hr; [lia|].
  cbv zeta. cbn [nonce_loop].
  set (X := Encoding.U64ToU32BE (u64 (start_nonce + n)) [0; 0]).
  rewrite (I1 (X @ 1) (X @ 0)), (I2 (X @ 1) (X @ 0)).
  set (t1n := <[14%nat := X @ 0]> (<[13%nat := X @ 1]> T1)).
  set (t2n := <[6%nat := X @ 0]> (<[5%nat := X @ 1]> T2)).
  destruct (hash_nonce_fresh t1n t2n (w_pt2 w) PT2 t3 (w_buffer w) B0)
    as [Hfresh Hlenb]; [exact I4|lia|exact I3|].
  rewrite Hfresh in Hlenb |- *.
  pose proof (hash_nonce_pt2 t1n t2n PT2 t3 B0) as Hpt2.
  assert (Hbuf : fst (hash_nonce t1n t2n PT2 t3 B0) = fst (hash_nonce t1n t2n PT2 t3 B0))
    by reflexivity.
  destruct (hash_nonce t1n t2n PT2 t3 B0) as [buffer pt2'] in Hlenb, Hpt2, Hbuf at 1 |- *.
  cbn [fst snd] in Hlenb, Hpt2, Hbuf.
  assert (Hcount : cache_size / NONCE_SIZE * NONCE_SIZE <= cache_size)
    by (rewrite Z.mul_comm; apply Z.mul_div_le; reflexivity).
  rewrite (u64_small (cache_offset + n)) by lia.
  destruct (scatter_cells buffer (w_cache w) NONCE_SIZE cache_size
              (cache_offset + n) ltac:(lia) Hlen Hsize)
    as (cache1 & -> & Hlen1 & Hcells & _).
  set (w1 := mkWork cache1 t1n t2n pt2' buffer).
  assert (Hpos : forall a b c, 0 <= a -> 0 <= b -> 0 <= c ->
                   0 <= (a * (cache_size / NONCE_SIZE) + b) * SCOOP_SIZE + c).
  { intros a b c Ha Hb Hc. assert (0 <= cache_size / NONCE_SIZE) by lia.
    rewrite HS. nia. }
  destruct (Z.eq_dec m n) as [->|Hne].
  - destruct (nonce_loop_frame cache_size cache_offset start_nonce t3 count (n + 1) w1)
      as (_ & Hframe); cbn [w1 w_cache]; try lia.
    cbn [w1 w_cache] in Hframe.
    destruct (Hcells s r Hs Hr) as (Hc1 & Hc2).
    fold X. fold t1n t2n. rewrite <- Hbuf.
    rewrite !Hframe.
    + split; assumption.
    + intros m' s' c' Hm' Hs' Hc' Heq. rewrite <- Z.add_assoc in Heq.
      apply Z2Nat.inj in Heq; [|apply Hpos; lia|apply Hpos; lia].
      rewrite HS in Heq.
      destruct (cell_inj (cache_size / NONCE_SIZE) s (cache_offset + n) (32 + r)
                  s' m' c') as (_ & Hmm & _); lia.
    + intros m' s' c' Hm' Hs' Hc' Heq.
      apply Z2Nat.inj in Heq; [|apply Hpos; lia|apply Hpos; lia].
      rewrite HS in Heq.
      destruct (cell_inj (cache_size / NONCE_SIZE) s (cache_offset + n) r
                  s' m' c') as (_ & Hmm & _); lia.
  - apply (IH (n + 1) w1); cbn [w1 w_t1 w_t2 w_pt2 w_buffer w_cache]; try lia.
    + intros x y. unfold t1n. apply insert_pair_again. lia.
    + intros x y. unfold t2n. apply insert_pair_again. lia.
    + intros W. rewrite Hpt2. apply memcpy_memcpy.
Qed.

(** X26.  [GenerateNonces] fills the slots it is asked to fill, and nothing else.
    When the cache holds [cache_size] bytes and the size check passes, the
    call returns 0 (the allocations being taken to succeed) and the cache
    keeps its length.  With [count = cache_size / NONCE_SIZE], scoop [s] of
    nonce number [m] of the batch sits at byte
    [(s * count + cache_offset + m) * 64] and ends inside the first
    [cache_size] bytes; its first half is hash number [2 s] and its second
    half hash number [2 (4095 - s) + 1] of the hashes of nonce
    [start_nonce + m], which depend on the address, the seed and that nonce
    only, not on the nonces generated before it in the batch.  Every byte
    outside these cells keeps its content. *)
Theorem GenerateNonces_frame (cache address_payload seed : list Z)
  (cache_size cache_offset start_nonce num_nonces : Z) :
  0 <= cache_offset -> 0 <= num_nonces ->
  (cache_offset + num_nonces) * NONCE_SIZE <= cache_size ->
  cache_size <= Z.of_nat (length cache) -> cache_size < 2 ^ 64 ->
  exists cache',
    GenerateNonces (Some cache) cache_size cache_offset (Some address_payload)
                   (Some seed) start_nonce num_nonces
    = (0, Some cache') /\
    length cache' = length cache /\
    (forall m s r,
       0 <= m < num_nonces -> 0 <= s < NUM_SCOOPS -> 0 <= r < 32 ->
       (s * (cache_size / NONCE_SIZE) + (cache_offset + m)) * SCOOP_SIZE + SCOOP_SIZE
       <= cache_size /\
       cache' !!! Z.to_nat ((s * (cache_size / NONCE_SIZE) + (cache_offset + m))
                            * SCOOP_SIZE + r)
       = nonce_hashes address_payload seed (u64 (start_nonce + m))
         !!! Z.to_nat (2 * s * 32 + r) /\
       cache' !!! Z.to_nat ((s * (cache_size / NONCE_SIZE) + (cache_offset + m))
                            * SCOOP_SIZE + 32 + r)
       = nonce_hashes address_payload seed (u64 (start_nonce + m))
         !!! Z.to_nat ((2 * (4095 - s) + 1) * 32 + r)) /\
    (forall q,
       (forall m s c,
          cache_offset <= m < cache_offset + num_nonces ->
          0 <= s < NUM_SCOOPS -> 0 <= c < SCOOP_SIZE ->
          q <> Z.to_nat ((s * (cache_size / NONCE_SIZE) + m) * SCOOP_SIZE + c)) ->
       cache' !!! q = cache !!! q).
Proof.
  intros Hoff Hnum Hfit Hlen Hsize.
  assert (Hwrap : (cache_offset + num_nonces) * NONCE_SIZE < 2 ^ 64) by lia.
  assert (HN : NONCE_SIZE = 262144) by reflexivity.
  destruct (GenerateNonces_returns cache address_payload seed cache_size cache_offset
              start_nonce num_nonces Hoff Hnum Hwrap) as (cache' & Hcode).
  destruct (Z.ltb_spec cache_size ((cache_offset + num_nonces) * NONCE_SIZE)) as [|_];
    [lia|].
  exists cache'. split; [exact Hcode|].
  unfold GenerateNonces in Hcode.
  rewrite (u64_small (cache_offset + num_nonces)) in Hcode by lia.
  rewrite u64_small in Hcode by lia.
  destruct (Z.ltb_spec cache_size ((cache_offset + num_nonces) * NONCE_SIZE)) as [|_];
    [lia|].
  cbv zeta in Hcode.
  assert (Hslots : cache_offset + 0 + Z.of_nat (Z.to_nat num_nonces)
                   <= cache_size / NONCE_SIZE).
  { rewrite Z2Nat.id, Z.add_0_r by lia.
    apply Z.div_le_lower_bound; [reflexivity|lia]. }
  assert (HB : Z.of_nat (length (replicate (Z.to_nat NONCE_SIZE) 0)) = NONCE_SIZE)
    by (rewrite length_replicate, Z2Nat.id; lia).
  match type of Hcode with
  | context [nonce_loop ?c ?n ?cs ?co ?sn ?t3 (mkWork ?ca ?t1 ?t2 ?pt2 ?bu)] =>
      pose proof (nonce_loop_frame cs co sn t3 c n (mkWork ca t1 t2 pt2 bu)) as Hfr;
      pose proof (fun m s r =>
                    nonce_loop_cells t1 t2 pt2 t3 bu cs co sn c HB
                      n (mkWork ca t1 t2 pt2 bu)
                      (fun _ _ => eq_refl) (fun _ _ => eq_refl) (fun _ => eq_refl)
                      HB Hoff (Z.le_refl 0) Hslots Hlen Hsize m s r) as Hce;
      destruct (nonce_loop c n cs co sn t3 (mkWork ca t1 t2 pt2 bu)) as [code cache1]
  end.
  injection Hcode as _ <-.
  cbv zeta in Hce. cbn [snd] in Hce.
  cbn [snd w_cache] in Hfr.
  destruct Hfr as (Hlen' & Hframe); try lia.
  split; [exact Hlen'|]. split.
  - intros m s r Hm Hs Hr. split.
    + assert (Hcount : cache_size / NONCE_SIZE * NONCE_SIZE <= cache_size)
        by (rewrite Z.mul_comm; apply Z.mul_div_le; reflexivity).
      rewrite Z2Nat.id, Z.add_0_r in Hslots by lia.
      assert (Hrow : s * (cache_size / NONCE_SIZE) <= 4095 * (cache_size / NONCE_SIZE))
        by (apply Z.mul_le_mono_nonneg_r; [lia|change NUM_SCOOPS with 4096 in Hs; lia]).
      change SCOOP_SIZE with 64. lia.
    + unfold nonce_hashes. cbv zeta.
      apply (Hce m s r); [|exact Hs|exact Hr].
      rewrite Z2Nat.id by lia. lia.
  - intros q Hq. apply Hframe. intros m s c Hm Hs Hc.
    rewrite Z2Nat.id, Z.add_0_r in Hm by lia. apply Hq; lia.
Qed.

Lemma GenerateNonces_frame_witness :
  exists cache',
    GenerateNonces (Some blank_nonce) 262144 0 (Some sample_plot) (Some zero_gensig)
                   1337 1
    = (0, Some cache') /\
    length cache' = length blank_nonce /\
    (forall m s r,
       0 <= m < 1 -> 0 <= s < NUM_SCOOPS -> 0 <= r < 32 ->
       (s * (262144 / NONCE_SIZE) + (0 + m)) * SCOOP_SIZE + SCOOP_SIZE <= 262144 /\
       cache' !!! Z.to_nat ((s * (262144 / NONCE_SIZE) + (0 + m)) * SCOOP_SIZE + r)
       = nonce_hashes sample_plot zero_gensig (u64 (1337 + m))
         !!! Z.to_nat (2 * s * 32 + r) /\
       cache' !!! Z.to_nat ((s * (262144 / NONCE_SIZE) + (0 + m)) * SCOOP_SIZE + 32 + r)
       = nonce_hashes sample_plot zero_gensig (u64 (1337 + m))
         !!! Z.to_nat ((2 * (4095 - s) + 1) * 32 + r)) /\
    (forall q,
       (forall m s c,
          0 <= m < 0 + 1 ->
          0 <= s < NUM_SCOOPS -> 0 <= c < SCOOP_SIZE ->
          q <> Z.to_nat ((s * (262144 / NONCE_SIZE) + m) * SCOOP_SIZE + c)) ->
       cache' !!! q = blank_nonce !!! q).
Proof.
  apply (GenerateNonces_frame blank_nonce sample_plot zero_gensig 262144 0 1337 1).
  - lia.
  - lia.
  - vm_compute. discriminate.
  - vm_compute. discriminate.
  - vm_compute. reflexivity.
Defined.

End PlotMore.

Section QualityMore.
Import Quality.

Lemma scoop_loop_ok (address_payload seed : list Z)
  (scoop warp nonce_in_warp num : Z) (count : nat) :
  forall (i : Z) (nonce_buffer result : list Z),
    fst (scoop_loop count i address_payload seed scoop warp nonce_in_warp num
                    nonce_buffer result) = 0.
Proof.
  induction count as [|count IH]; intros i nonce_buffer result; [reflexivity|].
  cbn [scoop_loop].
  destruct (if i mod 2 =? 0 then (scoop, nonce_in_warp) else (nonce_in_warp, scoop))
    as [scoop_x nonce_in_warp_x].
  match goal with
  | |- context [PlotGeneration.GenerateNonces ?c ?cs ?co ?a ?s ?sn ?nn] =>
      destruct (GenerateNonces_returns nonce_buffer address_payload seed cs co sn nn)
        as [cache' Hg]
  end.
  - lia.
  - lia.
  - vm_compute. reflexivity.
  - rewrite Hg.
    change (PlotGeneration.NONCE_SIZE <? (0 + 1) * PlotGeneration.NONCE_SIZE) with false.
    cbv iota. apply IH.
Qed.

(** X27.  With the allocations of [generate_scoop] and [GenerateNonces] taken to
    succeed, a compression level below 64 and no null pointer,
    [CalculateQuality] returns 0 and writes a quality: the scoop number it
    derives is always below [NUM_SCOOPS] and the one-nonce buffer always
    fits, so neither the range test of [generate_scoop] nor the size check or
    the scatter of [GenerateNonces] can make it return -3. *)
Theorem CalculateQuality_succeeds (address_payload seed generation_sig : list Z)
  (nonce compression height quality : Z) :
  compression < 64 ->
  exists q,
    CalculateQuality (Some address_payload) (Some seed) nonce compression height
                     (Some generation_sig) (Some quality)
    = Some (0, Some q).
Proof.
  intros Hc. unfold CalculateQuality. cbv zeta. unfold generate_scoop.
  pose proof (CalculateScoop_range height generation_sig) as Hs.
  rewrite Z.geb_leb.
  destruct (Z.leb_spec NUM_SCOOPS (CalculateScoop height generation_sig)); [lia|].
  rewrite Z.geb_leb. destruct (Z.leb_spec 64 compression); [lia|].
  cbv zeta.
  match goal with
  | |- context [scoop_loop ?c ?i ?a ?s ?sc ?w ?nw ?num ?nb ?r] =>
      pose proof (scoop_loop_ok a s sc w nw num c i nb r) as Hok;
      destruct (scoop_loop c i a s sc w nw num nb r) as [code result]
  end.
  cbn [fst] in Hok. subst code. cbn [negb Z.eqb]. eexists. reflexivity.
Qed.

Lemma CalculateQuality_succeeds_witness :
  exists q,
    CalculateQuality (Some sample_plot) (Some zero_gensig) 1337 1 0
                     (Some gensig_S4) (Some 0)
    = Some (0, Some q).
Proof.
  apply (CalculateQuality_succeeds sample_plot zero_gensig gensig_S4 1337 1 0 0). lia.
Defined.

End QualityMore.

(** ** Proof-of-capacity validation *)

Section SignatureMore.
Import ArithUint256 TimeBending ProofValidation Signature.

Variable DecodeGenerationSignature : list Z -> Z * list Z.
Variable CalculateQuality : list Z -> list Z -> Z -> Z -> Z -> list Z -> Z * Z.
Variable uint256 : Type.
Variable ToString : uint256 -> list Z.

(** A zero spacing makes the scale factor raise. *)
Lemma calculate_qscale_uint_zero (fuel : nat) :
  (86 <= fuel)%nat -> calculate_qscale_uint fuel 0 = Throw.
Proof.
  intros Hf. unfold calculate_qscale_uint. cbv zeta.
  change (shl 0 (3 * 42)) with 0.
  rewrite int_cuberoot_u256_correct by (try assumption; lia).
  reflexivity.
Qed.

(** X28.  A proof whose account id is all zero is turned away with the
    default-constructed result, whatever its nonce: the first test,
    [proof.IsNull()], never decides on its own. *)
Theorem ValidateProofOfCapacity_zero_account (fuel : nat)
  (generationSignature : uint256) (proof : Block.PoCXProof)
  (baseTarget blockHeight compression block_time : Z) :
  Block.all_zero (Block.account_id proof) = true ->
  ValidateProofOfCapacity DecodeGenerationSignature CalculateQuality uint256 ToString
    fuel generationSignature proof baseTarget blockHeight compression block_time
  = Some (Ret (mkResult false (-1) 0 UINT64_MAX)).
Proof.
  intros Hz. unfold ValidateProofOfCapacity. rewrite Hz.
  destruct (Block.IsNull proof); reflexivity.
Qed.

(** X29.  When the core validation fails (the signature does not decode, or the
    quality cannot be computed) the call returns without raising, for every
    base target and block time, and reports an invalid proof with the core's
    error code, quality 0 and deadline 0, not the 2^64 - 1 of the
    default-constructed result. *)
Theorem ValidateProofOfCapacity_failure (fuel : nat)
  (generationSignature : uint256) (proof : Block.PoCXProof)
  (baseTarget blockHeight compression block_time : Z) :
  Block.all_zero (Block.account_id proof) = false ->
  (fst (DecodeGenerationSignature (ToString generationSignature)) <> 0 \/
   fst (CalculateQuality (take 20 (Block.account_id proof))
          (take 32 (Block.seed proof)) (Block.nonce proof) compression blockHeight
          (snd (DecodeGenerationSignature (ToString generationSignature)))) <> 0) ->
  exists code,
    ValidateProofOfCapacity DecodeGenerationSignature CalculateQuality uint256 ToString
      fuel generationSignature proof baseTarget blockHeight compression block_time
    = Some (Ret (mkResult false code 0 0)) /\
    (code = VALIDATION_ERROR_GENERATION_SIGNATURE_PARSE \/
     code = VALIDATION_ERROR_GENERATION_SIGNATURE_DECODE \/
     code = VALIDATION_ERROR_QUALITY_CALCULATION).
Proof.
  intros Hz Hfail. unfold ValidateProofOfCapacity. cbv zeta.
  unfold Block.IsNull. rewrite Hz, andb_false_r.
  unfold pocx_validate_block.
  destruct (DecodeGenerationSignature (ToString generationSignature))
    as [decode_result generation_signature]. cbn [fst snd] in Hfail.
  destruct (Z.eqb_spec decode_result 0) as [Hd|Hd]; cbn [negb].
  - destruct (CalculateQuality (take 20 (Block.account_id proof))
                (take 32 (Block.seed proof)) (Block.nonce proof) compression
                blockHeight generation_signature) as [quality_result q].
    cbn [fst] in Hfail.
    destruct (Z.eqb_spec quality_result 0) as [Hq|Hq]; cbn [negb].
    + destruct Hfail; contradiction.
    + cbn [quality is_valid error_code andb].
      rewrite CalculateTimeBendedDeadline_zero. cbn [bind].
      eexists. split; [reflexivity|]. right. right. reflexivity.
  - destruct (Z.eqb_spec decode_result (-1)).
    + cbn [quality is_valid error_code andb].
      rewrite CalculateTimeBendedDeadline_zero. cbn [bind].
      eexists. split; [reflexivity|]. left. reflexivity.
    + cbn [quality is_valid error_code andb].
      rewrite CalculateTimeBendedDeadline_zero. cbn [bind].
      eexists. split; [reflexivity|]. right. left. reflexivity.
Qed.

(** X30.  When the core validation succeeds with a quality [q > 0], the call as a
    whole returns only if neither the base target nor the block time is zero:
    the core accepts a zero base target, but the deadline transform that
    follows divides by it, and a zero block time zeroes the divisor of the
    scale factor.  Otherwise the result is valid, carries [q] and the
    time-bent deadline. *)
Theorem ValidateProofOfCapacity_success (fuel : nat)
  (generationSignature : uint256) (proof : Block.PoCXProof)
  (baseTarget blockHeight compression block_time : Z)
  (generation_signature : list Z) (q : Z) :
  (86 <= fuel)%nat ->
  Block.all_zero (Block.account_id proof) = false ->
  DecodeGenerationSignature (ToString generationSignature) = (0, generation_signature) ->
  CalculateQuality (take 20 (Block.account_id proof)) (take 32 (Block.seed proof))
    (Block.nonce proof) compression blockHeight generation_signature = (0, q) ->
  0 < q < 2 ^ 64 -> 0 <= baseTarget < 2 ^ 64 ->
  ValidateProofOfCapacity DecodeGenerationSignature CalculateQuality uint256 ToString
    fuel generationSignature proof baseTarget blockHeight compression block_time
  = Some (if (baseTarget =? 0) || (u64 block_time =? 0) then Throw
          else Ret (mkResult true VALIDATION_SUCCESS q
                             (spec_time_bent q baseTarget (u64 block_time)))).
Proof.
  intros Hf Hz Hdec Hqual Hq Hb. unfold ValidateProofOfCapacity. cbv zeta.
  unfold Block.IsNull. rewrite Hz, andb_false_r.
  rewrite pocx_validate_block_success with (gs := generation_signature) (q := q);
    [|assumption|assumption|lia].
  cbn [quality is_valid error_code andb].
  assert (HT : 0 <= u64 block_time < 2 ^ 64) by (apply Z.mod_pos_bound; lia).
  f_equal.
  destruct (Z.eqb_spec (u64 block_time) 0) as [HT0|HT0].
  - rewrite orb_true_r. rewrite HT0. unfold CalculateTimeBendedDeadline.
    destruct (Z.eqb_spec q 0) as [|_]; [lia|].
    rewrite calculate_qscale_uint_zero by assumption. reflexivity.
  - rewrite orb_false_r. destruct (Z.eqb_spec baseTarget 0) as [->|Hb0].
    + unfold CalculateTimeBendedDeadline.
      destruct (Z.eqb_spec q 0) as [|_]; [lia|].
      destruct (calculate_qscale_uint_spec fuel (u64 block_time) Hf ltac:(lia))
        as [-> _].
      reflexivity.
    + rewrite CalculateTimeBendedDeadline_pipeline by (try assumption; lia).
      reflexivity.
Qed.

End SignatureMore.

Section SignatureWitnesses.
Import ProofValidation Signature.

Lemma ValidateProofOfCapacity_zero_account_witness :
  ValidateProofOfCapacity decode_ok quality_ok (list Z) hex_of
    86 gensig_D null_account_proof 7000000000 4 1 600
  = Some (Ret (mkResult false (-1) 0 UINT64_MAX)).
Proof.
  apply (ValidateProofOfCapacity_zero_account decode_ok quality_ok (list Z) hex_of
           86 gensig_D null_account_proof 7000000000 4 1 600).
  reflexivity.
Defined.

Lemma ValidateProofOfCapacity_failure_witness :
  exists code,
    ValidateProofOfCapacity decode_fails quality_ok (list Z) hex_of
      86 gensig_D sample_proof 7000000000 4 1 600
    = Some (Ret (mkResult false code 0 0)) /\
    (code = VALIDATION_ERROR_GENERATION_SIGNATURE_PARSE \/
     code = VALIDATION_ERROR_GENERATION_SIGNATURE_DECODE \/
     code = VALIDATION_ERROR_QUALITY_CALCULATION).
Proof.
  apply (ValidateProofOfCapacity_failure decode_fails quality_ok (list Z) hex_of
           86 gensig_D sample_proof 7000000000 4 1 600).
  - reflexivity.
  - left. cbn. lia.
Defined.

Lemma ValidateProofOfCapacity_success_witness :
  ValidateProofOfCapacity decode_ok quality_ok (list Z) hex_of
    86 gensig_D sample_proof 0 4 1 600
  = Some (if (0 =? 0) || (u64 600 =? 0) then Throw
          else Ret (mkResult true VALIDATION_SUCCESS 1000000
                             (TimeBending.spec_time_bent 1000000 0 (u64 600)))).
Proof.
  apply (ValidateProofOfCapacity_success decode_ok quality_ok (list Z) hex_of
           86 gensig_D sample_proof 0 4 1 600 gensig_D 1000000).
  - lia.
  - reflexivity.
  - reflexivity.
  - reflexivity.
  - lia.
  - lia.
Defined.

End SignatureWitnesses.
